(** * Marvel knowledge-graph query engine: graph store, interpreter, executor

    A shallow embedding of [app/kg_query_engin.py]:
    - [KnowledgeGraph] (a wrapper around a networkx [MultiDiGraph]),
    - [QueryInterpreter] ([interpret], [_extract_entity]),
    - [GraphExecutor] ([execute]).

    Python values are modelled as the code handles them: a [str] is its
    sequence of code points, a [dict] is an insertion-ordered association
    list, an exception is an error result. *)

From Stdlib Require Import List Bool NArith ZArith Lia String Ascii.
From Stdlib Require Import Floats.SpecFloat.
Import ListNotations.

Set Implicit Arguments.

(* ------------------------------------------------------------------ *)
(** ** Python strings *)
(* ------------------------------------------------------------------ *)

Module PyStr.

(** A Python [str] is a sequence of Unicode code points. *)
Definition codepoint := N.
Definition pystr := list codepoint.

(** An ASCII literal of the source, as a [pystr]. *)
Definition py (s : string) : pystr :=
  map N_of_ascii (list_ascii_of_string s).

(** ['-'], U+002D HYPHEN-MINUS, and ['‑'], U+2011 NON-BREAKING HYPHEN:
    the two dash characters of [_extract_entity]. *)
Definition HYPHEN : codepoint := 45%N.
Definition NB_HYPHEN : codepoint := 8209%N.

Fixpoint str_eqb (a b : pystr) : bool :=
  match a, b with
  | [], [] => true
  | x :: a', y :: b' => N.eqb x y && str_eqb a' b'
  | _, _ => false
  end.

(** *** [str.lower()]

    Lower-casing as CPython 3.11 does it with the character database of
    Unicode 14.0.0 ([do_lower] in [Objects/unicodeobject.c]): every
    character is replaced by its full lower-case mapping, except U+03A3
    GREEK CAPITAL LETTER SIGMA, which becomes the final sigma U+03C2 at
    the end of a word and the small sigma U+03C3 elsewhere.  The three
    tables list, as inclusive ranges, all the code points concerned. *)

Definition in_ranges (c : codepoint) (ranges : list (codepoint * codepoint))
  : bool :=
  existsb (fun r => (fst r <=? c)%N && (c <=? snd r)%N) ranges.

(** The code points with the property Case_Ignorable. *)
Definition case_ignorable_ranges : list (codepoint * codepoint) :=
  [
    (39, 39); (46, 46); (58, 58); (94, 94); (96, 96);
    (168, 168); (173, 173); (175, 175); (180, 180); (183, 184);
    (688, 879); (884, 885); (890, 890); (900, 901); (903, 903);
    (1155, 1161); (1369, 1369); (1375, 1375); (1425, 1469); (1471, 1471);
    (1473, 1474); (1476, 1477); (1479, 1479); (1524, 1524); (1536, 1541);
    (1552, 1562); (1564, 1564); (1600, 1600); (1611, 1631); (1648, 1648);
    (1750, 1757); (1759, 1768); (1770, 1773); (1807, 1807); (1809, 1809);
    (1840, 1866); (1958, 1968); (2027, 2037); (2042, 2042); (2045, 2045);
    (2070, 2093); (2137, 2139); (2184, 2184); (2192, 2193); (2200, 2207);
    (2249, 2306); (2362, 2362); (2364, 2364); (2369, 2376); (2381, 2381);
    (2385, 2391); (2402, 2403); (2417, 2417); (2433, 2433); (2492, 2492);
    (2497, 2500); (2509, 2509); (2530, 2531); (2558, 2558); (2561, 2562);
    (2620, 2620); (2625, 2626); (2631, 2632); (2635, 2637); (2641, 2641);
    (2672, 2673); (2677, 2677); (2689, 2690); (2748, 2748); (2753, 2757);
    (2759, 2760); (2765, 2765); (2786, 2787); (2810, 2815); (2817, 2817);
    (2876, 2876); (2879, 2879); (2881, 2884); (2893, 2893); (2901, 2902);
    (2914, 2915); (2946, 2946); (3008, 3008); (3021, 3021); (3072, 3072);
    (3076, 3076); (3132, 3132); (3134, 3136); (3142, 3144); (3146, 3149);
    (3157, 3158); (3170, 3171); (3201, 3201); (3260, 3260); (3263, 3263);
    (3270, 3270); (3276, 3277); (3298, 3299); (3328, 3329); (3387, 3388);
    (3393, 3396); (3405, 3405); (3426, 3427); (3457, 3457); (3530, 3530);
    (3538, 3540); (3542, 3542); (3633, 3633); (3636, 3642); (3654, 3662);
    (3761, 3761); (3764, 3772); (3782, 3782); (3784, 3789); (3864, 3865);
    (3893, 3893); (3895, 3895); (3897, 3897); (3953, 3966); (3968, 3972);
    (3974, 3975); (3981, 3991); (3993, 4028); (4038, 4038); (4141, 4144);
    (4146, 4151); (4153, 4154); (4157, 4158); (4184, 4185); (4190, 4192);
    (4209, 4212); (4226, 4226); (4229, 4230); (4237, 4237); (4253, 4253);
    (4348, 4348); (4957, 4959); (5906, 5908); (5938, 5939); (5970, 5971);
    (6002, 6003); (6068, 6069); (6071, 6077); (6086, 6086); (6089, 6099);
    (6103, 6103); (6109, 6109); (6155, 6159); (6211, 6211); (6277, 6278);
    (6313, 6313); (6432, 6434); (6439, 6440); (6450, 6450); (6457, 6459);
    (6679, 6680); (6683, 6683); (6742, 6742); (6744, 6750); (6752, 6752);
    (6754, 6754); (6757, 6764); (6771, 6780); (6783, 6783); (6823, 6823);
    (6832, 6862); (6912, 6915); (6964, 6964); (6966, 6970); (6972, 6972);
    (6978, 6978); (7019, 7027); (7040, 7041); (7074, 7077); (7080, 7081);
    (7083, 7085); (7142, 7142); (7144, 7145); (7149, 7149); (7151, 7153);
    (7212, 7219); (7222, 7223); (7288, 7293); (7376, 7378); (7380, 7392);
    (7394, 7400); (7405, 7405); (7412, 7412); (7416, 7417); (7468, 7530);
    (7544, 7544); (7579, 7679); (8125, 8125); (8127, 8129); (8141, 8143);
    (8157, 8159); (8173, 8175); (8189, 8190); (8203, 8207); (8216, 8217);
    (8228, 8228); (8231, 8231); (8234, 8238); (8288, 8292); (8294, 8303);
    (8305, 8305); (8319, 8319); (8336, 8348); (8400, 8432); (11388, 11389);
    (11503, 11505); (11631, 11631); (11647, 11647); (11744, 11775); (11823, 11823);
    (12293, 12293); (12330, 12333); (12337, 12341); (12347, 12347); (12441, 12446);
    (12540, 12542); (40981, 40981); (42232, 42237); (42508, 42508); (42607, 42610);
    (42612, 42621); (42623, 42623); (42652, 42655); (42736, 42737); (42752, 42785);
    (42864, 42864); (42888, 42890); (42994, 42996); (43000, 43001); (43010, 43010);
    (43014, 43014); (43019, 43019); (43045, 43046); (43052, 43052); (43204, 43205);
    (43232, 43249); (43263, 43263); (43302, 43309); (43335, 43345); (43392, 43394);
    (43443, 43443); (43446, 43449); (43452, 43453); (43471, 43471); (43493, 43494);
    (43561, 43566); (43569, 43570); (43573, 43574); (43587, 43587); (43596, 43596);
    (43632, 43632); (43644, 43644); (43696, 43696); (43698, 43700); (43703, 43704);
    (43710, 43711); (43713, 43713); (43741, 43741); (43756, 43757); (43763, 43764);
    (43766, 43766); (43867, 43871); (43881, 43883); (44005, 44005); (44008, 44008);
    (44013, 44013); (64286, 64286); (64434, 64450); (65024, 65039); (65043, 65043);
    (65056, 65071); (65106, 65106); (65109, 65109); (65279, 65279); (65287, 65287);
    (65294, 65294); (65306, 65306); (65342, 65342); (65344, 65344); (65392, 65392);
    (65438, 65439); (65507, 65507); (65529, 65531); (66045, 66045); (66272, 66272);
    (66422, 66426); (67456, 67461); (67463, 67504); (67506, 67514); (68097, 68099);
    (68101, 68102); (68108, 68111); (68152, 68154); (68159, 68159); (68325, 68326);
    (68900, 68903); (69291, 69292); (69446, 69456); (69506, 69509); (69633, 69633);
    (69688, 69702); (69744, 69744); (69747, 69748); (69759, 69761); (69811, 69814);
    (69817, 69818); (69821, 69821); (69826, 69826); (69837, 69837); (69888, 69890);
    (69927, 69931); (69933, 69940); (70003, 70003); (70016, 70017); (70070, 70078);
    (70089, 70092); (70095, 70095); (70191, 70193); (70196, 70196); (70198, 70199);
    (70206, 70206); (70367, 70367); (70371, 70378); (70400, 70401); (70459, 70460);
    (70464, 70464); (70502, 70508); (70512, 70516); (70712, 70719); (70722, 70724);
    (70726, 70726); (70750, 70750); (70835, 70840); (70842, 70842); (70847, 70848);
    (70850, 70851); (71090, 71093); (71100, 71101); (71103, 71104); (71132, 71133);
    (71219, 71226); (71229, 71229); (71231, 71232); (71339, 71339); (71341, 71341);
    (71344, 71349); (71351, 71351); (71453, 71455); (71458, 71461); (71463, 71467);
    (71727, 71735); (71737, 71738); (71995, 71996); (71998, 71998); (72003, 72003);
    (72148, 72151); (72154, 72155); (72160, 72160); (72193, 72202); (72243, 72248);
    (72251, 72254); (72263, 72263); (72273, 72278); (72281, 72283); (72330, 72342);
    (72344, 72345); (72752, 72758); (72760, 72765); (72767, 72767); (72850, 72871);
    (72874, 72880); (72882, 72883); (72885, 72886); (73009, 73014); (73018, 73018);
    (73020, 73021); (73023, 73029); (73031, 73031); (73104, 73105); (73109, 73109);
    (73111, 73111); (73459, 73460); (78896, 78904); (92912, 92916); (92976, 92982);
    (92992, 92995); (94031, 94031); (94095, 94111); (94176, 94177); (94179, 94180);
    (110576, 110579); (110581, 110587); (110589, 110590); (113821, 113822); (113824, 113827);
    (118528, 118573); (118576, 118598); (119143, 119145); (119155, 119170); (119173, 119179);
    (119210, 119213); (119362, 119364); (121344, 121398); (121403, 121452); (121461, 121461);
    (121476, 121476); (121499, 121503); (121505, 121519); (122880, 122886); (122888, 122904);
    (122907, 122913); (122915, 122916); (122918, 122922); (123184, 123197); (123566, 123566);
    (123628, 123631); (125136, 125142); (125252, 125259); (127995, 127999); (917505, 917505);
    (917536, 917631); (917760, 917999)
  ]%N.

(** The code points with the property Cased. *)
Definition cased_ranges : list (codepoint * codepoint) :=
  [
    (65, 90); (97, 122); (170, 170); (181, 181); (186, 186);
    (192, 214); (216, 246); (248, 442); (444, 447); (452, 659);
    (661, 696); (704, 705); (736, 740); (837, 837); (880, 883);
    (886, 887); (890, 893); (895, 895); (902, 902); (904, 906);
    (908, 908); (910, 929); (931, 1013); (1015, 1153); (1162, 1327);
    (1329, 1366); (1376, 1416); (4256, 4293); (4295, 4295); (4301, 4301);
    (4304, 4346); (4349, 4351); (5024, 5109); (5112, 5117); (7296, 7304);
    (7312, 7354); (7357, 7359); (7424, 7615); (7680, 7957); (7960, 7965);
    (7968, 8005); (8008, 8013); (8016, 8023); (8025, 8025); (8027, 8027);
    (8029, 8029); (8031, 8061); (8064, 8116); (8118, 8124); (8126, 8126);
    (8130, 8132); (8134, 8140); (8144, 8147); (8150, 8155); (8160, 8172);
    (8178, 8180); (8182, 8188); (8305, 8305); (8319, 8319); (8336, 8348);
    (8450, 8450); (8455, 8455); (8458, 8467); (8469, 8469); (8473, 8477);
    (8484, 8484); (8486, 8486); (8488, 8488); (8490, 8493); (8495, 8500);
    (8505, 8505); (8508, 8511); (8517, 8521); (8526, 8526); (8544, 8575);
    (8579, 8580); (9398, 9449); (11264, 11492); (11499, 11502); (11506, 11507);
    (11520, 11557); (11559, 11559); (11565, 11565); (42560, 42605); (42624, 42653);
    (42786, 42887); (42891, 42894); (42896, 42954); (42960, 42961); (42963, 42963);
    (42965, 42969); (42997, 42998); (43000, 43002); (43824, 43866); (43868, 43880);
    (43888, 43967); (64256, 64262); (64275, 64279); (65313, 65338); (65345, 65370);
    (66560, 66639); (66736, 66771); (66776, 66811); (66928, 66938); (66940, 66954);
    (66956, 66962); (66964, 66965); (66967, 66977); (66979, 66993); (66995, 67001);
    (67003, 67004); (67456, 67456); (67459, 67461); (67463, 67504); (67506, 67514);
    (68736, 68786); (68800, 68850); (71840, 71903); (93760, 93823); (119808, 119892);
    (119894, 119964); (119966, 119967); (119970, 119970); (119973, 119974); (119977, 119980);
    (119982, 119993); (119995, 119995); (119997, 120003); (120005, 120069); (120071, 120074);
    (120077, 120084); (120086, 120092); (120094, 120121); (120123, 120126); (120128, 120132);
    (120134, 120134); (120138, 120144); (120146, 120485); (120488, 120512); (120514, 120538);
    (120540, 120570); (120572, 120596); (120598, 120628); (120630, 120654); (120656, 120686);
    (120688, 120712); (120714, 120744); (120746, 120770); (120772, 120779); (122624, 122633);
    (122635, 122654); (125184, 125251); (127280, 127305); (127312, 127337); (127344, 127369)
  ]%N.

(** The characters that their one-character lower-case mapping changes:
    [(first, last, step, image)] sends [first], [first + step], ... up to
    [last] to [image], [image + step], ... *)
Definition lowercase_ranges
  : list (codepoint * codepoint * N * codepoint) :=
  [
    (65, 90, 1, 97); (192, 214, 1, 224); (216, 222, 1, 248);
    (256, 302, 2, 257); (306, 310, 2, 307); (313, 327, 2, 314);
    (330, 374, 2, 331); (376, 376, 1, 255); (377, 381, 2, 378);
    (385, 385, 1, 595); (386, 388, 2, 387); (390, 390, 1, 596);
    (391, 391, 1, 392); (393, 394, 1, 598); (395, 395, 1, 396);
    (398, 398, 1, 477); (399, 399, 1, 601); (400, 400, 1, 603);
    (401, 401, 1, 402); (403, 403, 1, 608); (404, 404, 1, 611);
    (406, 406, 1, 617); (407, 407, 1, 616); (408, 408, 1, 409);
    (412, 412, 1, 623); (413, 413, 1, 626); (415, 415, 1, 629);
    (416, 420, 2, 417); (422, 422, 1, 640); (423, 423, 1, 424);
    (425, 425, 1, 643); (428, 428, 1, 429); (430, 430, 1, 648);
    (431, 431, 1, 432); (433, 434, 1, 650); (435, 437, 2, 436);
    (439, 439, 1, 658); (440, 440, 1, 441); (444, 444, 1, 445);
    (452, 452, 1, 454); (453, 453, 1, 454); (455, 455, 1, 457);
    (456, 456, 1, 457); (458, 458, 1, 460); (459, 475, 2, 460);
    (478, 494, 2, 479); (497, 497, 1, 499); (498, 500, 2, 499);
    (502, 502, 1, 405); (503, 503, 1, 447); (504, 542, 2, 505);
    (544, 544, 1, 414); (546, 562, 2, 547); (570, 570, 1, 11365);
    (571, 571, 1, 572); (573, 573, 1, 410); (574, 574, 1, 11366);
    (577, 577, 1, 578); (579, 579, 1, 384); (580, 580, 1, 649);
    (581, 581, 1, 652); (582, 590, 2, 583); (880, 882, 2, 881);
    (886, 886, 1, 887); (895, 895, 1, 1011); (902, 902, 1, 940);
    (904, 906, 1, 941); (908, 908, 1, 972); (910, 911, 1, 973);
    (913, 929, 1, 945); (931, 939, 1, 963); (975, 975, 1, 983);
    (984, 1006, 2, 985); (1012, 1012, 1, 952); (1015, 1015, 1, 1016);
    (1017, 1017, 1, 1010); (1018, 1018, 1, 1019); (1021, 1023, 1, 891);
    (1024, 1039, 1, 1104); (1040, 1071, 1, 1072); (1120, 1152, 2, 1121);
    (1162, 1214, 2, 1163); (1216, 1216, 1, 1231); (1217, 1229, 2, 1218);
    (1232, 1326, 2, 1233); (1329, 1366, 1, 1377); (4256, 4293, 1, 11520);
    (4295, 4295, 1, 11559); (4301, 4301, 1, 11565); (5024, 5103, 1, 43888);
    (5104, 5109, 1, 5112); (7312, 7354, 1, 4304); (7357, 7359, 1, 4349);
    (7680, 7828, 2, 7681); (7838, 7838, 1, 223); (7840, 7934, 2, 7841);
    (7944, 7951, 1, 7936); (7960, 7965, 1, 7952); (7976, 7983, 1, 7968);
    (7992, 7999, 1, 7984); (8008, 8013, 1, 8000); (8025, 8031, 2, 8017);
    (8040, 8047, 1, 8032); (8072, 8079, 1, 8064); (8088, 8095, 1, 8080);
    (8104, 8111, 1, 8096); (8120, 8121, 1, 8112); (8122, 8123, 1, 8048);
    (8124, 8124, 1, 8115); (8136, 8139, 1, 8050); (8140, 8140, 1, 8131);
    (8152, 8153, 1, 8144); (8154, 8155, 1, 8054); (8168, 8169, 1, 8160);
    (8170, 8171, 1, 8058); (8172, 8172, 1, 8165); (8184, 8185, 1, 8056);
    (8186, 8187, 1, 8060); (8188, 8188, 1, 8179); (8486, 8486, 1, 969);
    (8490, 8490, 1, 107); (8491, 8491, 1, 229); (8498, 8498, 1, 8526);
    (8544, 8559, 1, 8560); (8579, 8579, 1, 8580); (9398, 9423, 1, 9424);
    (11264, 11311, 1, 11312); (11360, 11360, 1, 11361); (11362, 11362, 1, 619);
    (11363, 11363, 1, 7549); (11364, 11364, 1, 637); (11367, 11371, 2, 11368);
    (11373, 11373, 1, 593); (11374, 11374, 1, 625); (11375, 11375, 1, 592);
    (11376, 11376, 1, 594); (11378, 11378, 1, 11379); (11381, 11381, 1, 11382);
    (11390, 11391, 1, 575); (11392, 11490, 2, 11393); (11499, 11501, 2, 11500);
    (11506, 11506, 1, 11507); (42560, 42604, 2, 42561); (42624, 42650, 2, 42625);
    (42786, 42798, 2, 42787); (42802, 42862, 2, 42803); (42873, 42875, 2, 42874);
    (42877, 42877, 1, 7545); (42878, 42886, 2, 42879); (42891, 42891, 1, 42892);
    (42893, 42893, 1, 613); (42896, 42898, 2, 42897); (42902, 42920, 2, 42903);
    (42922, 42922, 1, 614); (42923, 42923, 1, 604); (42924, 42924, 1, 609);
    (42925, 42925, 1, 620); (42926, 42926, 1, 618); (42928, 42928, 1, 670);
    (42929, 42929, 1, 647); (42930, 42930, 1, 669); (42931, 42931, 1, 43859);
    (42932, 42946, 2, 42933); (42948, 42948, 1, 42900); (42949, 42949, 1, 642);
    (42950, 42950, 1, 7566); (42951, 42953, 2, 42952); (42960, 42960, 1, 42961);
    (42966, 42968, 2, 42967); (42997, 42997, 1, 42998); (65313, 65338, 1, 65345);
    (66560, 66599, 1, 66600); (66736, 66771, 1, 66776); (66928, 66938, 1, 66967);
    (66940, 66954, 1, 66979); (66956, 66962, 1, 66995); (66964, 66965, 1, 67003);
    (68736, 68786, 1, 68800); (71840, 71871, 1, 71872); (93760, 93791, 1, 93792);
    (125184, 125217, 1, 125218)
  ]%N.

Definition _PyUnicode_IsCaseIgnorable (c : codepoint) : bool :=
  in_ranges c case_ignorable_ranges.

Definition _PyUnicode_IsCased (c : codepoint) : bool :=
  in_ranges c cased_ranges.

Definition maps (c : codepoint) (r : codepoint * codepoint * N * codepoint)
  : bool :=
  let '(first, last, step, _) := r in
  (first <=? c)%N && (c <=? last)%N && (((c - first) mod step) =? 0)%N.

(** The full lower-case mapping of one character.  U+0130 LATIN CAPITAL
    LETTER I WITH DOT ABOVE is the only character it maps to two. *)
Definition _PyUnicode_ToLowerFull (c : codepoint) : pystr :=
  if (c =? 304)%N then [105; 775]%N
  else
    match find (maps c) lowercase_ranges with
    | Some (first, _, _, image) => [image + (c - first)]%N
    | None => [c]
    end.

Definition CAPITAL_SIGMA : codepoint := 931%N.
Definition SMALL_SIGMA : codepoint := 963%N.
Definition FINAL_SIGMA : codepoint := 962%N.

(** The first character of [s] that is not case-ignorable. *)
Fixpoint skip_case_ignorable (s : pystr) : option codepoint :=
  match s with
  | [] => None
  | c :: rest =>
      if _PyUnicode_IsCaseIgnorable c then skip_case_ignorable rest
      else Some c
  end.

(** [handle_capital_sigma]: a capital sigma is final when, case-ignorable
    characters apart, a cased character precedes it and none follows.
    [before] holds the characters before the sigma, nearest first;
    [after] those after it. *)
Definition handle_capital_sigma (before after : pystr) : codepoint :=
  let final_sigma :=
    match skip_case_ignorable before with
    | Some c =>
        _PyUnicode_IsCased c
        && match skip_case_ignorable after with
           | Some d => negb (_PyUnicode_IsCased d)
           | None => true
           end
    | None => false
    end in
  if final_sigma then FINAL_SIGMA else SMALL_SIGMA.

(** [lower_ucs4], on the character [c] between [before] and [after]. *)
Definition lower_ucs4 (before : pystr) (c : codepoint) (after : pystr)
  : pystr :=
  if (c =? CAPITAL_SIGMA)%N then [handle_capital_sigma before after]
  else _PyUnicode_ToLowerFull c.

(** [do_lower], from the characters already passed (nearest first). *)
Fixpoint do_lower (before s : pystr) : pystr :=
  match s with
  | [] => []
  | c :: rest => lower_ucs4 before c rest ++ do_lower (c :: before) rest
  end.

(** [s.lower()]. *)
Definition lower (s : pystr) : pystr := do_lower [] s.

(** Whether a capital sigma occurs in [s]: the one letter whose
    lower-case form depends on its neighbours. *)
Definition has_capital_sigma (s : pystr) : bool :=
  existsb (N.eqb CAPITAL_SIGMA) s.

(** One of the two dash characters. *)
Definition dash (d : codepoint) : Prop := d = HYPHEN \/ d = NB_HYPHEN.

(** [s.replace(old, new)] where [old] and [new] are one character long, as
    at both call sites. *)
Definition replace (old new : codepoint) (s : pystr) : pystr :=
  map (fun c => if N.eqb c old then new else c) s.

Fixpoint startswith (s p : pystr) {struct p} : bool :=
  match p, s with
  | [], _ => true
  | x :: p', y :: s' => N.eqb x y && startswith s' p'
  | _ :: _, [] => false
  end.

(** [p in s] for two strings: [p] occurs in [s] as a substring. *)
Fixpoint contains (p s : pystr) : bool :=
  startswith s p ||
  match s with
  | [] => false
  | _ :: s' => contains p s'
  end.

(** [s.endswith(p)]. *)
Definition endswith (s p : pystr) : bool :=
  startswith (rev s) (rev p).

End PyStr.
Export PyStr.

(* ------------------------------------------------------------------ *)
(** ** Attribute values and dictionaries *)
(* ------------------------------------------------------------------ *)

(** The values a GraphML attribute or a keyword argument carries here:
    [str], [int], [float] and [bool]. *)
Inductive value : Type :=
| VStr (s : pystr)
| VInt (z : Z)
| VFloat (f : spec_float)
| VBool (b : bool).

(** Truth value of an object, as the operator [or] tests it. *)
Definition truthy (v : value) : bool :=
  match v with
  | VStr s => negb (str_eqb s [])
  | VInt z => negb (Z.eqb z 0)
  | VFloat (S754_zero _) => false
  | VFloat _ => true
  | VBool b => b
  end.

(** [v == s] for a string [s]: only an equal string compares equal. *)
Definition eq_str (v : value) (s : pystr) : bool :=
  match v with
  | VStr t => str_eqb t s
  | _ => false
  end.

(** [a or b] where [a] is the result of a [dict.get] ([None] when the key
    is absent). *)
Definition py_or (a : option value) (b : value) : value :=
  match a with
  | Some v => if truthy v then v else b
  | None => b
  end.

(** A Python [dict] with string keys: insertion-ordered, keys unique. *)
Module Dict.

Definition dict (V : Type) := list (pystr * V).

Fixpoint get {V} (d : dict V) (k : pystr) : option V :=
  match d with
  | [] => None
  | (k', v) :: d' => if str_eqb k' k then Some v else get d' k
  end.

Definition mem {V} (d : dict V) (k : pystr) : bool :=
  match get d k with Some _ => true | None => false end.

(** [d[k] = v]: an existing key keeps its position, a new one goes last. *)
Fixpoint set {V} (d : dict V) (k : pystr) (v : V) : dict V :=
  match d with
  | [] => [(k, v)]
  | (k', v') :: d' =>
      if str_eqb k' k then (k', v) :: d' else (k', v') :: set d' k v
  end.

Definition keys {V} (d : dict V) : list pystr := map fst d.

(** [d.get(k, default)]. *)
Definition get_default {V} (d : dict V) (k : pystr) (default : V) : V :=
  match get d k with Some v => v | None => default end.

(** [d.update(other)]. *)
Definition update {V} (d other : dict V) : dict V :=
  fold_left (fun acc kv => set acc (fst kv) (snd kv)) other d.

End Dict.

Definition attr_dict := Dict.dict value.

(* ------------------------------------------------------------------ *)
(** ** Exceptions *)
(* ------------------------------------------------------------------ *)

Inductive exn : Type :=
| KeyError (key : pystr)
| ValueError (msg : pystr).

Inductive result (A : Type) : Type :=
| Ok (a : A)
| Raise (e : exn).

Arguments Ok {A} a.
Arguments Raise {A} e.

Definition bind {A B} (r : result A) (k : A -> result B) : result B :=
  match r with
  | Ok a => k a
  | Raise e => Raise e
  end.

Notation "x <- e ;; k" := (bind e (fun x => k))
  (at level 61, e at next level, right associativity).

(** [d[k]]: raises [KeyError] on a missing key. *)
Definition subscript {V} (d : Dict.dict V) (k : pystr) : result V :=
  match Dict.get d k with
  | Some v => Ok v
  | None => Raise (KeyError k)
  end.

(** A [for] loop over [xs] that threads an accumulator and stops at the
    first exception. *)
Fixpoint for_each {A S} (xs : list A) (body : S -> A -> result S) (s : S)
  : result S :=
  match xs with
  | [] => Ok s
  | x :: xs' => s' <- body s x ;; for_each xs' body s'
  end.

(** A list comprehension whose element expression may raise. *)
Fixpoint comprehension {A B} (f : A -> result B) (xs : list A)
  : result (list B) :=
  match xs with
  | [] => Ok []
  | x :: xs' => y <- f x ;; ys <- comprehension f xs' ;; Ok (y :: ys)
  end.

(* ------------------------------------------------------------------ *)
(** ** The networkx multigraph behind [KnowledgeGraph.G] *)
(* ------------------------------------------------------------------ *)

(** [networkx.MultiDiGraph] as the program uses it: a node dictionary and
    two adjacency dictionaries, successor and predecessor, each mapping a
    node to its neighbours and each neighbour to the key dictionary of the
    parallel edges.  Edges are only ever added without an explicit key, so
    the keys of a key dictionary are [0, 1, ...] in order and it is
    modelled as the list of its edge-attribute dictionaries. *)
Module nx.

Definition keydict := list attr_dict.
Definition adjacency := Dict.dict (Dict.dict keydict).

Record MultiDiGraph : Type := {
  _node : Dict.dict attr_dict;
  _succ : adjacency;
  _pred : adjacency
}.

Definition empty : MultiDiGraph :=
  {| _node := []; _succ := []; _pred := [] |}.

(** [G.add_node(n, **attr)]. *)
Definition add_node (g : MultiDiGraph) (n : pystr) (attr : attr_dict)
  : MultiDiGraph :=
  if negb (Dict.mem (_succ g) n) then
    {| _node := Dict.set (_node g) n (Dict.update [] attr);
       _succ := Dict.set (_succ g) n [];
       _pred := Dict.set (_pred g) n [] |}
  else
    {| _node := Dict.set (_node g) n
                  (Dict.update (Dict.get_default (_node g) n []) attr);
       _succ := _succ g;
       _pred := _pred g |}.

(** The first lines of [add_edge]: an endpoint that is not a node yet is
    added with no attributes. *)
Definition touch (g : MultiDiGraph) (n : pystr) : MultiDiGraph :=
  if negb (Dict.mem (_succ g) n) then
    {| _node := Dict.set (_node g) n [];
       _succ := Dict.set (_succ g) n [];
       _pred := Dict.set (_pred g) n [] |}
  else g.

(** [G.add_edge(u, v, **attr)] with a fresh key.  The key dictionary of
    the pair is one object reachable from both [_succ[u][v]] and
    [_pred[v][u]]; both entries are rewritten with the same new value. *)
Definition add_edge (g : MultiDiGraph) (u v : pystr) (attr : attr_dict)
  : MultiDiGraph :=
  let g1 := touch (touch g u) v in
  let nbrs := Dict.get_default (_succ g1) u [] in
  let kd :=
    match Dict.get nbrs v with
    | Some kd0 => kd0 ++ [Dict.update [] attr]
    | None => [Dict.update [] attr]
    end in
  {| _node := _node g1;
     _succ := Dict.set (_succ g1) u (Dict.set nbrs v kd);
     _pred := Dict.set (_pred g1) v
                (Dict.set (Dict.get_default (_pred g1) v []) u kd) |}.

(** Iterating [G.nodes]. *)
Definition nodes (g : MultiDiGraph) : list pystr := Dict.keys (_node g).

(** [n in G.nodes], also [n in G]. *)
Definition has_node (g : MultiDiGraph) (n : pystr) : bool :=
  Dict.mem (_node g) n.

(** [G.nodes[n]]. *)
Definition nodes_getitem (g : MultiDiGraph) (n : pystr) : result attr_dict :=
  subscript (_node g) n.

(** [dict.fromkeys(xs)], as a key sequence: first occurrences, in order. *)
Definition fromkeys (xs : list pystr) : list pystr :=
  fold_left
    (fun acc k => if existsb (str_eqb k) acc then acc else acc ++ [k])
    xs [].

(** [G.nbunch_iter(n)] for a string [n]: the node itself when it is one;
    otherwise [n] is iterated as a container, character by character, and
    the characters that are nodes are kept. *)
Definition nbunch_iter (g : MultiDiGraph) (n : pystr) : list pystr :=
  if has_node g n then [n]
  else filter (Dict.mem (_succ g)) (map (fun c => [c]) n).

Definition edge := (pystr * pystr * attr_dict)%type.

(** The edge data view over [n], reading the adjacency [adj]: every
    neighbour dictionary is fetched first ([adj[m]] for each [m] of the
    bunch), then the edges are reported neighbour by neighbour, key by
    key. *)
Definition edge_view (g : MultiDiGraph) (adj : adjacency)
    (report : pystr -> pystr -> attr_dict -> edge) (n : pystr)
  : result (list edge) :=
  nodes_nbrs <- comprehension
                  (fun m => nbrs <- subscript adj m ;; Ok (m, nbrs))
                  (fromkeys (nbunch_iter g n)) ;;
  Ok (flat_map
        (fun mn : pystr * Dict.dict keydict =>
           flat_map
             (fun nk : pystr * keydict =>
                map (report (fst mn) (fst nk)) (snd nk))
             (snd mn))
        nodes_nbrs).

(** [G.out_edges(n, data=True)]: triples [(n, nbr, data)]. *)
Definition out_edges (g : MultiDiGraph) (n : pystr) : result (list edge) :=
  edge_view g (_succ g) (fun m nbr dd => (m, nbr, dd)) n.

(** [G.in_edges(n, data=True)]: triples [(nbr, n, data)]. *)
Definition in_edges (g : MultiDiGraph) (n : pystr) : result (list edge) :=
  edge_view g (_pred g) (fun m nbr dd => (nbr, m, dd)) n.

(** What [nx.read_graphml] hands over: a graph of any of the four networkx
    classes, seen through its node dictionary and its adjacency
    dictionary.  An undirected graph stores every edge under both of its
    endpoints; a graph without parallel edges has one-entry key
    dictionaries. *)
Record RawGraph : Type := {
  raw_directed : bool;
  raw_node : Dict.dict attr_dict;
  raw_adj : adjacency
}.

Definition is_directed (raw : RawGraph) : bool := raw_directed raw.

(** [raw.to_directed()] copies the nodes and then one directed edge per
    adjacency entry, so the copy has the adjacency of the original. *)
Definition to_directed (raw : RawGraph) : RawGraph :=
  {| raw_directed := true;
     raw_node := raw_node raw;
     raw_adj := raw_adj raw |}.

(** [raw.nodes(data=True)]. *)
Definition nodes_data (raw : RawGraph) : list (pystr * attr_dict) :=
  raw_node raw.

(** [raw.edges(data=True)] of a directed graph. *)
Definition edges_data (raw : RawGraph) : list edge :=
  flat_map
    (fun un : pystr * Dict.dict keydict =>
       flat_map
         (fun vk : pystr * keydict =>
            map (fun dd => (fst un, fst vk, dd)) (snd vk))
         (snd un))
    (raw_adj raw).

End nx.

(* ------------------------------------------------------------------ *)
(** ** KnowledgeGraph *)
(* ------------------------------------------------------------------ *)

Record KnowledgeGraph : Type := { G : nx.MultiDiGraph }.

Definition KnowledgeGraph_init : KnowledgeGraph := {| G := nx.empty |}.

(** The relation label of a source edge: the first truthy value among the
    attributes [relation], [label], [type], [name], else ["RELATED_TO"]. *)
Definition resolve_relation (attrs : attr_dict) : value :=
  py_or (Dict.get attrs (py "relation"))
    (py_or (Dict.get attrs (py "label"))
       (py_or (Dict.get attrs (py "type"))
          (py_or (Dict.get attrs (py "name"))
             (VStr (py "RELATED_TO"))))).

(** [KnowledgeGraph.from_graphml], from the graph that [nx.read_graphml]
    returned. *)
Definition from_graphml (raw0 : nx.RawGraph) : KnowledgeGraph :=
  let raw := if negb (nx.is_directed raw0) then nx.to_directed raw0 else raw0 in
  let g1 :=
    fold_left
      (fun g (na : pystr * attr_dict) => nx.add_node g (fst na) (snd na))
      (nx.nodes_data raw) (G KnowledgeGraph_init) in
  let g2 :=
    fold_left
      (fun g (e : nx.edge) =>
         let '(src, dst, attrs) := e in
         let relation := resolve_relation attrs in
         nx.add_edge g src dst [(py "relation", relation)])
      (nx.edges_data raw) g1 in
  {| G := g2 |}.

Definition add_character (kg : KnowledgeGraph) (name : pystr) : KnowledgeGraph :=
  {| G := nx.add_node (G kg) name [(py "type", VStr (py "Character"))] |}.

Definition add_team (kg : KnowledgeGraph) (name : pystr) : KnowledgeGraph :=
  {| G := nx.add_node (G kg) name [(py "type", VStr (py "Team"))] |}.

Definition add_gene (kg : KnowledgeGraph) (name : pystr) : KnowledgeGraph :=
  {| G := nx.add_node (G kg) name [(py "type", VStr (py "Gene"))] |}.

Definition add_power (kg : KnowledgeGraph) (name : pystr) : KnowledgeGraph :=
  {| G := nx.add_node (G kg) name [(py "type", VStr (py "Power"))] |}.

Definition add_relationship (kg : KnowledgeGraph) (src dst rel : pystr)
  : KnowledgeGraph :=
  {| G := nx.add_edge (G kg) src dst [(py "relation", VStr rel)] |}.

(** [self.G.nodes[node].get("label", "Unknown")]. *)
Definition node_type (kg : KnowledgeGraph) (node : pystr) : result value :=
  attrs <- nx.nodes_getitem (G kg) node ;;
  Ok (Dict.get_default attrs (py "label") (VStr (py "Unknown"))).

(* ------------------------------------------------------------------ *)
(** ** QueryInterpreter *)
(* ------------------------------------------------------------------ *)

Definition embedding := list spec_float.

(** The interpreter object.  The sentence-embedding model and the spaCy
    pipeline are outside the program: [encode] stands for
    [self.model.encode], [cos_sim] for [util.cos_sim(..).item()], and
    [_nlp], when spaCy is installed, maps a query to the texts of
    [doc.ents]. *)
Record QueryInterpreter : Type := {
  kg : KnowledgeGraph;
  encode : pystr -> embedding;
  cos_sim : embedding -> embedding -> spec_float;
  _nlp : option (pystr -> list pystr)
}.

Definition intent_templates : Dict.dict (pystr * list pystr) :=
  [ (py "direct_power",
      (py "Retrieve powers a character directly possesses",
       [py "POSSESSES_POWER"]));
    (py "mutation_power",
      (py "Retrieve powers a character has via mutations",
       [py "HAS_MUTATION"; py "CONFERS"]));
    (py "team",
      (py "Retrieve teams a character belongs to",
       [py "MEMBER_OF"]));
    (py "gene_power",
      (py "Retrieve powers a gene confers",
       [py "CONFERS"]));
    (py "character_gene",
      (py "Retrieve genes a character has",
       [py "HAS_MUTATION"])) ].

Definition template_embeddings (self : QueryInterpreter) : Dict.dict embedding :=
  map (fun kt : pystr * (pystr * list pystr) =>
         (fst kt, encode self (fst (snd kt))))
      intent_templates.

(** [max(xs, key=key)]: the first element whose key no later key exceeds
    ([>] on floats is false as soon as a NaN is involved). *)
Definition py_max (xs : list pystr) (key : pystr -> result spec_float)
  : result pystr :=
  match xs with
  | [] => Raise (ValueError (py "max() arg is an empty sequence"))
  | x :: xs' =>
      v <- key x ;;
      best <- for_each xs'
                (fun (b : pystr * spec_float) y =>
                   w <- key y ;;
                   Ok (if SFltb (snd b) w then (y, w) else b))
                (x, v) ;;
      Ok (fst best)
  end.

(** Embedding-based intent detection (the same three statements in both
    fallback branches of [interpret]). *)
Definition embedding_intent (self : QueryInterpreter) (query : pystr)
  : result (pystr * list pystr) :=
  let q_emb := encode self query in
  intent <- py_max (Dict.keys intent_templates)
              (fun k =>
                 t_emb <- subscript (template_embeddings self) k ;;
                 Ok (cos_sim self q_emb t_emb)) ;;
  template <- subscript intent_templates intent ;;
  Ok (intent, snd template).

(** The test of the fallback loop for one node name. *)
Definition entry_matches (node_name q_low : pystr) : bool :=
  let node_lower := lower node_name in
  contains node_lower q_low
  || contains (replace NB_HYPHEN HYPHEN node_lower) q_low
  || contains (replace HYPHEN NB_HYPHEN node_lower) q_low.

(** The spaCy pass of [_extract_entity]. *)
Definition spacy_pass (self : QueryInterpreter) (query : pystr) : option pystr :=
  match _nlp self with
  | Some nlp => find (nx.has_node (G (kg self))) (nlp query)
  | None => None
  end.

(** The string-matching pass of [_extract_entity]. *)
Definition fallback_pass (self : QueryInterpreter) (query : pystr) : option pystr :=
  let q_low := lower query in
  find (fun node_name => entry_matches node_name q_low)
       (nx.nodes (G (kg self))).

Definition _extract_entity (self : QueryInterpreter) (query : pystr)
  : option pystr :=
  match spacy_pass self query with
  | Some ent => Some ent
  | None => fallback_pass self query
  end.

Record Plan : Type := {
  start_entity : pystr;
  start_type : value;
  relation_chain : list pystr;
  target_type : pystr
}.

(** Step 2 of [interpret]: the intent and the relation chain, from the
    entity type and the query. *)
Definition classify (self : QueryInterpreter) (query : pystr)
    (entity_type : value) : result (pystr * list pystr) :=
  if eq_str entity_type (py "Gene") then
    Ok (py "gene_power", [py "CONFERS"])
  else if eq_str entity_type (py "Power") then
    Ok (py "power_character", [py "POSSESSES_POWER"])
  else if eq_str entity_type (py "Team") then
    Ok (py "team_character", [py "MEMBER_OF"])
  else if eq_str entity_type (py "Character") then
    let q_low := lower query in
    if existsb (fun word => contains word q_low)
         [py "gene"; py "mutation"; py "mutant"]
    then Ok (py "character_gene", [py "HAS_MUTATION"])
    else embedding_intent self query
  else embedding_intent self query.

Definition target_type_of (intent : pystr) : pystr :=
  if endswith intent (py "power") then py "Power"
  else if str_eqb intent (py "team") then py "Team"
  else if str_eqb intent (py "character_gene") then py "Gene"
  else if existsb (str_eqb intent) [py "power_character"; py "team_character"]
       then py "Character"
  else py "Unknown".

Definition interpret (self : QueryInterpreter) (query : pystr) : result Plan :=
  match _extract_entity self query with
  | None =>
      Raise (ValueError (py "No known entity found in query. Please clarify."))
  | Some start_entity =>
      entity_type <- node_type (kg self) start_entity ;;
      ic <- classify self query entity_type ;;
      Ok {| start_entity := start_entity;
            start_type := entity_type;
            relation_chain := snd ic;
            target_type := target_type_of (fst ic) |}
  end.

(* ------------------------------------------------------------------ *)
(** ** GraphExecutor *)
(* ------------------------------------------------------------------ *)

Record GraphExecutor : Type := { self_G : nx.MultiDiGraph }.

Definition GraphExecutor_init (kg : KnowledgeGraph) : GraphExecutor :=
  {| self_G := G kg |}.

(** [data.get("relation") == rel]. *)
Definition relation_is (data : attr_dict) (rel : pystr) : bool :=
  match Dict.get data (py "relation") with
  | Some v => eq_str v rel
  | None => false
  end.

(** One iteration of the outer loop of [execute]: the body of
    [for rel in plan["relation_chain"]], from the current [nodes] to the
    next.  The test on [entity_type] sits inside the loop over the working
    set, as in the source. *)
Definition hop (self : GraphExecutor) (entity_type : value)
    (nodes : list pystr) (rel : pystr) : result (list pystr) :=
  for_each nodes
    (fun nxt n =>
       if existsb (eq_str entity_type) [py "Power"; py "Team"] then
         edges <- nx.in_edges (self_G self) n ;;
         Ok (fold_left
               (fun nxt (e : nx.edge) =>
                  let '(src, tgt, data) := e in
                  if relation_is data rel then nxt ++ [src] else nxt)
               edges nxt)
       else
         edges <- nx.out_edges (self_G self) n ;;
         Ok (fold_left
               (fun nxt (e : nx.edge) =>
                  let '(_, tgt, data) := e in
                  if relation_is data rel then nxt ++ [tgt] else nxt)
               edges nxt))
    [].

(** [execute].  A plan coming without [start_type] reads as [""], that is
    [VStr []]. *)
Definition execute (self : GraphExecutor) (plan : Plan) : result (list pystr) :=
  let nodes := [start_entity plan] in
  let entity_type := start_type plan in
  for_each (relation_chain plan) (hop self entity_type) nodes.

(* ------------------------------------------------------------------ *)
(** ** Vocabulary of the specification *)
(* ------------------------------------------------------------------ *)

(** The consistency networkx keeps between its three dictionaries: every
    node has a successor entry, and every successor entry has a
    predecessor entry. *)
Definition graph_ok (g : nx.MultiDiGraph) : bool :=
  forallb (Dict.mem (nx._succ g)) (Dict.keys (nx._node g))
  && forallb (Dict.mem (nx._pred g)) (Dict.keys (nx._succ g)).

(** The parallel edges from [u] to [v], oldest first ([G[u][v]]). *)
Definition edge_data (g : nx.MultiDiGraph) (u v : pystr) : nx.keydict :=
  Dict.get_default (Dict.get_default (nx._succ g) u []) v [].

(** The attribute dictionaries of the source edges from [u] to [v], in
    the order in which the loader meets them. *)
Definition raw_edge_attrs (raw : nx.RawGraph) (u v : pystr) : list attr_dict :=
  map (fun e : nx.edge => snd e)
    (filter (fun e : nx.edge => str_eqb (fst (fst e)) u && str_eqb (snd (fst e)) v)
       (nx.edges_data raw)).

(** Relation resolution in the words of the specification: the candidate
    attribute names in priority order. *)
Definition candidate_names : list pystr :=
  [py "relation"; py "label"; py "type"; py "name"].

(** The first candidate that is present, whatever its value. *)
Fixpoint first_present (attrs : attr_dict) (names : list pystr) : option value :=
  match names with
  | [] => None
  | k :: names' =>
      match Dict.get attrs k with
      | Some v => Some v
      | None => first_present attrs names'
      end
  end.

(** The first candidate that is present with a truthy value. *)
Fixpoint first_truthy (attrs : attr_dict) (names : list pystr) : option value :=
  match names with
  | [] => None
  | k :: names' =>
      match Dict.get attrs k with
      | Some v => if truthy v then Some v else first_truthy attrs names'
      | None => first_truthy attrs names'
      end
  end.

Definition or_sentinel (o : option value) : value :=
  match o with Some v => v | None => VStr (py "RELATED_TO") end.

(** Traversal direction, chosen once per plan. *)
Inductive direction : Type := Incoming | Outgoing.

Definition direction_of (start_type : value) : direction :=
  if eq_str start_type (py "Power") || eq_str start_type (py "Team")
  then Incoming else Outgoing.

(** The neighbours one node contributes to a hop: sources of its matching
    incoming edges, or targets of its matching outgoing edges. *)
Definition neighbours (g : nx.MultiDiGraph) (d : direction) (rel n : pystr)
  : result (list pystr) :=
  match d with
  | Incoming =>
      edges <- nx.in_edges g n ;;
      Ok (map (fun e : nx.edge => fst (fst e))
            (filter (fun e : nx.edge => relation_is (snd e) rel) edges))
  | Outgoing =>
      edges <- nx.out_edges g n ;;
      Ok (map (fun e : nx.edge => snd (fst e))
            (filter (fun e : nx.edge => relation_is (snd e) rel) edges))
  end.

(** One breadth expansion in direction [d]. *)
Definition expand (g : nx.MultiDiGraph) (d : direction)
    (nodes : list pystr) (rel : pystr) : result (list pystr) :=
  per_node <- comprehension (neighbours g d rel) nodes ;;
  Ok (List.concat per_node).

(** The executor in the words of the specification. *)
Definition traverse (g : nx.MultiDiGraph) (plan : Plan) : result (list pystr) :=
  let d := direction_of (start_type plan) in
  for_each (relation_chain plan) (expand g d) [start_entity plan].

(** The executor continuing from a working set: the loop of [execute]
    run over [chain] from [nodes]. *)
Definition execute_from (self : GraphExecutor) (entity_type : value)
    (nodes : list pystr) (chain : list pystr) : result (list pystr) :=
  for_each chain (hop self entity_type) nodes.

(** Calls to the construction helpers. *)
Inductive helper_call : Type :=
| AddCharacter (name : pystr)
| AddTeam (name : pystr)
| AddGene (name : pystr)
| AddPower (name : pystr)
| AddRelationship (src dst rel : pystr).

Definition call (kg : KnowledgeGraph) (c : helper_call) : KnowledgeGraph :=
  match c with
  | AddCharacter n => add_character kg n
  | AddTeam n => add_team kg n
  | AddGene n => add_gene kg n
  | AddPower n => add_power kg n
  | AddRelationship s d r => add_relationship kg s d r
  end.

(** A graph assembled from the empty one by helper calls only. *)
Definition assemble (cs : list helper_call) : KnowledgeGraph :=
  fold_left call cs KnowledgeGraph_init.

(** A plan is well-formed when its start entity is a node and its chain
    is not empty. *)
Definition well_formed (g : nx.MultiDiGraph) (plan : Plan) : Prop :=
  nx.has_node g (start_entity plan) = true /\ relation_chain plan <> [].

Definition no_entity_error : exn :=
  ValueError (py "No known entity found in query. Please clarify.").

(** The value a node carries under the attribute key ["type"]. *)
Definition stored_type (kg : KnowledgeGraph) (name : pystr) : option value :=
  match Dict.get (nx._node (G kg)) name with
  | Some attrs => Dict.get attrs (py "type")
  | None => None
  end.

(** No node of the graph carries the attribute key ["label"]. *)
Definition unlabelled (g : nx.MultiDiGraph) : Prop :=
  forall n attrs, In (n, attrs) (nx._node g) -> Dict.get attrs (py "label") = None.

(* ------------------------------------------------------------------ *)
(** ** Vocabulary for graphs, edges and paths *)
(* ------------------------------------------------------------------ *)

(** The graphs networkx can reach from the empty one through the two
    mutators the program calls. *)
Inductive constructed : nx.MultiDiGraph -> Prop :=
| constructed_empty : constructed nx.empty
| constructed_add_node g n attr :
    constructed g -> constructed (nx.add_node g n attr)
| constructed_add_edge g u v attr :
    constructed g -> constructed (nx.add_edge g u v attr).

(** The parallel edges from [u] to [v] as the predecessor side records
    them ([G.pred[v][u]]). *)
Definition pred_data (g : nx.MultiDiGraph) (v u : pystr) : nx.keydict :=
  Dict.get_default (Dict.get_default (nx._pred g) v []) u [].

(** What the internal dictionaries of a graph satisfy, whatever series of
    [add_node] and [add_edge] calls produced it. *)
Record graph_inv (g : nx.MultiDiGraph) : Prop := {
  inv_ok : graph_ok g = true;
  inv_succ_node : forall n,
      Dict.mem (nx._succ g) n = true -> Dict.mem (nx._node g) n = true;
  inv_pred_succ : forall n,
      Dict.mem (nx._pred g) n = true -> Dict.mem (nx._succ g) n = true;
  inv_succ_uniq : forall u nbrs,
      Dict.get (nx._succ g) u = Some nbrs -> NoDup (Dict.keys nbrs);
  inv_pred_uniq : forall v nbrs,
      Dict.get (nx._pred g) v = Some nbrs -> NoDup (Dict.keys nbrs);
  inv_sync : forall u v, pred_data g v u = edge_data g u v;
  inv_succ_nbr : forall u v,
      In v (Dict.keys (Dict.get_default (nx._succ g) u [])) ->
      Dict.mem (nx._node g) v = true;
  inv_pred_nbr : forall u v,
      In u (Dict.keys (Dict.get_default (nx._pred g) v [])) ->
      Dict.mem (nx._node g) u = true
}.

(** The number of edges from [u] to [v] that carry the relation [rel]. *)
Definition edge_count (g : nx.MultiDiGraph) (u v rel : pystr) : nat :=
  List.length (filter (fun data => relation_is data rel) (edge_data g u v)).

(** The number of edges between [n] and [m] that a hop in direction [d]
    follows from [n] to [m]. *)
Definition hop_count (g : nx.MultiDiGraph) (d : direction) (rel n m : pystr)
  : nat :=
  match d with
  | Outgoing => edge_count g n m rel
  | Incoming => edge_count g m n rel
  end.

(** [m] is reached from [n] by following [chain], relation by relation,
    along edges taken in direction [d]. *)
Fixpoint reaches (g : nx.MultiDiGraph) (d : direction) (n : pystr)
    (chain : list pystr) (m : pystr) : Prop :=
  match chain with
  | [] => n = m
  | rel :: rest =>
      exists mid, 0 < hop_count g d rel n mid /\ reaches g d mid rest m
  end.

(** The end of [add_edge], once both endpoints are nodes. *)
Definition link (g1 : nx.MultiDiGraph) (u v : pystr) (attr : attr_dict)
  : nx.MultiDiGraph :=
  let nbrs := Dict.get_default (nx._succ g1) u [] in
  let kd :=
    match Dict.get nbrs v with
    | Some kd0 => kd0 ++ [Dict.update [] attr]
    | None => [Dict.update [] attr]
    end in
  {| nx._node := nx._node g1;
     nx._succ := Dict.set (nx._succ g1) u (Dict.set nbrs v kd);
     nx._pred := Dict.set (nx._pred g1) v
                   (Dict.set (Dict.get_default (nx._pred g1) v []) u kd) |}.

(** The names one node contributes to a hop, read off its neighbour
    dictionary. *)
Definition matching (nbrs : Dict.dict nx.keydict) (rel : pystr) : list pystr :=
  flat_map
    (fun nk : pystr * nx.keydict =>
       map (fun _ : attr_dict => fst nk)
         (filter (fun data => relation_is data rel) (snd nk)))
    nbrs.

Definition pystr_eq_dec : forall a b : pystr, {a = b} + {a <> b} :=
  list_eq_dec N.eq_dec.

(** How many times [m] occurs in a list of names. *)
Definition occurrences (names : list pystr) (m : pystr) : nat :=
  count_occ pystr_eq_dec names m.

(** The neighbour dictionary a hop in direction [d] reads for [n]. *)
Definition neighbour_dict (g : nx.MultiDiGraph) (d : direction) (n : pystr)
  : Dict.dict nx.keydict :=
  match d with
  | Outgoing => Dict.get_default (nx._succ g) n []
  | Incoming => Dict.get_default (nx._pred g) n []
  end.

(* ------------------------------------------------------------------ *)
(** ** Command line entry point and API query function *)
(* ------------------------------------------------------------------ *)

(** An exception on its way out of [main]: one the module raises itself,
    the [TypeError] of a call that is given an argument twice, or
    whatever a library or [input] raised, given by its text. *)
Inductive uncaught : Type :=
| Own (e : exn)
| TypeError
| Outside (what : pystr).

(** The outcome of a step that may raise. *)
Inductive attempt (A : Type) : Type :=
| Gives (a : A)
| Throws (e : uncaught).

Arguments Gives {A} a.
Arguments Throws {A} e.

(** The sentence-embedding model, once loaded. *)
Record Model : Type := {
  model_encode : pystr -> embedding;
  model_cos_sim : embedding -> embedding -> spec_float
}.

(** [QueryInterpreter(kg)].  Loading the model and, when spaCy is
    installed, building the entity ruler over the nodes of [kg] are done
    by libraries and may raise, in this order; the encoding of the
    template descriptions is taken to return, as every call of
    [encode]. *)
Definition QueryInterpreter_init (kg0 : KnowledgeGraph)
    (model : attempt Model)
    (ruler : option (KnowledgeGraph -> attempt (pystr -> list pystr)))
  : attempt QueryInterpreter :=
  match model with
  | Throws e => Throws e
  | Gives m =>
      match ruler with
      | None =>
          Gives {| kg := kg0;
                   encode := model_encode m;
                   cos_sim := model_cos_sim m;
                   _nlp := None |}
      | Some build =>
          match build kg0 with
          | Throws e => Throws e
          | Gives nlp =>
              Gives {| kg := kg0;
                       encode := model_encode m;
                       cos_sim := model_cos_sim m;
                       _nlp := Some nlp |}
          end
      end
  end.

(** [sep.join(parts)]. *)
Fixpoint join (sep : pystr) (parts : list pystr) : pystr :=
  match parts with
  | [] => []
  | [p] => p
  | p :: rest => p ++ sep ++ join sep rest
  end.

Module Cli.

(** What [main] meets: what [nx.read_graphml] does with the configured
    file, what loading the embedding model does, what building the spaCy
    ruler does ([None]: spaCy is not installed), the command line, and
    what [input] does at the prompt.  Writing to the standard output is
    taken to succeed. *)
Record World : Type := {
  graphml : attempt nx.RawGraph;
  model : attempt Model;
  spacy_ruler : option (KnowledgeGraph -> attempt (pystr -> list pystr));
  argv : list pystr;
  typed_line : attempt pystr
}.

(** The calls to [print], and the prompt of [input]. *)
Inductive printed : Type :=
| Prompt
| PrintError (err : exn)
| PrintQuery (query : pystr)
| PrintPlan (plan : Plan)
| PrintResult (result : list pystr).

(** How the process ends: [main] returns, [sys.exit(code)] is called, or
    an exception escapes. *)
Inductive ending : Type :=
| Returns
| SysExit (code : Z)
| Escapes (e : uncaught).

(** [kg.G.add_node(node_id, **attrs)] hands the attributes of a source
    node over as keyword arguments.  An attribute named like a parameter
    of [add_node(self, node_for_adding, **attr)] gives that parameter a
    second value, and the call raises [TypeError]. *)
Definition keyword_clash (raw : nx.RawGraph) : bool :=
  existsb
    (fun na : pystr * attr_dict =>
       Dict.mem (snd na) (py "self")
       || Dict.mem (snd na) (py "node_for_adding"))
    (nx.nodes_data raw).

(** [KnowledgeGraph.from_graphml(config.GRAPHML)], with the ways it has
    of raising: reading the file, and copying a node whose attributes
    clash. *)
Definition load (w : World) : attempt KnowledgeGraph :=
  match graphml w with
  | Throws e => Throws e
  | Gives raw =>
      if keyword_clash raw then Throws TypeError
      else Gives (from_graphml raw)
  end.

(** The question: the command-line words joined by spaces, or the line
    typed at the prompt. *)
Definition ask (w : World) : list printed * attempt pystr :=
  if Nat.ltb 1 (List.length (argv w))
  then ([], Gives (join (py " ") (tl (argv w))))
  else ([Prompt], typed_line w).

(** [main].  Only the calls of [interpret] and [execute] are inside the
    [try], and only [ValueError] is caught. *)
Definition main (w : World) : list printed * ending :=
  match load w with
  | Throws e => ([], Escapes e)
  | Gives kg =>
      match QueryInterpreter_init kg (model w) (spacy_ruler w) with
      | Throws e => ([], Escapes e)
      | Gives interpreter =>
          let executor := GraphExecutor_init kg in
          match ask w with
          | (asked, Throws e) => (asked, Escapes e)
          | (asked, Gives query) =>
              match (plan <- interpret interpreter query ;;
                     result <- execute executor plan ;;
                     Ok (plan, result)) with
              | Raise (ValueError msg) =>
                  (asked ++ [PrintError (ValueError msg)], SysExit 1)
              | Raise err => (asked, Escapes (Own err))
              | Ok (plan, result) =>
                  (asked ++ [PrintQuery query; PrintPlan plan;
                             PrintResult result], Returns)
              end
          end
      end
  end.

End Cli.

Module Api.

(** Conversions to text done by the interpreter: [repr] of a string and
    [str] of a number or truth value. *)
Record Builtins : Type := {
  repr_str : pystr -> pystr;
  str_number : value -> pystr
}.

(** [str(v)], as an f-string formats it. *)
Definition str_value (b : Builtins) (v : value) : pystr :=
  match v with
  | VStr s => s
  | _ => str_number b v
  end.

(** [str(e)]: the message of a [ValueError]; the [repr] of the key of a
    [KeyError]. *)
Definition str_exn (b : Builtins) (e : exn) : pystr :=
  match e with
  | ValueError msg => msg
  | KeyError key => repr_str b key
  end.

(** The dictionary [query_knowledge_graph] returns; the empty plan [{}]
    of a failure is [None]. *)
Record Facts : Type := {
  success : bool;
  error : option pystr;
  plan : option Plan;
  results : list pystr;
  query_type : pystr
}.

(** U+2192, the arrow of the query type. *)
Definition ARROW : codepoint := 8594%N.

Definition query_knowledge_graph (b : Builtins)
    (interpreter : QueryInterpreter) (executor : GraphExecutor)
    (question : pystr) : Facts :=
  match (plan <- interpret interpreter question ;;
         results <- execute executor plan ;;
         Ok (plan, results)) with
  | Ok (plan, results) =>
      {| success := true;
         error := None;
         plan := Some plan;
         results := results;
         query_type := str_value b (start_type plan)
                       ++ (py " " ++ [ARROW] ++ py " ")
                       ++ target_type plan |}
  | Raise e =>
      {| success := false;
         error := Some (str_exn b e);
         plan := None;
         results := [];
         query_type := py "Unknown" |}
  end.

End Api.

(* ------------------------------------------------------------------ *)
(** ** Graph statistics endpoint *)
(* ------------------------------------------------------------------ *)

Module Stats.

(** Numbers as [==] compares them across [int], [float] and [bool]:
    exactly, a finite one being [m * 2^e]. *)
Inductive number : Type :=
| Finite (m e : Z)
| Infinite (negative : bool)
| NotANumber.

Definition number_of (v : value) : option number :=
  match v with
  | VStr _ => None
  | VInt z => Some (Finite z 0)
  | VBool b => Some (Finite (if b then 1 else 0) 0)
  | VFloat (S754_zero _) => Some (Finite 0 0)
  | VFloat (S754_infinity s) => Some (Infinite s)
  | VFloat S754_nan => Some NotANumber
  | VFloat (S754_finite s m e) =>
      Some (Finite (if s then Z.neg m else Z.pos m) e)
  end.

Definition number_eqb (a b : number) : bool :=
  match a, b with
  | Finite m1 e1, Finite m2 e2 =>
      if (e1 <=? e2)%Z then (m1 =? m2 * 2 ^ (e2 - e1))%Z
      else (m1 * 2 ^ (e1 - e2) =? m2)%Z
  | Infinite s1, Infinite s2 => Bool.eqb s1 s2
  | _, _ => false
  end.

(** [a == b] between two attribute values, which is also how a
    dictionary tells its keys apart. *)
Definition py_eq (a b : value) : bool :=
  match a, b with
  | VStr s, VStr t => str_eqb s t
  | _, _ =>
      match number_of a, number_of b with
      | Some x, Some y => number_eqb x y
      | _, _ => false
      end
  end.

(** A dictionary from attribute values to counts. *)
Definition tally := list (value * Z).

Fixpoint tally_get (d : tally) (k : value) : option Z :=
  match d with
  | [] => None
  | (k', c) :: d' => if py_eq k' k then Some c else tally_get d' k
  end.

Fixpoint tally_set (d : tally) (k : value) (c : Z) : tally :=
  match d with
  | [] => [(k, c)]
  | (k', c') :: d' =>
      if py_eq k' k then (k', c) :: d' else (k', c') :: tally_set d' k c
  end.

(** [d.get(k, 0)]. *)
Definition tally_count (d : tally) (k : value) : Z :=
  match tally_get d k with Some c => c | None => 0%Z end.

(** [d[k] = d.get(k, 0) + 1]. *)
Definition count_one (d : tally) (k : value) : tally :=
  tally_set d k (tally_count d k + 1)%Z.

(** [G.edges(data=True)]: every edge, node by node, neighbour by
    neighbour, key by key. *)
Definition all_edges (g : nx.MultiDiGraph) : list nx.edge :=
  flat_map
    (fun un : pystr * Dict.dict nx.keydict =>
       flat_map
         (fun vk : pystr * nx.keydict =>
            map (fun dd => (fst un, fst vk, dd)) (snd vk))
         (snd un))
    (nx._succ g).

(** [len(G.edges)]: the sizes of the key dictionaries, summed. *)
Definition number_of_edges (g : nx.MultiDiGraph) : Z :=
  fold_right Z.add 0%Z
    (flat_map
       (fun un : pystr * Dict.dict nx.keydict =>
          map (fun vk : pystr * nx.keydict => Z.of_nat (List.length (snd vk)))
              (snd un))
       (nx._succ g)).

Record Report : Type := {
  total_nodes : Z;
  total_edges : Z;
  node_types : tally;
  edge_types : tally
}.

Definition graph_stats (kg : KnowledgeGraph) : Report :=
  let node_types :=
    fold_left
      (fun (node_types : tally) (na : pystr * attr_dict) =>
         let node_type :=
           Dict.get_default (snd na) (py "label") (VStr (py "Unknown")) in
         count_one node_types node_type)
      (nx._node (G kg)) [] in
  let edge_types :=
    fold_left
      (fun (edge_types : tally) (e : nx.edge) =>
         let edge_type :=
           Dict.get_default (snd e) (py "relation") (VStr (py "Unknown")) in
         count_one edge_types edge_type)
      (all_edges (G kg)) [] in
  {| total_nodes := Z.of_nat (List.length (nx._node (G kg)));
     total_edges := number_of_edges (G kg);
     node_types := node_types;
     edge_types := edge_types |}.

(** The counts of a tally, summed. *)
Definition tally_total (d : tally) : Z :=
  fold_right Z.add 0%Z (map snd d).

End Stats.

(* ------------------------------------------------------------------ *)
(** ** Dataset generator ([src/generate_data.py]) *)
(* ------------------------------------------------------------------ *)

Module Generator.

(** An entry of [CHARACTERS]. *)
Record Hero : Type := {
  name : pystr;
  team : pystr;
  gene : pystr;
  powers : list pystr;
  snippet : pystr
}.

(** What the script can raise: a missing key, or [next] on an exhausted
    generator. *)
Inductive raised : Type :=
| MissingKey (key : pystr)
| StopIteration.

Inductive outcome (A : Type) : Type :=
| Done (a : A)
| Fails (e : raised).

Arguments Done {A} a.
Arguments Fails {A} e.

Definition and_then {A B} (o : outcome A) (k : A -> outcome B) : outcome B :=
  match o with
  | Done a => k a
  | Fails e => Fails e
  end.

Notation "x <~ e ;; k" := (and_then e (fun x => k))
  (at level 61, e at next level, right associativity).

Fixpoint loop {A S} (xs : list A) (body : S -> A -> outcome S) (s : S)
  : outcome S :=
  match xs with
  | [] => Done s
  | x :: xs' => s' <~ body s x ;; loop xs' body s'
  end.

(** [enumerate(xs, start)]. *)
Fixpoint enumerate {A} (start : Z) (xs : list A) : list (Z * A) :=
  match xs with
  | [] => []
  | x :: xs' => (start, x) :: enumerate (start + 1) xs'
  end.

(** An id counter: a dictionary from names to ids. *)
Definition counter := Dict.dict Z.

(** [counter.setdefault(key, default)], for its effect on [counter]. *)
Definition setdefault (c : counter) (key : pystr) (default : Z) : counter :=
  if Dict.mem c key then c else Dict.set c key default.

(** [next_id]: the counter afterwards and the id returned. *)
Definition next_id (c : counter) (key : pystr) : outcome (counter * Z) :=
  let c' := setdefault c key (Z.of_nat (List.length c) + 1) in
  match Dict.get c' key with
  | Some id => Done (c', id)
  | None => Fails (MissingKey key)
  end.

(** The rows of an entity table are [(id, name)]; those of a link table
    are the two ids. *)
Record Tables : Type := {
  team_ids : counter;
  gene_ids : counter;
  power_ids : counter;
  characters : list (Z * pystr);
  teams : list (Z * pystr);
  genes : list (Z * pystr);
  powers_rows : list (Z * pystr);
  char_team : list (Z * Z);
  char_gene : list (Z * Z);
  gene_power : list (Z * Z);
  char_power : list (Z * Z);
  snippets : list (pystr * pystr)
}.

Definition no_tables : Tables :=
  {| team_ids := []; gene_ids := []; power_ids := [];
     characters := []; teams := []; genes := []; powers_rows := [];
     char_team := []; char_gene := []; gene_power := []; char_power := [];
     snippets := [] |}.

(** [if id == len(table) + 1: table.append(row)]. *)
Definition append_if_new (table : list (Z * pystr)) (id : Z) (nm : pystr)
  : list (Z * pystr) :=
  if Z.eqb id (Z.of_nat (List.length table) + 1) then table ++ [(id, nm)]
  else table.

(** One iteration of the inner loop [for power in hero["powers"]]. *)
Definition add_power (cid gid : Z) (st : Tables) (power : pystr)
  : outcome Tables :=
  r <~ next_id (power_ids st) power ;;
  let pid := snd r in
  Done {| team_ids := team_ids st;
          gene_ids := gene_ids st;
          power_ids := fst r;
          characters := characters st;
          teams := teams st;
          genes := genes st;
          powers_rows := append_if_new (powers_rows st) pid power;
          char_team := char_team st;
          char_gene := char_gene st;
          gene_power := gene_power st ++ [(gid, pid)];
          char_power := char_power st ++ [(cid, pid)];
          snippets := snippets st |}.

(** One iteration of [for cid, hero in enumerate(CHARACTERS, start=1)]. *)
Definition add_hero (st : Tables) (ch : Z * Hero) : outcome Tables :=
  let cid := fst ch in
  let hero := snd ch in
  rt <~ next_id (team_ids st) (team hero) ;;
  let tid := snd rt in
  rg <~ next_id (gene_ids st) (gene hero) ;;
  let gid := snd rg in
  let st1 :=
    {| team_ids := fst rt;
       gene_ids := fst rg;
       power_ids := power_ids st;
       characters := characters st ++ [(cid, name hero)];
       teams := append_if_new (teams st) tid (team hero);
       genes := append_if_new (genes st) gid (gene hero);
       powers_rows := powers_rows st;
       char_team := char_team st ++ [(cid, tid)];
       char_gene := char_gene st ++ [(cid, gid)];
       gene_power := gene_power st;
       char_power := char_power st;
       snippets := snippets st |} in
  st2 <~ loop (powers hero) (add_power cid gid) st1 ;;
  Done {| team_ids := team_ids st2;
          gene_ids := gene_ids st2;
          power_ids := power_ids st2;
          characters := characters st2;
          teams := teams st2;
          genes := genes st2;
          powers_rows := powers_rows st2;
          char_team := char_team st2;
          char_gene := char_gene st2;
          gene_power := gene_power st2;
          char_power := char_power st2;
          snippets := snippets st2 ++ [(name hero, snippet hero)] |}.

(** Section 2 of the script, run over [CHARACTERS]. *)
Definition assign_ids (CHARACTERS : list Hero) : outcome Tables :=
  loop (enumerate 1 CHARACTERS) add_hero no_tables.

(** [next(row["name"] for row in table if row[id] == wanted)]. *)
Definition name_of_id (table : list (Z * pystr)) (wanted : Z) : outcome pystr :=
  match find (fun row : Z * pystr => Z.eqb (fst row) wanted) table with
  | Some row => Done (snd row)
  | None => Fails StopIteration
  end.

Definition entity_node (kind : pystr) (g : nx.MultiDiGraph) (row : Z * pystr)
  : nx.MultiDiGraph :=
  nx.add_node g (snd row)
    [(py "label", VStr kind); (py "name", VStr (snd row))].

(** One of the four edge loops: both ids of a link row are turned back
    into names, and an edge with the attribute [type] joins them. *)
Definition link_rows (left right : list (Z * pystr)) (relation : pystr)
    (rows : list (Z * Z)) (g : nx.MultiDiGraph) : outcome nx.MultiDiGraph :=
  loop rows
    (fun g (r : Z * Z) =>
       left_name <~ name_of_id left (fst r) ;;
       right_name <~ name_of_id right (snd r) ;;
       Done (nx.add_edge g left_name right_name
               [(py "type", VStr relation)]))
    g.

(** Section 4 of the script: the graph that is written to GraphML. *)
Definition build_graph (rows : Tables) : outcome nx.MultiDiGraph :=
  let g0 := nx.empty in
  let g1 := fold_left (entity_node (py "Character")) (characters rows) g0 in
  let g2 := fold_left (entity_node (py "Team")) (teams rows) g1 in
  let g3 := fold_left (entity_node (py "Gene")) (genes rows) g2 in
  let g4 := fold_left (entity_node (py "Power")) (powers_rows rows) g3 in
  g5 <~ link_rows (characters rows) (teams rows) (py "MEMBER_OF")
          (char_team rows) g4 ;;
  g6 <~ link_rows (characters rows) (genes rows) (py "HAS_MUTATION")
          (char_gene rows) g5 ;;
  g7 <~ link_rows (genes rows) (powers_rows rows) (py "CONFERS")
          (gene_power rows) g6 ;;
  link_rows (characters rows) (powers_rows rows) (py "POSSESSES_POWER")
    (char_power rows) g7.

(** *** What the tables and the graph should be *)

(** The names of a sequence, first occurrences only, numbered from 1. *)
Definition numbered (names : list pystr) : list (Z * pystr) :=
  enumerate 1 (nx.fromkeys names).

Definition as_counter (table : list (Z * pystr)) : counter :=
  map (fun row : Z * pystr => (snd row, fst row)) table.

(** The id of a name in a counter ([0] when it has none). *)
Definition id_in (c : counter) (nm : pystr) : Z := Dict.get_default c nm 0%Z.

Definition all_powers (heroes : list Hero) : list pystr :=
  flat_map powers heroes.

Definition tables_of (heroes : list Hero) : Tables :=
  let t := as_counter (numbered (map team heroes)) in
  let g := as_counter (numbered (map gene heroes)) in
  let p := as_counter (numbered (all_powers heroes)) in
  {| team_ids := t;
     gene_ids := g;
     power_ids := p;
     characters :=
       map (fun ch : Z * Hero => (fst ch, name (snd ch))) (enumerate 1 heroes);
     teams := numbered (map team heroes);
     genes := numbered (map gene heroes);
     powers_rows := numbered (all_powers heroes);
     char_team :=
       map (fun ch : Z * Hero => (fst ch, id_in t (team (snd ch))))
         (enumerate 1 heroes);
     char_gene :=
       map (fun ch : Z * Hero => (fst ch, id_in g (gene (snd ch))))
         (enumerate 1 heroes);
     gene_power :=
       flat_map
         (fun ch : Z * Hero =>
            map (fun pw => (id_in g (gene (snd ch)), id_in p pw))
              (powers (snd ch)))
         (enumerate 1 heroes);
     char_power :=
       flat_map
         (fun ch : Z * Hero =>
            map (fun pw => (fst ch, id_in p pw)) (powers (snd ch)))
         (enumerate 1 heroes);
     snippets := map (fun h => (name h, snippet h)) heroes |}.

(** The graph built from the names directly, without ids. *)
Definition typed_edge (relation : pystr) (g : nx.MultiDiGraph)
    (ends : pystr * pystr) : nx.MultiDiGraph :=
  nx.add_edge g (fst ends) (snd ends) [(py "type", VStr relation)].

Definition named_node (kind : pystr) (g : nx.MultiDiGraph) (nm : pystr)
  : nx.MultiDiGraph :=
  nx.add_node g nm [(py "label", VStr kind); (py "name", VStr nm)].

Definition graph_of (heroes : list Hero) : nx.MultiDiGraph :=
  let g1 := fold_left (named_node (py "Character")) (map name heroes) nx.empty in
  let g2 := fold_left (named_node (py "Team")) (nx.fromkeys (map team heroes)) g1 in
  let g3 := fold_left (named_node (py "Gene")) (nx.fromkeys (map gene heroes)) g2 in
  let g4 := fold_left (named_node (py "Power")) (nx.fromkeys (all_powers heroes)) g3 in
  let g5 := fold_left (typed_edge (py "MEMBER_OF"))
              (map (fun h => (name h, team h)) heroes) g4 in
  let g6 := fold_left (typed_edge (py "HAS_MUTATION"))
              (map (fun h => (name h, gene h)) heroes) g5 in
  let g7 := fold_left (typed_edge (py "CONFERS"))
              (flat_map (fun h => map (fun pw => (gene h, pw)) (powers h)) heroes)
              g6 in
  fold_left (typed_edge (py "POSSESSES_POWER"))
    (flat_map (fun h => map (fun pw => (name h, pw)) (powers h)) heroes) g7.

(** The first entries of [CHARACTERS]. *)
Definition wolverine : Hero :=
  {| name := py "Wolverine";
     team := py "X" ++ [NB_HYPHEN] ++ py "Men";
     gene := py "Regenerative Mutation";
     powers := [py "Accelerated Healing"; py "Enhanced Senses"];
     snippet := py "Born as James Howlett" |}.

Definition cyclops : Hero :=
  {| name := py "Cyclops";
     team := py "X" ++ [NB_HYPHEN] ++ py "Men";
     gene := py "Optic" ++ [NB_HYPHEN] ++ py "Blast";
     powers := [py "Optic Blasts"];
     snippet := py "Scott Summers" |}.

End Generator.

(* ------------------------------------------------------------------ *)
(** ** Sample graphs and interpreters *)
(* ------------------------------------------------------------------ *)

Module Samples.

(** One labelled node, as the loader would create it. *)
Definition kg_wolverine : KnowledgeGraph :=
  {| G := nx.add_node nx.empty (py "Wolverine")
            [(py "label", VStr (py "Character")); (py "name", VStr (py "Wolverine"))] |}.

(** A small graph assembled with the helpers. *)
Definition helper_calls : list helper_call :=
  [ AddCharacter (py "Wolverine");
    AddGene (py "Regenerative Mutation");
    AddPower (py "Accelerated Healing");
    AddTeam (py "X-Men");
    AddRelationship (py "Wolverine") (py "Regenerative Mutation") (py "HAS_MUTATION");
    AddRelationship (py "Regenerative Mutation") (py "Accelerated Healing") (py "CONFERS");
    AddRelationship (py "Wolverine") (py "Accelerated Healing") (py "POSSESSES_POWER");
    AddRelationship (py "Wolverine") (py "X-Men") (py "MEMBER_OF") ].

End Samples.

Module Scenarios.

(** [Character X —POSSESSES_POWER→ Power Y], nodes labelled as the loader
    labels them. *)
Definition possesses (X Y : pystr) : KnowledgeGraph :=
  add_relationship
    {| G := nx.add_node
              (nx.add_node nx.empty X [(py "label", VStr (py "Character"))])
              Y [(py "label", VStr (py "Power"))] |}
    X Y (py "POSSESSES_POWER").

(** [Character W —HAS_MUTATION→ Gene G —CONFERS→ Power P]. *)
Definition mutation_chain (W Gn P : pystr) : KnowledgeGraph :=
  add_relationship
    (add_relationship
       {| G := nx.add_node
                 (nx.add_node
                    (nx.add_node nx.empty W [(py "label", VStr (py "Character"))])
                    Gn [(py "label", VStr (py "Gene"))])
                 P [(py "label", VStr (py "Power"))] |}
       W Gn (py "HAS_MUTATION"))
    Gn P (py "CONFERS").

End Scenarios.

Module PlanSamples.

(** A well-formed plan on [Scenarios.possesses "X" "Y"] whose first hop
    matches no edge. *)
Definition no_team_plan : Plan :=
  {| start_entity := py "X";
     start_type := VStr (py "Character");
     relation_chain := [py "MEMBER_OF"; py "POSSESSES_POWER"];
     target_type := py "Team" |}.

Definition xy_executor : GraphExecutor :=
  GraphExecutor_init (Scenarios.possesses (py "X") (py "Y")).

End PlanSamples.

(** Two interpreters over the same graph and the same recognizer, whose
    embedding models may differ. *)
Definition same_but_model (a b : QueryInterpreter) : Prop :=
  kg a = kg b /\ _nlp a = _nlp b.

Module InterpreterSamples.

(** A model that scores every template alike. *)
Definition flat_model_on (k : KnowledgeGraph) : QueryInterpreter :=
  {| kg := k;
     encode := fun _ => [];
     cos_sim := fun _ _ => S754_zero false;
     _nlp := None |}.

(** The four kinds, labelled as the loader labels them. *)
Definition typed_kg : KnowledgeGraph :=
  {| G := nx.add_node
            (nx.add_node
               (nx.add_node
                  (nx.add_node nx.empty (py "Wolverine")
                     [(py "label", VStr (py "Character"))])
                  (py "Regenerative Mutation") [(py "label", VStr (py "Gene"))])
               (py "Accelerated Healing") [(py "label", VStr (py "Power"))])
            (py "X-Men") [(py "label", VStr (py "Team"))] |}.

Definition typed_interpreter : QueryInterpreter := flat_model_on typed_kg.

End InterpreterSamples.

Module DashSamples.

Definition spider_kg : KnowledgeGraph :=
  {| G := nx.add_node
            (nx.add_node nx.empty (py "Iron Man")
               [(py "label", VStr (py "Character"))])
            (py "Spider-Man") [(py "label", VStr (py "Character"))] |}.

Definition spider_interpreter : QueryInterpreter :=
  InterpreterSamples.flat_model_on spider_kg.

(** "SPIDER‑MAN", upper case, written with U+2011. *)
Definition typographic_upper : pystr :=
  py "SPIDER" ++ [NB_HYPHEN] ++ py "MAN".

Definition typographic_question : pystr :=
  py "What powers does " ++ typographic_upper ++ py " have?".

(** Two nodes, the name of the first a part of the name of the second. *)
Definition shadowed_kg : KnowledgeGraph :=
  {| G := nx.add_node
            (nx.add_node nx.empty (py "Spider")
               [(py "label", VStr (py "Character"))])
            (py "Spider-Man") [(py "label", VStr (py "Character"))] |}.

Definition shadowed_interpreter : QueryInterpreter :=
  InterpreterSamples.flat_model_on shadowed_kg.

Definition shadowed_question : pystr :=
  py "What powers does Spider-Man have?".

(** "Team-ΑΣ": the name ends in U+0391 GREEK CAPITAL LETTER ALPHA and
    U+03A3 GREEK CAPITAL LETTER SIGMA. *)
Definition sigma_name : pystr := py "Team-" ++ [913; CAPITAL_SIGMA]%N.

Definition sigma_kg : KnowledgeGraph :=
  {| G := nx.add_node nx.empty sigma_name [(py "label", VStr (py "Team"))] |}.

Definition sigma_interpreter : QueryInterpreter :=
  InterpreterSamples.flat_model_on sigma_kg.

Definition sigma_question : pystr :=
  py "Who is in " ++ sigma_name ++ py "'s roster?".

End DashSamples.

Module LoaderSamples.

(** A directed source graph with one edge [A -> B] whose only attribute
    is the integer [0] under the name "type". *)
Definition zero_type_attrs : attr_dict := [(py "type", VInt 0)].

Definition zero_type_raw : nx.RawGraph :=
  {| nx.raw_directed := true;
     nx.raw_node := [(py "A", []); (py "B", [])];
     nx.raw_adj := [(py "A", [(py "B", [zero_type_attrs])]); (py "B", [])] |}.

(** An undirected source graph whose relation is stored under "type",
    the attribute name the data generator uses; the edge is recorded
    under both endpoints. *)
Definition member_attrs : attr_dict := [(py "type", VStr (py "MEMBER_OF"))].

Definition member_raw : nx.RawGraph :=
  {| nx.raw_directed := false;
     nx.raw_node :=
       [(py "Wolverine", [(py "label", VStr (py "Character"))]);
        (py "X-Men", [(py "label", VStr (py "Team"))])];
     nx.raw_adj :=
       [(py "Wolverine", [(py "X-Men", [member_attrs])]);
        (py "X-Men", [(py "Wolverine", [member_attrs])])] |}.

End LoaderSamples.

(** No key occurs twice: what every Python dictionary satisfies. *)
Fixpoint uniqb (ks : list pystr) : bool :=
  match ks with
  | [] => true
  | k :: ks' => negb (existsb (str_eqb k) ks') && uniqb ks'
  end.

(** A source graph as networkx can hold it: its node dictionary and the
    attribute dictionaries are dictionaries, and every edge joins two of
    its nodes. *)
Definition raw_ok (raw : nx.RawGraph) : bool :=
  uniqb (Dict.keys (nx.raw_node raw))
  && forallb (fun na : pystr * attr_dict => uniqb (Dict.keys (snd na)))
       (nx.raw_node raw)
  && forallb
       (fun e : nx.edge =>
          Dict.mem (nx.raw_node raw) (fst (fst e))
          && Dict.mem (nx.raw_node raw) (snd (fst e)))
       (nx.edges_data raw).

Module TraversalSamples.

(** The helper-built sample graph, with a second, parallel membership
    edge. *)
Definition doubled : KnowledgeGraph :=
  assemble
    (Samples.helper_calls
       ++ [AddRelationship (py "Wolverine") (py "X-Men") (py "MEMBER_OF")]).

Definition mutation_plan : Plan :=
  {| start_entity := py "Wolverine";
     start_type := VStr (py "Unknown");
     relation_chain := [py "HAS_MUTATION"; py "CONFERS"];
     target_type := py "Power" |}.

Definition member_plan : Plan :=
  {| start_entity := py "Wolverine";
     start_type := VStr (py "Unknown");
     relation_chain := [py "MEMBER_OF"];
     target_type := py "Team" |}.

End TraversalSamples.

(** The relation chain and target type of every plan [interpret] can
    build: the five catalogue intents and the two reverse lookups. *)
Definition plan_shapes : list (list pystr * pystr) :=
  [ ([py "POSSESSES_POWER"], py "Power");
    ([py "HAS_MUTATION"; py "CONFERS"], py "Power");
    ([py "MEMBER_OF"], py "Team");
    ([py "CONFERS"], py "Power");
    ([py "HAS_MUTATION"], py "Gene");
    ([py "POSSESSES_POWER"], py "Character");
    ([py "MEMBER_OF"], py "Character") ].

Definition relation_vocabulary : list pystr :=
  [py "POSSESSES_POWER"; py "HAS_MUTATION"; py "CONFERS"; py "MEMBER_OF"].

(** The similarity of a query to the description of a template. *)
Definition template_score (self : QueryInterpreter) (query description : pystr)
  : spec_float :=
  cos_sim self (encode self query) (encode self description).

Module FallbackSamples.

(** A graph built with the helpers has no labels, so every question about
    it goes through the embedding-based detection. *)
Definition helper_interpreter : QueryInterpreter :=
  InterpreterSamples.flat_model_on (assemble Samples.helper_calls).

(** A graph with a node whose name is the empty string. *)
Definition nameless_interpreter : QueryInterpreter :=
  InterpreterSamples.flat_model_on
    {| G := nx.add_node (G InterpreterSamples.typed_kg) []
              [(py "label", VStr (py "Team"))] |}.

End FallbackSamples.

Module CliSamples.

(** A run with the question on the command line, over the membership
    graph, with a model that scores every template alike and without
    spaCy. *)
Definition flat_model : Model :=
  {| model_encode := fun _ => [];
     model_cos_sim := fun _ _ => S754_zero false |}.

Definition team_question : Cli.World :=
  {| Cli.graphml := Gives LoaderSamples.member_raw;
     Cli.model := Gives flat_model;
     Cli.spacy_ruler := None;
     Cli.argv := [py "kg_query_engin.py"; py "Who"; py "is"; py "in";
                  py "X-Men?"];
     Cli.typed_line := Throws (Outside (py "EOFError")) |}.

End CliSamples.

(** The graph [nx.read_graphml] returns for the file that
    [nx.write_graphml] wrote from [g]: directed, with the nodes, the
    edges and the string attributes of [g], in the order of [g].  The
    file format itself is outside the embedding; this is the round trip
    the two scripts rely on. *)
Definition read_back (g : nx.MultiDiGraph) : nx.RawGraph :=
  {| nx.raw_directed := true;
     nx.raw_node := nx._node g;
     nx.raw_adj := nx._succ g |}.

(** A plan, from its start node, the type of the start node, the
    relation chain and the target type. *)
Definition plan_for (start kind : pystr) (chain : list pystr)
    (target : pystr) : Plan :=
  {| start_entity := start;
     start_type := VStr kind;
     relation_chain := chain;
     target_type := target |}.

(* ------------------------------------------------------------------ *)
(** ** Strings and dictionaries: basic facts *)
(* ------------------------------------------------------------------ *)

Unset Implicit Arguments.

Lemma str_eqb_refl (a : pystr) : str_eqb a a = true.
Proof.
  induction a as [|x a IH]; simpl; [reflexivity|].
  now rewrite N.eqb_refl, IH.
Qed.

Lemma str_eqb_eq (a b : pystr) : str_eqb a b = true <-> a = b.
Proof.
  split.
  - revert b. induction a as [|x a IH]; intros [|y b]; simpl; try discriminate.
    + reflexivity.
    + intros H. apply andb_true_iff in H. destruct H as [Hxy Hab].
      apply N.eqb_eq in Hxy. now rewrite Hxy, (IH b Hab).
  - intros ->. apply str_eqb_refl.
Qed.

Lemma str_eqb_neq (a b : pystr) : a <> b -> str_eqb a b = false.
Proof.
  intros Hne. destruct (str_eqb a b) eqn:E; [|reflexivity].
  apply str_eqb_eq in E. contradiction.
Qed.

Lemma str_eqb_sym (a b : pystr) : str_eqb a b = str_eqb b a.
Proof.
  destruct (str_eqb a b) eqn:E.
  - apply str_eqb_eq in E. subst. symmetry. apply str_eqb_refl.
  - symmetry. apply str_eqb_neq. intros ->. now rewrite str_eqb_refl in E.
Qed.

Lemma startswith_app (p s : pystr) : startswith (p ++ s) p = true.
Proof.
  induction p as [|x p IH]; simpl.
  - reflexivity.
  - now rewrite N.eqb_refl, IH.
Qed.

Lemma contains_app (pre p post : pystr) : contains p (pre ++ p ++ post) = true.
Proof.
  induction pre as [|x pre IH].
  - simpl app. destruct (p ++ post) eqn:E; simpl.
    + destruct p; [reflexivity | discriminate].
    + rewrite <- E, startswith_app. reflexivity.
  - simpl. rewrite IH. apply orb_true_r.
Qed.

(** *** Lower-casing *)

Lemma lower_nil : lower [] = [].
Proof. reflexivity. Qed.

(** No character is lower-cased to nothing. *)
Lemma lower_ucs4_not_nil (before : pystr) (c : codepoint) (after : pystr) :
  lower_ucs4 before c after <> [].
Proof.
  unfold lower_ucs4, _PyUnicode_ToLowerFull.
  destruct (c =? CAPITAL_SIGMA)%N; [easy|].
  destruct (c =? 304)%N; [easy|].
  destruct (find (maps c) lowercase_ranges) as [[[[first last] step] image]|];
    easy.
Qed.

Lemma lower_eq_nil (s : pystr) : lower s = [] -> s = [].
Proof.
  destruct s as [|c s]; [reflexivity|]. unfold lower. cbn [do_lower].
  intros H. apply app_eq_nil in H. destruct H as [H _].
  now apply lower_ucs4_not_nil in H.
Qed.

(** What precedes a stretch of text is lower-cased on its own account;
    a stretch without capital sigma is lower-cased character by
    character, whatever surrounds it. *)
Lemma do_lower_app (before x y : pystr) :
  exists low_x, do_lower before (x ++ y) = low_x ++ do_lower (rev x ++ before) y.
Proof.
  revert before. induction x as [|c x IH]; intros before.
  - now exists [].
  - destruct (IH (c :: before)) as [low_x Heq].
    exists (lower_ucs4 before c (x ++ y) ++ low_x).
    cbn [app do_lower rev]. rewrite Heq, <- !app_assoc. reflexivity.
Qed.

Lemma do_lower_plain (before x y : pystr) :
  has_capital_sigma x = false ->
  do_lower before (x ++ y)
  = flat_map _PyUnicode_ToLowerFull x ++ do_lower (rev x ++ before) y.
Proof.
  revert before. induction x as [|c x IH]; intros before H; [reflexivity|].
  cbn [has_capital_sigma existsb] in H. apply orb_false_iff in H.
  destruct H as [Hc Hx].
  cbn [app do_lower rev flat_map]. rewrite (IH (c :: before) Hx).
  unfold lower_ucs4. rewrite N.eqb_sym, Hc, <- !app_assoc. reflexivity.
Qed.

Lemma lower_plain (x : pystr) :
  has_capital_sigma x = false -> lower x = flat_map _PyUnicode_ToLowerFull x.
Proof.
  intros H. unfold lower.
  rewrite <- (app_nil_r x) at 1. rewrite (do_lower_plain [] x [] H).
  apply app_nil_r.
Qed.

(** A stretch of the text without capital sigma shows in the lower-cased
    text as its own lower-casing. *)
Lemma contains_lower (pre written post : pystr) :
  has_capital_sigma written = false ->
  contains (lower written) (lower (pre ++ written ++ post)) = true.
Proof.
  intros H. unfold lower at 2.
  destruct (do_lower_app [] pre (written ++ post)) as [low_pre ->].
  rewrite (do_lower_plain _ written post H), <- (lower_plain written H).
  apply contains_app.
Qed.

(** The two dashes are neither cased nor case-ignorable, they are their
    own lower-case form and the lower-case form of nothing else. *)
Lemma dash_uncased (d : codepoint) :
  dash d ->
  _PyUnicode_IsCaseIgnorable d = false /\ _PyUnicode_IsCased d = false /\
  _PyUnicode_ToLowerFull d = [d] /\
  d <> CAPITAL_SIGMA /\ d <> SMALL_SIGMA /\ d <> FINAL_SIGMA.
Proof. intros [->| ->]; vm_compute; repeat split; discriminate. Qed.

Lemma ToLowerFull_gives_no_dash (c d : codepoint) :
  dash d -> In d (_PyUnicode_ToLowerFull c) -> c = d.
Proof.
  intros Hd. unfold _PyUnicode_ToLowerFull.
  destruct (c =? 304)%N.
  - intros [H|[H|[]]]; destruct Hd; subst; discriminate.
  - destruct (find (maps c) lowercase_ranges)
      as [[[[first last] step] image]|] eqn:Hfind.
    + apply find_some in Hfind. destruct Hfind as [Hin Hmaps].
      intros [H|[]]. exfalso.
      assert (Hall :
                forallb
                  (fun r : codepoint * codepoint * N * codepoint =>
                     let '(first, last, _, image) := r in
                     negb ((image <=? d) && (d <=? image + (last - first))))%N
                  lowercase_ranges = true)
        by (destruct Hd; subst d; vm_compute; reflexivity).
      rewrite forallb_forall in Hall. specialize (Hall _ Hin). cbn in Hall.
      unfold maps in Hmaps.
      apply andb_true_iff in Hmaps. destruct Hmaps as [Hmaps _].
      apply andb_true_iff in Hmaps. destruct Hmaps as [H1 H2].
      apply N.leb_le in H1, H2.
      apply negb_true_iff, andb_false_iff in Hall.
      destruct Hall as [Hall|Hall]; apply N.leb_gt in Hall; lia.
    + now intros [H|[]].
Qed.

Lemma replace_absent (old new : codepoint) (s : pystr) :
  ~ In old s -> replace old new s = s.
Proof.
  intros H. unfold replace. rewrite <- (map_id s) at 2.
  apply map_ext_in. intros c Hc.
  destruct (N.eqb_spec c old) as [->|]; [contradiction | reflexivity].
Qed.

Section DashSwap.

Variables old new : codepoint.
Hypothesis Hold : dash old.
Hypothesis Hnew : dash new.

Let swap (c : codepoint) : codepoint := if N.eqb c old then new else c.

Lemma swap_properties (c : codepoint) :
  _PyUnicode_IsCaseIgnorable (swap c) = _PyUnicode_IsCaseIgnorable c /\
  _PyUnicode_IsCased (swap c) = _PyUnicode_IsCased c /\
  (swap c =? CAPITAL_SIGMA)%N = (c =? CAPITAL_SIGMA)%N /\
  _PyUnicode_ToLowerFull (swap c) = replace old new (_PyUnicode_ToLowerFull c).
Proof.
  destruct (dash_uncased old Hold) as [Ho1 [Ho2 [Ho3 [Ho4 _]]]].
  destruct (dash_uncased new Hnew) as [Hn1 [Hn2 [Hn3 [Hn4 _]]]].
  unfold swap. destruct (N.eqb_spec c old) as [->|Hc].
  - rewrite Ho1, Ho2, Hn1, Hn2, Ho3, Hn3.
    repeat split.
    + destruct (N.eqb_spec new CAPITAL_SIGMA), (N.eqb_spec old CAPITAL_SIGMA);
        congruence.
    + unfold replace. cbn [map]. now rewrite N.eqb_refl.
  - repeat split. symmetry. apply replace_absent.
    intros Hin. apply Hc. exact (ToLowerFull_gives_no_dash c old Hold Hin).
Qed.

Lemma skip_case_ignorable_swap (s : pystr) :
  skip_case_ignorable (replace old new s)
  = option_map swap (skip_case_ignorable s).
Proof.
  induction s as [|c s IH]; [reflexivity|].
  unfold replace in *. cbn [map skip_case_ignorable]. fold (swap c).
  destruct (swap_properties c) as [-> _].
  destruct (_PyUnicode_IsCaseIgnorable c); [exact IH | reflexivity].
Qed.

Lemma handle_capital_sigma_swap (before after : pystr) :
  handle_capital_sigma (replace old new before) (replace old new after)
  = handle_capital_sigma before after.
Proof.
  unfold handle_capital_sigma. rewrite !skip_case_ignorable_swap.
  destruct (skip_case_ignorable before) as [c|]; [|reflexivity].
  cbn [option_map]. destruct (swap_properties c) as [_ [-> _]].
  destruct (skip_case_ignorable after) as [d|]; [|reflexivity].
  cbn [option_map]. destruct (swap_properties d) as [_ [-> _]]. reflexivity.
Qed.

Lemma do_lower_swap (before s : pystr) :
  do_lower (replace old new before) (replace old new s)
  = replace old new (do_lower before s).
Proof.
  revert before. induction s as [|c s IH]; intros before; [reflexivity|].
  unfold replace in *. cbn [map do_lower]. fold (swap c).
  rewrite map_app. specialize (IH (c :: before)). cbn [map] in IH.
  fold (swap c) in IH. rewrite IH. f_equal.
  unfold lower_ucs4.
  destruct (swap_properties c) as [_ [_ [-> Hfull]]].
  destruct (c =? CAPITAL_SIGMA)%N.
  - pose proof (handle_capital_sigma_swap before s) as Hs.
    unfold replace in Hs. rewrite Hs. cbn [map].
    destruct (dash_uncased old Hold) as [_ [_ [_ [_ [Hsmall Hfinal]]]]].
    unfold handle_capital_sigma.
    match goal with |- [if ?b then _ else _] = _ => destruct b end.
    + destruct (N.eqb_spec FINAL_SIGMA old); congruence.
    + destruct (N.eqb_spec SMALL_SIGMA old); congruence.
  - exact Hfull.
Qed.

End DashSwap.

(** Lower-casing neither creates nor removes a dash, and no dash bears on
    the form of a sigma, so lower-casing commutes with swapping one dash
    for the other. *)
Lemma lower_replace (old new : codepoint) (s : pystr) :
  (old = HYPHEN \/ old = NB_HYPHEN) ->
  (new = HYPHEN \/ new = NB_HYPHEN) ->
  lower (replace old new s) = replace old new (lower s).
Proof.
  intros Hold Hnew. unfold lower.
  exact (do_lower_swap old new Hold Hnew [] s).
Qed.

Module DictFacts.
Import Dict.

Lemma get_set {V} (d : dict V) (k k' : pystr) (v : V) :
  get (set d k v) k' = if str_eqb k k' then Some v else get d k'.
Proof.
  induction d as [|[k0 v0] d IH]; simpl.
  - destruct (str_eqb k k'); reflexivity.
  - destruct (str_eqb k0 k) eqn:E0; simpl.
    + apply str_eqb_eq in E0. subst k0.
      destruct (str_eqb k k'); reflexivity.
    + destruct (str_eqb k0 k') eqn:E1.
      * apply str_eqb_eq in E1. subst k0.
        rewrite str_eqb_sym, E0. reflexivity.
      * apply IH.
Qed.

Lemma get_set_same {V} (d : dict V) (k : pystr) (v : V) :
  get (set d k v) k = Some v.
Proof. now rewrite get_set, str_eqb_refl. Qed.

Lemma get_set_other {V} (d : dict V) (k k' : pystr) (v : V) :
  k <> k' -> get (set d k v) k' = get d k'.
Proof. intros H. now rewrite get_set, (str_eqb_neq _ _ H). Qed.

Lemma mem_set {V} (d : dict V) (k k' : pystr) (v : V) :
  mem (set d k v) k' = str_eqb k k' || mem d k'.
Proof.
  unfold mem. rewrite get_set. destruct (str_eqb k k'); reflexivity.
Qed.

Lemma get_In {V} (d : dict V) (k : pystr) (v : V) :
  get d k = Some v -> In (k, v) d.
Proof.
  induction d as [|[k0 v0] d IH]; simpl; [discriminate|].
  destruct (str_eqb k0 k) eqn:E.
  - apply str_eqb_eq in E. intros [= ->]. subst. now left.
  - intros H. right. now apply IH.
Qed.

Lemma mem_keys {V} (d : dict V) (k : pystr) :
  mem d k = true <-> In k (keys d).
Proof.
  unfold mem, keys. induction d as [|[k0 v0] d IH]; simpl.
  - split; [discriminate | contradiction].
  - destruct (str_eqb k0 k) eqn:E.
    + apply str_eqb_eq in E. subst. split; auto.
    + rewrite IH. split; [auto|].
      intros [H|H]; [|exact H]. subst. now rewrite str_eqb_refl in E.
Qed.

(** Whatever is in a dictionary after [d[k] = v] is the new binding or
    was there before. *)
Lemma In_set {V} (d : dict V) (k : pystr) (v : V) (kv : pystr * V) :
  In kv (set d k v) -> kv = (k, v) \/ In kv d.
Proof.
  induction d as [|[k0 v0] d IH]; simpl.
  - intros [H|[]]. now left.
  - destruct (str_eqb k0 k) eqn:E; simpl.
    + apply str_eqb_eq in E. subst k0.
      intros [H|H]; [now left | right; now right].
    + intros [H|H]; [right; now left|].
      destruct (IH H); [now left | right; now right].
Qed.

Lemma keys_set {V} (d : dict V) (k k' : pystr) (v : V) :
  In k' (keys (set d k v)) <-> k' = k \/ In k' (keys d).
Proof.
  rewrite <- !mem_keys, mem_set, orb_true_iff, str_eqb_eq.
  intuition congruence.
Qed.

End DictFacts.

(* ------------------------------------------------------------------ *)
(** ** Graph store: [node_type] and the construction helpers *)
(* ------------------------------------------------------------------ *)

Section NodeType.
Import Dict DictFacts.

Lemma has_node_get (g : nx.MultiDiGraph) (name : pystr) :
  nx.has_node g name = true ->
  exists attrs, get (nx._node g) name = Some attrs.
Proof.
  unfold nx.has_node, mem.
  destruct (get (nx._node g) name) as [attrs|]; [|discriminate].
  intros _. now exists attrs.
Qed.

(** A name that is not a node makes [G.nodes[node]] raise. *)
Lemma node_type_missing (kg : KnowledgeGraph) (name : pystr) :
  nx.has_node (G kg) name = false ->
  node_type kg name = Raise (KeyError name).
Proof.
  unfold node_type, nx.nodes_getitem, subscript, nx.has_node, mem.
  destruct (get (nx._node (G kg)) name); [discriminate | reflexivity].
Qed.

(** C2, as stated, fails: on a graph whose only node is "Wolverine",
    [node_type "Thor"] raises [KeyError] instead of returning a kind or
    the sentinel. *)
Lemma node_type_raises_on_absent_name :
  nx.has_node (G Samples.kg_wolverine) (py "Thor") = false /\
  node_type Samples.kg_wolverine (py "Thor") = Raise (KeyError (py "Thor")) /\
  ~ (exists v, node_type Samples.kg_wolverine (py "Thor") = Ok v).
Proof.
  split; [reflexivity|]. split; [reflexivity|].
  intros [v Hv]. vm_compute in Hv. discriminate.
Qed.

(** On a node, [node_type] reads the attribute dictionary of the node. *)
Lemma node_type_found (kg : KnowledgeGraph) (name : pystr) :
  nx.has_node (G kg) name = true ->
  exists attrs,
    get (nx._node (G kg)) name = Some attrs /\
    node_type kg name =
      Ok (match get attrs (py "label") with
          | Some kind => kind
          | None => VStr (py "Unknown")
          end).
Proof.
  intros Hnode. destruct (has_node_get _ _ Hnode) as [attrs Hattrs].
  exists attrs. split; [exact Hattrs|].
  unfold node_type, nx.nodes_getitem, subscript. rewrite Hattrs.
  reflexivity.
Qed.

(** C2, amended: for every name that is a node of the graph, [node_type]
    returns the node's "label" attribute, or the sentinel "Unknown" when
    the node has none, and does not raise. *)
Theorem node_type_on_nodes (kg : KnowledgeGraph) (name : pystr) :
  nx.has_node (G kg) name = true ->
  exists attrs,
    nx.nodes_getitem (G kg) name = Ok attrs /\
    node_type kg name =
      Ok (match get attrs (py "label") with
          | Some kind => kind
          | None => VStr (py "Unknown")
          end).
Proof.
  intros Hnode. destruct (node_type_found kg name Hnode) as [attrs [Hget Hty]].
  exists attrs. split; [|exact Hty].
  unfold nx.nodes_getitem, subscript. now rewrite Hget.
Qed.

Lemma node_type_on_nodes_witness :
  exists attrs,
    nx.nodes_getitem (G Samples.kg_wolverine) (py "Wolverine") = Ok attrs /\
    node_type Samples.kg_wolverine (py "Wolverine") =
      Ok (match get attrs (py "label") with
          | Some kind => kind
          | None => VStr (py "Unknown")
          end).
Proof.
  apply (node_type_on_nodes Samples.kg_wolverine (py "Wolverine")).
  reflexivity.
Defined.

End NodeType.

Section Helpers.
Import Dict DictFacts.

(** The attributes of [n] right after [add_node g n [(k, v)]] hold [v]
    under [k], whichever branch of [add_node] ran. *)
Lemma add_node_stores (g : nx.MultiDiGraph) (n k : pystr) (v : value) :
  exists attrs,
    get (nx._node (nx.add_node g n [(k, v)])) n = Some attrs /\
    get attrs k = Some v.
Proof.
  unfold nx.add_node.
  destruct (negb (mem (nx._succ g) n)); simpl nx._node;
    rewrite get_set_same; eexists; (split; [reflexivity|]);
    unfold update; cbn [fold_left fst snd];
    first [ apply get_set_same | simpl; now rewrite str_eqb_refl ].
Qed.

Lemma unlabelled_empty : unlabelled nx.empty.
Proof. intros n attrs []. Qed.

Lemma unlabelled_add_node (g : nx.MultiDiGraph) (n : pystr) (kind : value) :
  unlabelled g -> unlabelled (nx.add_node g n [(py "type", kind)]).
Proof.
  intros Hg m attrs Hin. unfold nx.add_node in Hin.
  destruct (negb (mem (nx._succ g) n)); simpl in Hin;
    apply In_set in Hin; destruct Hin as [Heq|Hold];
    try (now apply (Hg m attrs)); inversion Heq; subst; clear Heq.
  - reflexivity.
  - unfold update. cbn [fold_left fst snd].
    rewrite get_set_other by discriminate.
    unfold get_default.
    destruct (get (nx._node g) n) as [old|] eqn:E; [|reflexivity].
    apply (Hg n old). now apply get_In.
Qed.

Lemma unlabelled_touch (g : nx.MultiDiGraph) (n : pystr) :
  unlabelled g -> unlabelled (nx.touch g n).
Proof.
  intros Hg m attrs Hin. unfold nx.touch in Hin.
  destruct (negb (mem (nx._succ g) n)); simpl in Hin.
  - apply In_set in Hin. destruct Hin as [Heq|Hold].
    + inversion Heq. reflexivity.
    + now apply (Hg m attrs).
  - now apply (Hg m attrs).
Qed.

Lemma unlabelled_add_edge (g : nx.MultiDiGraph) (u v : pystr) (attr : attr_dict) :
  unlabelled g -> unlabelled (nx.add_edge g u v attr).
Proof.
  intros Hg m attrs Hin. unfold nx.add_edge in Hin. simpl in Hin.
  exact (unlabelled_touch _ v (unlabelled_touch _ u Hg) m attrs Hin).
Qed.

Lemma unlabelled_call (kg : KnowledgeGraph) (c : helper_call) :
  unlabelled (G kg) -> unlabelled (G (call kg c)).
Proof.
  destruct c; simpl; intros H;
    auto using unlabelled_add_node, unlabelled_add_edge.
Qed.

Lemma unlabelled_fold (cs : list helper_call) (kg : KnowledgeGraph) :
  unlabelled (G kg) -> unlabelled (G (fold_left call cs kg)).
Proof.
  revert kg. induction cs as [|c cs IH]; intros kg H; simpl.
  - exact H.
  - apply IH. now apply unlabelled_call.
Qed.

Lemma node_type_unlabelled (kg : KnowledgeGraph) (name : pystr) :
  unlabelled (G kg) ->
  nx.has_node (G kg) name = true ->
  node_type kg name = Ok (VStr (py "Unknown")).
Proof.
  intros Hun Hnode.
  destruct (node_type_found kg name Hnode) as [attrs [Hget ->]].
  now rewrite (Hun name attrs (get_In _ _ _ Hget)).
Qed.

(** C10: each of the four node helpers stores the kind under the key
    "type"; [node_type] reads the key "label"; so on a graph assembled
    from the empty one by helper calls only, [node_type] answers "Unknown"
    for every node, whatever kind its helper assigned. *)
Theorem helpers_store_type_but_node_type_reads_label
    (cs : list helper_call) (name : pystr) :
  nx.has_node (G (assemble cs)) name = true ->
  node_type (assemble cs) name = Ok (VStr (py "Unknown")) /\
  (forall kg n attrs,
      nx.nodes_getitem (G kg) n = Ok attrs ->
      node_type kg n = Ok (get_default attrs (py "label") (VStr (py "Unknown")))) /\
  (forall kg n,
      stored_type (add_character kg n) n = Some (VStr (py "Character")) /\
      stored_type (add_team kg n) n = Some (VStr (py "Team")) /\
      stored_type (add_gene kg n) n = Some (VStr (py "Gene")) /\
      stored_type (add_power kg n) n = Some (VStr (py "Power"))).
Proof.
  intros Hnode. split; [|split].
  - apply node_type_unlabelled; [|exact Hnode].
    apply unlabelled_fold, unlabelled_empty.
  - intros kg0 n attrs Hattrs. unfold node_type. now rewrite Hattrs.
  - intros kg0 n. unfold stored_type, add_character, add_team, add_gene, add_power.
    cbn [G].
    repeat split;
      match goal with
      | |- context [nx.add_node ?g ?m [(?k, ?v)]] =>
          destruct (add_node_stores g m k v) as [a [-> Ha]]; exact Ha
      end.
Qed.

Lemma helpers_store_type_but_node_type_reads_label_witness :
  node_type (assemble Samples.helper_calls) (py "Wolverine")
    = Ok (VStr (py "Unknown")) /\
  stored_type (assemble Samples.helper_calls) (py "Wolverine")
    = Some (VStr (py "Character")).
Proof.
  split.
  - apply (helpers_store_type_but_node_type_reads_label
             Samples.helper_calls (py "Wolverine")).
    reflexivity.
  - reflexivity.
Defined.

End Helpers.

(* ------------------------------------------------------------------ *)
(** ** Evaluating graph operations on graphs with symbolic node names *)
(* ------------------------------------------------------------------ *)

Ltac use_eqs :=
  rewrite ?str_eqb_refl;
  repeat match goal with
         | H : str_eqb ?a ?b = false |- context [str_eqb ?a ?b] => rewrite H
         end.

Ltac literal_tests :=
  repeat match goal with
         | |- context [str_eqb (py ?a) (py ?b)] =>
             let v := eval vm_compute in (str_eqb (py a) (py b)) in
             change (str_eqb (py a) (py b)) with v
         end.

Ltac crunch := repeat (progress (cbn -[py]; use_eqs; literal_tests)).

(** Replace [t] by its value, computed apart from the goal. *)
Ltac eval_term t :=
  let H := fresh "Hev" in
  eassert (H : t = _) by
    (unfold nx.add_node, nx.add_edge, nx.touch, nx.in_edges, nx.out_edges,
       nx.edge_view, nx.nbunch_iter, nx.has_node, nx.fromkeys, subscript,
       Dict.mem, Dict.get_default, Dict.update;
     crunch; reflexivity);
  rewrite H; clear H.

(** Innermost first: an operation is evaluated once the graph it applies
    to is an explicit record. *)
Ltac eval_graph_op :=
  match goal with
  | |- context [nx.add_node (nx.Build_MultiDiGraph ?a ?b ?c) ?n ?x] =>
      eval_term (nx.add_node (nx.Build_MultiDiGraph a b c) n x)
  | |- context [nx.add_edge (nx.Build_MultiDiGraph ?a ?b ?c) ?u ?v ?x] =>
      eval_term (nx.add_edge (nx.Build_MultiDiGraph a b c) u v x)
  | |- context [nx.in_edges (nx.Build_MultiDiGraph ?a ?b ?c) ?n] =>
      eval_term (nx.in_edges (nx.Build_MultiDiGraph a b c) n)
  | |- context [nx.out_edges (nx.Build_MultiDiGraph ?a ?b ?c) ?n] =>
      eval_term (nx.out_edges (nx.Build_MultiDiGraph a b c) n)
  end.

Ltac run_scenario :=
  unfold execute, execute_from, hop, relation_is, GraphExecutor_init,
    add_relationship, nx.empty;
  cbn [G self_G];
  repeat (first [ eval_graph_op | progress crunch ]).

(** Case analysis on whether two names are the same string. *)
Ltac split_eq a b :=
  let E := fresh "E" in
  destruct (str_eqb a b) eqn:E;
  [ apply str_eqb_eq in E; subst
  | let E' := fresh "E" in
    assert (E' : str_eqb b a = false) by (now rewrite str_eqb_sym) ].

(* ------------------------------------------------------------------ *)
(** ** Graph executor *)
(* ------------------------------------------------------------------ *)

Section Executor.

Lemma for_each_app {A S} (body : S -> A -> result S) (xs ys : list A) (s : S) :
  for_each (xs ++ ys) body s = (mid <- for_each xs body s ;; for_each ys body mid).
Proof.
  revert s. induction xs as [|x xs IH]; intros s; simpl.
  - reflexivity.
  - destruct (body s x) as [s'|e]; simpl; [apply IH | reflexivity].
Qed.

Lemma for_each_ext {A S} (f g : S -> A -> result S) (xs : list A) (s : S) :
  (forall s x, f s x = g s x) -> for_each xs f s = for_each xs g s.
Proof.
  intros Hfg. revert s. induction xs as [|x xs IH]; intros s; simpl.
  - reflexivity.
  - rewrite Hfg. destruct (g s x); simpl; [apply IH | reflexivity].
Qed.

(** The inner [for] over the reported edges appends, in order, the chosen
    endpoint of every edge carrying the relation. *)
Lemma collect_sources (rel : pystr) (edges : list nx.edge) (nxt : list pystr) :
  fold_left
    (fun nxt (e : nx.edge) =>
       let '(src, tgt, data) := e in
       if relation_is data rel then nxt ++ [src] else nxt)
    edges nxt
  = nxt ++ map (fun e : nx.edge => fst (fst e))
             (filter (fun e : nx.edge => relation_is (snd e) rel) edges).
Proof.
  revert nxt. induction edges as [|[[src tgt] data] edges IH]; intros nxt; simpl.
  - now rewrite app_nil_r.
  - destruct (relation_is data rel); rewrite IH; simpl.
    + now rewrite <- app_assoc.
    + reflexivity.
Qed.

Lemma collect_targets (rel : pystr) (edges : list nx.edge) (nxt : list pystr) :
  fold_left
    (fun nxt (e : nx.edge) =>
       let '(_, tgt, data) := e in
       if relation_is data rel then nxt ++ [tgt] else nxt)
    edges nxt
  = nxt ++ map (fun e : nx.edge => snd (fst e))
             (filter (fun e : nx.edge => relation_is (snd e) rel) edges).
Proof.
  revert nxt. induction edges as [|[[src tgt] data] edges IH]; intros nxt; simpl.
  - now rewrite app_nil_r.
  - destruct (relation_is data rel); rewrite IH; simpl.
    + now rewrite <- app_assoc.
    + reflexivity.
Qed.

Lemma direction_test (entity_type : value) :
  existsb (eq_str entity_type) [py "Power"; py "Team"]
  = match direction_of entity_type with Incoming => true | Outgoing => false end.
Proof.
  unfold direction_of. cbn [existsb]. rewrite orb_false_r.
  destruct (eq_str entity_type (py "Power") || eq_str entity_type (py "Team"));
    reflexivity.
Qed.

(** The loop over the working set, started from any [nxt]. *)
Lemma hop_loop (self : GraphExecutor) (entity_type : value)
    (rel : pystr) (nodes nxt : list pystr) :
  for_each nodes
    (fun nxt n =>
       if existsb (eq_str entity_type) [py "Power"; py "Team"] then
         edges <- nx.in_edges (self_G self) n ;;
         Ok (fold_left
               (fun nxt (e : nx.edge) =>
                  let '(src, tgt, data) := e in
                  if relation_is data rel then nxt ++ [src] else nxt)
               edges nxt)
       else
         edges <- nx.out_edges (self_G self) n ;;
         Ok (fold_left
               (fun nxt (e : nx.edge) =>
                  let '(_, tgt, data) := e in
                  if relation_is data rel then nxt ++ [tgt] else nxt)
               edges nxt))
    nxt
  = (per_node <- comprehension
                   (neighbours (self_G self) (direction_of entity_type) rel)
                   nodes ;;
     Ok (nxt ++ List.concat per_node)).
Proof.
  rewrite direction_test.
  revert nxt. induction nodes as [|n nodes IH]; intros nxt.
  - simpl. now rewrite app_nil_r.
  - cbn [for_each comprehension].
    destruct (direction_of entity_type); cbn [neighbours].
    + destruct (nx.in_edges (self_G self) n) as [edges|e]; cbn [bind]; [|reflexivity].
      rewrite IH, collect_sources.
      destruct (comprehension _ nodes); cbn [bind List.concat]; [|reflexivity].
      now rewrite app_assoc.
    + destruct (nx.out_edges (self_G self) n) as [edges|e]; cbn [bind]; [|reflexivity].
      rewrite IH, collect_targets.
      destruct (comprehension _ nodes); cbn [bind List.concat]; [|reflexivity].
      now rewrite app_assoc.
Qed.

Lemma hop_expand (self : GraphExecutor) (entity_type : value)
    (nodes : list pystr) (rel : pystr) :
  hop self entity_type nodes rel
  = expand (self_G self) (direction_of entity_type) nodes rel.
Proof. unfold hop, expand. now rewrite hop_loop. Qed.

Lemma eq_str_true (v : value) (s : pystr) : eq_str v s = true <-> v = VStr s.
Proof.
  destruct v; simpl; try (split; [discriminate | intros [=]]).
  rewrite str_eqb_eq. split; [now intros -> | now intros [= ->]].
Qed.

Lemma direction_of_incoming (start_type : value) :
  direction_of start_type = Incoming <->
  (start_type = VStr (py "Power") \/ start_type = VStr (py "Team")).
Proof.
  unfold direction_of. rewrite <- !eq_str_true.
  destruct (eq_str start_type (py "Power")), (eq_str start_type (py "Team"));
    simpl; intuition congruence.
Qed.


(** C6: a chain is run hop by hop, each hop expanding the working set the
    previous one produced; on [W -HAS_MUTATION-> G -CONFERS-> P] the chain
    [HAS_MUTATION, CONFERS] from [W] passes through [[G]] and returns
    exactly [[P]]. *)
Theorem multi_hop_chain_returns_power :
  (forall self entity_type nodes chain1 chain2,
      execute_from self entity_type nodes (chain1 ++ chain2)
      = (mid <- execute_from self entity_type nodes chain1 ;;
         execute_from self entity_type mid chain2)) /\
  (forall W Gn P tt,
      execute (GraphExecutor_init (Scenarios.mutation_chain W Gn P))
        {| start_entity := W; start_type := VStr (py "Character");
           relation_chain := [py "HAS_MUTATION"]; target_type := tt |}
      = Ok [Gn]) /\
  (forall W Gn P tt,
      execute (GraphExecutor_init (Scenarios.mutation_chain W Gn P))
        {| start_entity := W; start_type := VStr (py "Character");
           relation_chain := [py "HAS_MUTATION"; py "CONFERS"];
           target_type := tt |}
      = Ok [P]).
Proof.
  split; [|split].
  - intros. apply for_each_app.
  - intros W Gn P tt. unfold Scenarios.mutation_chain.
    split_eq W Gn; [split_eq Gn P | split_eq Gn P; [|split_eq W P]];
      run_scenario; reflexivity.
  - intros W Gn P tt. unfold Scenarios.mutation_chain.
    split_eq W Gn; [split_eq Gn P | split_eq Gn P; [|split_eq W P]];
      run_scenario; reflexivity.
Qed.

End Executor.

Section ExecutorTotality.
Import Dict DictFacts.

Lemma execute_from_nil (self : GraphExecutor) (entity_type : value)
    (chain : list pystr) :
  execute_from self entity_type [] chain = Ok [].
Proof.
  unfold execute_from. induction chain as [|rel chain IH]; simpl.
  - reflexivity.
  - exact IH.
Qed.

(** C7: when the working set is empty after some hop - the first one, for
    instance, because no edge of the start entity carries the first
    relation - [execute] returns the empty list, and no exception. *)
Theorem empty_working_set_gives_empty_result
    (self : GraphExecutor) (plan : Plan) (k : nat) :
  execute_from self (start_type plan) [start_entity plan]
    (firstn k (relation_chain plan)) = Ok [] ->
  execute self plan = Ok [].
Proof.
  intros Hempty.
  change (execute self plan)
    with (execute_from self (start_type plan) [start_entity plan]
            (relation_chain plan)).
  rewrite <- (firstn_skipn k (relation_chain plan)).
  unfold execute_from in *. rewrite for_each_app, Hempty. simpl.
  apply execute_from_nil.
Qed.

Lemma empty_working_set_gives_empty_result_witness :
  well_formed (self_G PlanSamples.xy_executor) PlanSamples.no_team_plan /\
  execute PlanSamples.xy_executor PlanSamples.no_team_plan = Ok [].
Proof.
  split.
  - split; [reflexivity | discriminate].
  - apply (empty_working_set_gives_empty_result
             PlanSamples.xy_executor PlanSamples.no_team_plan 1).
    reflexivity.
Defined.

(** The first hop matching no edge is one such case. *)
Lemma first_hop_without_match (self : GraphExecutor) (plan : Plan)
    (rel : pystr) (rest : list pystr) :
  relation_chain plan = rel :: rest ->
  neighbours (self_G self) (direction_of (start_type plan)) rel
    (start_entity plan) = Ok [] ->
  execute self plan = Ok [].
Proof.
  intros Hchain Hnone. unfold execute. rewrite Hchain. cbn [for_each].
  rewrite hop_expand. unfold expand. cbn [comprehension].
  rewrite Hnone. cbn [bind List.concat app].
  apply execute_from_nil.
Qed.

Lemma fromkeys_acc (xs acc : list pystr) (x : pystr) :
  In x (fold_left
          (fun acc k => if existsb (str_eqb k) acc then acc else acc ++ [k])
          xs acc) ->
  In x acc \/ In x xs.
Proof.
  revert acc. induction xs as [|k xs IH]; intros acc; simpl.
  - now left.
  - intros H. apply IH in H. destruct H as [H|H]; [|right; now right].
    destruct (existsb (str_eqb k) acc); [now left|].
    apply in_app_or in H. destruct H as [H|[H|[]]]; [now left|].
    right. now left.
Qed.

Lemma fromkeys_incl (xs : list pystr) (x : pystr) :
  In x (nx.fromkeys xs) -> In x xs.
Proof.
  intros H. apply fromkeys_acc in H. destruct H as [[]|H]. exact H.
Qed.

Lemma graph_ok_succ (g : nx.MultiDiGraph) (n : pystr) :
  graph_ok g = true -> nx.has_node g n = true -> mem (nx._succ g) n = true.
Proof.
  unfold graph_ok, nx.has_node. intros Hok Hn.
  apply andb_true_iff in Hok. destruct Hok as [Hok _].
  rewrite forallb_forall in Hok. apply Hok. now apply mem_keys.
Qed.

Lemma graph_ok_pred (g : nx.MultiDiGraph) (n : pystr) :
  graph_ok g = true -> mem (nx._succ g) n = true -> mem (nx._pred g) n = true.
Proof.
  unfold graph_ok. intros Hok Hn.
  apply andb_true_iff in Hok. destruct Hok as [_ Hok].
  rewrite forallb_forall in Hok. apply Hok. now apply mem_keys.
Qed.

(** Every member of a bunch has a successor entry. *)
Lemma nbunch_iter_succ (g : nx.MultiDiGraph) (n m : pystr) :
  graph_ok g = true ->
  In m (nx.nbunch_iter g n) -> mem (nx._succ g) m = true.
Proof.
  intros Hok. unfold nx.nbunch_iter.
  destruct (nx.has_node g n) eqn:Hn.
  - intros [<-|[]]. now apply graph_ok_succ.
  - intros H. apply filter_In in H. tauto.
Qed.

Lemma fetch_all_ok (adj : nx.adjacency) (ms : list pystr) :
  (forall m, In m ms -> mem adj m = true) ->
  exists r,
    comprehension (fun m => nbrs <- subscript adj m ;; Ok (m, nbrs)) ms = Ok r.
Proof.
  induction ms as [|m ms IH]; intros Hall; simpl.
  - now eexists.
  - assert (Hm : mem adj m = true) by (apply Hall; now left).
    unfold subscript at 1. unfold mem in Hm.
    destruct (get adj m) as [nbrs|]; [|discriminate]. simpl.
    destruct IH as [r ->]; [intros; apply Hall; now right|].
    simpl. now eexists.
Qed.

Lemma out_edges_ok (g : nx.MultiDiGraph) (n : pystr) :
  graph_ok g = true -> exists edges, nx.out_edges g n = Ok edges.
Proof.
  intros Hok. unfold nx.out_edges, nx.edge_view.
  destruct (fetch_all_ok (nx._succ g) (nx.fromkeys (nx.nbunch_iter g n)))
    as [r ->].
  - intros m Hm. apply fromkeys_incl in Hm. now apply (nbunch_iter_succ g n).
  - simpl. now eexists.
Qed.

Lemma in_edges_ok (g : nx.MultiDiGraph) (n : pystr) :
  graph_ok g = true -> exists edges, nx.in_edges g n = Ok edges.
Proof.
  intros Hok. unfold nx.in_edges, nx.edge_view.
  destruct (fetch_all_ok (nx._pred g) (nx.fromkeys (nx.nbunch_iter g n)))
    as [r ->].
  - intros m Hm. apply fromkeys_incl in Hm.
    apply graph_ok_pred; [exact Hok|]. now apply (nbunch_iter_succ g n).
  - simpl. now eexists.
Qed.

Lemma expand_ok (g : nx.MultiDiGraph) (d : direction)
    (nodes : list pystr) (rel : pystr) :
  graph_ok g = true -> exists next, expand g d nodes rel = Ok next.
Proof.
  intros Hok. unfold expand.
  assert (H : exists per, comprehension (neighbours g d rel) nodes = Ok per).
  { induction nodes as [|n nodes IH]; simpl.
    - now eexists.
    - destruct IH as [per ->].
      destruct d; cbn [neighbours].
      + destruct (in_edges_ok g n Hok) as [edges ->]. simpl. now eexists.
      + destruct (out_edges_ok g n Hok) as [edges ->]. simpl. now eexists. }
  destruct H as [per ->]. simpl. now eexists.
Qed.

Lemma execute_from_ok (self : GraphExecutor) (entity_type : value)
    (chain nodes : list pystr) :
  graph_ok (self_G self) = true ->
  exists res, execute_from self entity_type nodes chain = Ok res.
Proof.
  intros Hok. unfold execute_from. revert nodes.
  induction chain as [|rel chain IH]; intros nodes; simpl.
  - now eexists.
  - rewrite hop_expand.
    destruct (expand_ok (self_G self) (direction_of entity_type) nodes rel Hok) as [next ->].
    simpl. apply IH.
Qed.

End ExecutorTotality.

(* ------------------------------------------------------------------ *)
(** ** The graphs the program builds are consistent *)
(* ------------------------------------------------------------------ *)

Section Consistency.
Import Dict DictFacts.

Lemma graph_ok_iff (g : nx.MultiDiGraph) :
  graph_ok g = true <->
  (forall n, mem (nx._node g) n = true -> mem (nx._succ g) n = true) /\
  (forall n, mem (nx._succ g) n = true -> mem (nx._pred g) n = true).
Proof.
  unfold graph_ok. rewrite andb_true_iff, !forallb_forall.
  split; intros [H1 H2]; split; intros n Hn.
  - apply H1. now apply mem_keys.
  - apply H2. now apply mem_keys.
  - apply H1. now apply mem_keys.
  - apply H2. now apply mem_keys.
Qed.

Lemma graph_ok_empty : graph_ok nx.empty = true.
Proof. reflexivity. Qed.

Lemma graph_ok_add_node (g : nx.MultiDiGraph) (n : pystr) (attr : attr_dict) :
  graph_ok g = true -> graph_ok (nx.add_node g n attr) = true.
Proof.
  rewrite !graph_ok_iff. intros [H1 H2]. unfold nx.add_node.
  destruct (mem (nx._succ g) n) eqn:Hn; simpl; split; intros m;
    rewrite ?mem_set; intros Hm;
    try (apply orb_true_iff in Hm; destruct Hm as [Hm|Hm]);
    try (apply str_eqb_eq in Hm; subst m);
    rewrite ?str_eqb_refl; auto using orb_true_r.
  - rewrite H1 by exact Hm. apply orb_true_r.
  - rewrite H2 by exact Hm. apply orb_true_r.
Qed.

Lemma graph_ok_touch (g : nx.MultiDiGraph) (n : pystr) :
  graph_ok g = true -> graph_ok (nx.touch g n) = true.
Proof.
  rewrite !graph_ok_iff. intros [H1 H2]. unfold nx.touch.
  destruct (mem (nx._succ g) n) eqn:Hn; simpl; split; intros m;
    rewrite ?mem_set; intros Hm;
    try (apply orb_true_iff in Hm; destruct Hm as [Hm|Hm]);
    try (apply str_eqb_eq in Hm; subst m);
    rewrite ?str_eqb_refl; auto using orb_true_r.
  - rewrite H1 by exact Hm. apply orb_true_r.
  - rewrite H2 by exact Hm. apply orb_true_r.
Qed.

Lemma touch_succ (g : nx.MultiDiGraph) (n m : pystr) :
  mem (nx._succ (nx.touch g n)) m = str_eqb n m || mem (nx._succ g) m.
Proof.
  unfold nx.touch. destruct (mem (nx._succ g) n) eqn:Hn; simpl.
  - destruct (str_eqb n m) eqn:E; [|reflexivity].
    apply str_eqb_eq in E. subst m. now rewrite Hn.
  - apply mem_set.
Qed.

Lemma graph_ok_add_edge (g : nx.MultiDiGraph) (u v : pystr) (attr : attr_dict) :
  graph_ok g = true -> graph_ok (nx.add_edge g u v attr) = true.
Proof.
  intros Hg.
  pose proof (graph_ok_touch _ v (graph_ok_touch _ u Hg)) as Hg1.
  assert (Hu : mem (nx._succ (nx.touch (nx.touch g u) v)) u = true)
    by (now rewrite !touch_succ, str_eqb_refl, orb_true_r).
  revert Hg1 Hu. set (g1 := nx.touch (nx.touch g u) v). intros Hg1 Hu.
  apply graph_ok_iff in Hg1. destruct Hg1 as [H1 H2].
  apply graph_ok_iff. unfold nx.add_edge. fold g1. simpl. split; intros m.
  - intros Hm. rewrite mem_set, (H1 m Hm). apply orb_true_r.
  - rewrite !mem_set. intros Hm. apply orb_true_iff in Hm.
    destruct Hm as [Hm|Hm].
    + apply str_eqb_eq in Hm. subst m. rewrite (H2 u Hu). apply orb_true_r.
    + rewrite (H2 m Hm). apply orb_true_r.
Qed.

Lemma graph_ok_call (kg : KnowledgeGraph) (c : helper_call) :
  graph_ok (G kg) = true -> graph_ok (G (call kg c)) = true.
Proof.
  destruct c; simpl; auto using graph_ok_add_node, graph_ok_add_edge.
Qed.

(** Graphs assembled with the helpers are consistent. *)
Lemma graph_ok_assemble (cs : list helper_call) :
  graph_ok (G (assemble cs)) = true.
Proof.
  unfold assemble.
  assert (H : forall kg, graph_ok (G kg) = true ->
                         graph_ok (G (fold_left call cs kg)) = true).
  { induction cs as [|c cs IH]; intros kg Hkg; simpl.
    - exact Hkg.
    - apply IH. now apply graph_ok_call. }
  apply H. exact graph_ok_empty.
Qed.

(** Graphs loaded by [from_graphml] are consistent. *)
Lemma graph_ok_from_graphml (raw : nx.RawGraph) :
  graph_ok (G (from_graphml raw)) = true.
Proof.
  unfold from_graphml. cbn [G].
  set (raw' := if negb (nx.is_directed raw) then nx.to_directed raw else raw).
  assert (Hnodes : forall nodes g, graph_ok g = true ->
            graph_ok
              (fold_left
                 (fun g (na : pystr * attr_dict) => nx.add_node g (fst na) (snd na))
                 nodes g) = true).
  { induction nodes as [|na nodes IH]; intros g Hg; simpl.
    - exact Hg.
    - apply IH. now apply graph_ok_add_node. }
  assert (Hedges : forall edges g, graph_ok g = true ->
            graph_ok
              (fold_left
                 (fun g (e : nx.edge) =>
                    let '(src, dst, attrs) := e in
                    let relation := resolve_relation attrs in
                    nx.add_edge g src dst [(py "relation", relation)])
                 edges g) = true).
  { induction edges as [|[[s d] a] edges IH]; intros g Hg; simpl.
    - exact Hg.
    - apply IH. now apply graph_ok_add_edge. }
  apply Hedges, Hnodes. exact graph_ok_empty.
Qed.

End Consistency.

Section LoadedGraphs.

(** On a graph built by the loader or by the helpers, [execute] returns a
    result for every plan. *)
Lemma execute_total_on_built_graphs (kg : KnowledgeGraph) (plan : Plan) :
  (exists raw, kg = from_graphml raw) \/ (exists cs, kg = assemble cs) ->
  exists res, execute (GraphExecutor_init kg) plan = Ok res.
Proof.
  intros Hbuilt.
  apply (execute_from_ok (GraphExecutor_init kg) (start_type plan)
           (relation_chain plan) [start_entity plan]).
  destruct Hbuilt as [[raw ->]|[cs ->]]; cbn [GraphExecutor_init self_G].
  - apply graph_ok_from_graphml.
  - apply graph_ok_assemble.
Qed.

End LoadedGraphs.

(* ------------------------------------------------------------------ *)
(** ** Query interpreter *)
(* ------------------------------------------------------------------ *)

Section Interpreter.
Import Dict DictFacts.

(** Whatever [_extract_entity] returns is a node of the graph. *)
Lemma extract_entity_is_node (self : QueryInterpreter) (query ent : pystr) :
  _extract_entity self query = Some ent ->
  nx.has_node (G (kg self)) ent = true.
Proof.
  unfold _extract_entity, spacy_pass, fallback_pass.
  destruct (_nlp self) as [nlp|].
  - destruct (find (nx.has_node (G (kg self))) (nlp query)) as [hit|] eqn:Hspacy.
    + intros [= <-]. apply find_some in Hspacy. tauto.
    + intros Hfind. apply find_some in Hfind. destruct Hfind as [Hin _].
      unfold nx.has_node. now apply mem_keys.
  - intros Hfind. apply find_some in Hfind. destruct Hfind as [Hin _].
    unfold nx.has_node. now apply mem_keys.
Qed.

(** The loop of [max] keeps an element of the sequence. *)
Lemma max_loop_ok (key : pystr -> result spec_float) (ys : list pystr) :
  (forall y, In y ys -> exists w, key y = Ok w) ->
  forall b : pystr * spec_float,
  exists b',
    for_each ys
      (fun (b : pystr * spec_float) y =>
         w <- key y ;; Ok (if SFltb (snd b) w then (y, w) else b))
      b = Ok b' /\
    (fst b' = fst b \/ In (fst b') ys).
Proof.
  induction ys as [|y ys IH]; intros Hkeys b; simpl.
  - exists b. split; [reflexivity | now left].
  - destruct (Hkeys y (or_introl eq_refl)) as [w ->]. simpl.
    destruct (IH (fun z Hz => Hkeys z (or_intror Hz))
                 (if SFltb (snd b) w then (y, w) else b)) as [b' [-> Hb']].
    exists b'. split; [reflexivity|].
    destruct Hb' as [Hb'|Hb']; [|right; now right].
    destruct (SFltb (snd b) w); simpl in Hb'; [right; now left | now left].
Qed.

Lemma py_max_ok (key : pystr -> result spec_float) (xs : list pystr) :
  xs <> [] ->
  (forall x, In x xs -> exists w, key x = Ok w) ->
  exists best, py_max xs key = Ok best /\ In best xs.
Proof.
  destruct xs as [|x xs]; [congruence|]. intros _ Hkeys.
  unfold py_max.
  destruct (Hkeys x (or_introl eq_refl)) as [v ->]. cbn [bind].
  destruct (max_loop_ok key xs (fun z Hz => Hkeys z (or_intror Hz)) (x, v))
    as [b' [-> Hb']].
  cbn [bind]. exists (fst b'). split; [reflexivity|].
  destruct Hb' as [->|Hin]; [now left | now right].
Qed.

Lemma template_embedding_found (self : QueryInterpreter) (k : pystr) :
  In k (keys intent_templates) ->
  exists t_emb, subscript (template_embeddings self) k = Ok t_emb.
Proof.
  intros Hin. unfold template_embeddings.
  repeat (destruct Hin as [<-|Hin]; [now eexists|]).
  destruct Hin.
Qed.

Lemma intent_template_found (k : pystr) :
  In k (keys intent_templates) ->
  exists template, subscript intent_templates k = Ok template.
Proof.
  intros Hin.
  repeat (destruct Hin as [<-|Hin]; [now eexists|]).
  destruct Hin.
Qed.

(** The embedding-based detection raises nothing. *)
Lemma embedding_intent_ok (self : QueryInterpreter) (query : pystr) :
  exists ic, embedding_intent self query = Ok ic.
Proof.
  unfold embedding_intent.
  destruct (py_max_ok
              (fun k =>
                 t_emb <- subscript (template_embeddings self) k ;;
                 Ok (cos_sim self (encode self query) t_emb))
              (keys intent_templates)) as [intent [-> Hin]].
  - discriminate.
  - intros k Hk. destruct (template_embedding_found self k Hk) as [t ->].
    simpl. now eexists.
  - cbn [bind]. destruct (intent_template_found intent Hin) as [template ->].
    simpl. now eexists.
Qed.

Lemma classify_ok (self : QueryInterpreter) (query : pystr) (entity_type : value) :
  exists ic, classify self query entity_type = Ok ic.
Proof.
  unfold classify.
  repeat match goal with
         | |- context [if ?b then _ else _] => destruct b
         end;
    solve [ now eexists | apply embedding_intent_ok ].
Qed.

(** [interpret] past the entity check always completes. *)
Lemma interpret_found (self : QueryInterpreter) (query ent : pystr) :
  _extract_entity self query = Some ent ->
  exists entity_type ic,
    node_type (kg self) ent = Ok entity_type /\
    classify self query entity_type = Ok ic /\
    interpret self query =
      Ok {| start_entity := ent;
            start_type := entity_type;
            relation_chain := snd ic;
            target_type := target_type_of (fst ic) |}.
Proof.
  intros Hent.
  destruct (node_type_found (kg self) ent (extract_entity_is_node _ _ _ Hent))
    as [attrs [_ Hty]].
  set (entity_type := match get attrs (py "label") with
                      | Some kind => kind
                      | None => VStr (py "Unknown")
                      end) in *.
  exists entity_type.
  destruct (classify_ok self query entity_type) as [ic Hic].
  exists ic. split; [exact Hty|]. split; [exact Hic|].
  unfold interpret. rewrite Hent, Hty. cbn [bind]. rewrite Hic. reflexivity.
Qed.

(** C3: [interpret] raises exactly when the recognizer finds no entity,
    and then it raises the no-entity error and nothing else; [execute]
    returns a result on every well-formed plan: over any graph whose
    three dictionaries are consistent, as networkx keeps them, hence over
    every graph built by the loader or by the helpers. *)
Theorem interpreter_is_the_only_point_of_failure :
  (forall self query,
      (exists e, interpret self query = Raise e) <->
      _extract_entity self query = None) /\
  (forall self query e,
      interpret self query = Raise e -> e = no_entity_error) /\
  (forall self plan,
      graph_ok (self_G self) = true ->
      well_formed (self_G self) plan ->
      exists res, execute self plan = Ok res) /\
  (forall raw plan,
      well_formed (G (from_graphml raw)) plan ->
      exists res, execute (GraphExecutor_init (from_graphml raw)) plan = Ok res) /\
  (forall calls plan,
      well_formed (G (assemble calls)) plan ->
      exists res, execute (GraphExecutor_init (assemble calls)) plan = Ok res).
Proof.
  split; [|split; [|split; [|split]]].
  - intros self query. split.
    + intros [e He].
      destruct (_extract_entity self query) as [ent|] eqn:Hent; [|reflexivity].
      destruct (interpret_found self query ent Hent) as [ty [ic [_ [_ Hok]]]].
      congruence.
    + intros Hnone. unfold interpret. rewrite Hnone. now eexists.
  - intros self query e He.
    destruct (_extract_entity self query) as [ent|] eqn:Hent.
    + destruct (interpret_found self query ent Hent) as [ty [ic [_ [_ Hok]]]].
      congruence.
    + unfold interpret in He. rewrite Hent in He. now injection He as <-.
  - intros self plan Hok _.
    exact (execute_from_ok self (start_type plan) (relation_chain plan)
             [start_entity plan] Hok).
  - intros raw plan _. apply execute_total_on_built_graphs.
    left. now exists raw.
  - intros calls plan _. apply execute_total_on_built_graphs.
    right. now exists calls.
Qed.

Lemma interpreter_is_the_only_point_of_failure_witness :
  interpret InterpreterSamples.typed_interpreter (py "asdkfjasldkf")
    = Raise no_entity_error /\
  exists res,
    execute PlanSamples.xy_executor PlanSamples.no_team_plan = Ok res.
Proof.
  split.
  - reflexivity.
  - apply (proj1 (proj2 (proj2 interpreter_is_the_only_point_of_failure))
             PlanSamples.xy_executor PlanSamples.no_team_plan).
    + reflexivity.
    + split; [reflexivity | discriminate].
Defined.

End Interpreter.

Section Dispatch.

Lemma same_but_model_extract (a b : QueryInterpreter) (query : pystr) :
  same_but_model a b -> _extract_entity a query = _extract_entity b query.
Proof.
  intros [Hkg Hnlp].
  unfold _extract_entity, spacy_pass, fallback_pass. now rewrite Hkg, Hnlp.
Qed.

(** [interpret] when the entity type settles the intent by itself. *)
Lemma interpret_forced (self : QueryInterpreter) (query ent : pystr)
    (entity_type : value) (intent : pystr) (chain : list pystr) :
  _extract_entity self query = Some ent ->
  node_type (kg self) ent = Ok entity_type ->
  classify self query entity_type = Ok (intent, chain) ->
  interpret self query =
    Ok {| start_entity := ent;
          start_type := entity_type;
          relation_chain := chain;
          target_type := target_type_of intent |}.
Proof.
  intros Hent Hty Hic. unfold interpret.
  rewrite Hent, Hty. cbn [bind]. rewrite Hic. reflexivity.
Qed.

(** C4: for an entity of kind Gene, Power or Team the intent and the
    chain are fixed by the kind alone - gene_power with [CONFERS],
    power_character with [POSSESSES_POWER], team_character with
    [MEMBER_OF] - whatever the question says and whatever the embedding
    model is: the plan is the same under any other model. *)
Theorem forced_dispatch_by_entity_kind
    (self : QueryInterpreter) (query entity : pystr) :
  _extract_entity self query = Some entity ->
  (node_type (kg self) entity = Ok (VStr (py "Gene")) ->
     classify self query (VStr (py "Gene"))
       = Ok (py "gene_power", [py "CONFERS"]) /\
     interpret self query =
       Ok {| start_entity := entity; start_type := VStr (py "Gene");
             relation_chain := [py "CONFERS"]; target_type := py "Power" |}) /\
  (node_type (kg self) entity = Ok (VStr (py "Power")) ->
     classify self query (VStr (py "Power"))
       = Ok (py "power_character", [py "POSSESSES_POWER"]) /\
     interpret self query =
       Ok {| start_entity := entity; start_type := VStr (py "Power");
             relation_chain := [py "POSSESSES_POWER"];
             target_type := py "Character" |}) /\
  (node_type (kg self) entity = Ok (VStr (py "Team")) ->
     classify self query (VStr (py "Team"))
       = Ok (py "team_character", [py "MEMBER_OF"]) /\
     interpret self query =
       Ok {| start_entity := entity; start_type := VStr (py "Team");
             relation_chain := [py "MEMBER_OF"];
             target_type := py "Character" |}) /\
  (forall other kind,
     same_but_model self other ->
     node_type (kg self) entity = Ok (VStr kind) ->
     In kind [py "Gene"; py "Power"; py "Team"] ->
     interpret other query = interpret self query).
Proof.
  intros Hent.
  assert (Hgene : forall s : QueryInterpreter, classify s query (VStr (py "Gene"))
                    = Ok (py "gene_power", [py "CONFERS"])) by reflexivity.
  assert (Hpower : forall s : QueryInterpreter, classify s query (VStr (py "Power"))
                     = Ok (py "power_character", [py "POSSESSES_POWER"]))
    by reflexivity.
  assert (Hteam : forall s : QueryInterpreter, classify s query (VStr (py "Team"))
                    = Ok (py "team_character", [py "MEMBER_OF"])) by reflexivity.
  split; [|split; [|split]].
  - intros Hty. split; [apply Hgene|].
    now rewrite (interpret_forced self query entity _ _ _ Hent Hty (Hgene self)).
  - intros Hty. split; [apply Hpower|].
    now rewrite (interpret_forced self query entity _ _ _ Hent Hty (Hpower self)).
  - intros Hty. split; [apply Hteam|].
    now rewrite (interpret_forced self query entity _ _ _ Hent Hty (Hteam self)).
  - intros other kind Hsame Hty Hkind.
    assert (Hent' : _extract_entity other query = Some entity)
      by (now rewrite <- (same_but_model_extract self other query Hsame)).
    assert (Hty' : node_type (kg other) entity = Ok (VStr kind))
      by (destruct Hsame as [<- _]; exact Hty).
    destruct Hkind as [<-|[<-|[<-|[]]]].
    + rewrite (interpret_forced other query entity _ _ _ Hent' Hty' (Hgene other)).
      now rewrite (interpret_forced self query entity _ _ _ Hent Hty (Hgene self)).
    + rewrite (interpret_forced other query entity _ _ _ Hent' Hty' (Hpower other)).
      now rewrite (interpret_forced self query entity _ _ _ Hent Hty (Hpower self)).
    + rewrite (interpret_forced other query entity _ _ _ Hent' Hty' (Hteam other)).
      now rewrite (interpret_forced self query entity _ _ _ Hent Hty (Hteam self)).
Qed.

Lemma forced_dispatch_by_entity_kind_witness :
  interpret InterpreterSamples.typed_interpreter
    (py "Which team fights with the Regenerative Mutation?")
  = Ok {| start_entity := py "Regenerative Mutation";
          start_type := VStr (py "Gene");
          relation_chain := [py "CONFERS"]; target_type := py "Power" |}.
Proof.
  apply (proj1 (forced_dispatch_by_entity_kind
                  InterpreterSamples.typed_interpreter
                  (py "Which team fights with the Regenerative Mutation?")
                  (py "Regenerative Mutation") eq_refl)).
  reflexivity.
Defined.

(** C9: for an entity of kind Character, a question whose lowercased
    text contains "gene", "mutation" or "mutant" gets the intent
    character_gene and the chain [HAS_MUTATION]; the embedding model is
    not consulted, so the plan is the same under any other model. *)
Theorem character_gene_by_keyword
    (self : QueryInterpreter) (query entity word : pystr) :
  _extract_entity self query = Some entity ->
  node_type (kg self) entity = Ok (VStr (py "Character")) ->
  In word [py "gene"; py "mutation"; py "mutant"] ->
  contains word (lower query) = true ->
  classify self query (VStr (py "Character"))
    = Ok (py "character_gene", [py "HAS_MUTATION"]) /\
  interpret self query =
    Ok {| start_entity := entity; start_type := VStr (py "Character");
          relation_chain := [py "HAS_MUTATION"]; target_type := py "Gene" |} /\
  (forall other, same_but_model self other ->
                 interpret other query = interpret self query).
Proof.
  intros Hent Hty Hword Hin.
  assert (Hic : forall s : QueryInterpreter, classify s query (VStr (py "Character"))
                  = Ok (py "character_gene", [py "HAS_MUTATION"])).
  { intros s. unfold classify.
    change (eq_str (VStr (py "Character")) (py "Gene")) with false.
    change (eq_str (VStr (py "Character")) (py "Power")) with false.
    change (eq_str (VStr (py "Character")) (py "Team")) with false.
    change (eq_str (VStr (py "Character")) (py "Character")) with true.
    cbv iota.
    replace (existsb (fun w => contains w (lower query))
               [py "gene"; py "mutation"; py "mutant"]) with true; [reflexivity|].
    symmetry. apply existsb_exists. exists word. now split. }
  split; [apply Hic|]. split.
  - now rewrite (interpret_forced self query entity _ _ _ Hent Hty (Hic self)).
  - intros other Hsame.
    assert (Hent' : _extract_entity other query = Some entity)
      by (now rewrite <- (same_but_model_extract self other query Hsame)).
    assert (Hty' : node_type (kg other) entity = Ok (VStr (py "Character")))
      by (destruct Hsame as [<- _]; exact Hty).
    rewrite (interpret_forced other query entity _ _ _ Hent' Hty' (Hic other)).
    now rewrite (interpret_forced self query entity _ _ _ Hent Hty (Hic self)).
Qed.

Lemma character_gene_by_keyword_witness :
  interpret InterpreterSamples.typed_interpreter
    (py "Is Wolverine a MUTANT?")
  = Ok {| start_entity := py "Wolverine";
          start_type := VStr (py "Character");
          relation_chain := [py "HAS_MUTATION"]; target_type := py "Gene" |}.
Proof.
  apply (proj1 (proj2 (character_gene_by_keyword
                         InterpreterSamples.typed_interpreter
                         (py "Is Wolverine a MUTANT?")
                         (py "Wolverine") (py "mutant")
                         eq_refl eq_refl
                         (or_intror (or_intror (or_introl eq_refl)))
                         eq_refl))).
Defined.

End Dispatch.

(* ------------------------------------------------------------------ *)
(** ** Entity recognition: dash and case variants *)
(* ------------------------------------------------------------------ *)

Section Recognition.

Lemma find_first {A} (p : A -> bool) (before after : list A) (x : A) :
  Forall (fun y => p y = false) before ->
  p x = true ->
  find p (before ++ x :: after) = Some x.
Proof.
  intros Hbefore Hx. induction Hbefore as [|y before Hy _ IH]; simpl.
  - now rewrite Hx.
  - now rewrite Hy.
Qed.

Lemma find_exists {A} (p : A -> bool) (l : list A) (x : A) :
  In x l -> p x = true ->
  exists y, find p l = Some y /\ p y = true.
Proof.
  intros Hin Hx. destruct (find p l) as [y|] eqn:Hfind.
  - exists y. split; [reflexivity|]. apply find_some in Hfind. tauto.
  - rewrite (find_none p l Hfind x Hin) in Hx. discriminate.
Qed.

(** The loop test succeeds for a name the question spells in any of
    the three ways, in any letter case, with no capital sigma. *)
Lemma entry_matches_variant (name pre written post : pystr) :
  has_capital_sigma written = false ->
  (lower written = lower name \/
   lower written = lower (replace NB_HYPHEN HYPHEN name) \/
   lower written = lower (replace HYPHEN NB_HYPHEN name)) ->
  entry_matches name (lower (pre ++ written ++ post)) = true.
Proof.
  intros Hsigma Hwritten. unfold entry_matches.
  pose proof (contains_lower pre written post Hsigma) as Hfound.
  rewrite !lower_replace in Hwritten by (now left + now right).
  destruct Hwritten as [H|[H|H]]; rewrite <- H, Hfound;
    rewrite ?orb_true_r; reflexivity.
Qed.

Lemma startswith_map (f : codepoint -> codepoint) (s p : pystr) :
  startswith s p = true -> startswith (map f s) (map f p) = true.
Proof.
  revert s. induction p as [|x p IH]; intros [|y s]; simpl; try easy.
  intros H. apply andb_true_iff in H. destruct H as [Hxy Hrest].
  apply N.eqb_eq in Hxy. subst y. now rewrite N.eqb_refl, IH.
Qed.

Lemma contains_map (f : codepoint -> codepoint) (p s : pystr) :
  contains p s = true -> contains (map f p) (map f s) = true.
Proof.
  induction s as [|y s IH]; simpl.
  - rewrite !orb_false_r. intros H. exact (startswith_map f [] p H).
  - intros H. apply orb_true_iff in H. apply orb_true_iff.
    destruct H as [H|H].
    + left. exact (startswith_map f (y :: s) p H).
    + right. exact (IH H).
Qed.

(** Swapping dashes twice: the last swap decides. *)
Lemma replace_absorb (a b : codepoint) (s : pystr) :
  a <> b -> replace a b (replace b a s) = replace a b s.
Proof.
  intros Hab. unfold replace. rewrite map_map. apply map_ext. intros c.
  destruct (N.eqb_spec c b) as [->|Hcb].
  - rewrite N.eqb_refl. destruct (N.eqb_spec b a); congruence.
  - reflexivity.
Qed.

Lemma replace_idem (a b : codepoint) (s : pystr) :
  a <> b -> replace a b (replace a b s) = replace a b s.
Proof.
  intros Hab. unfold replace. rewrite map_map. apply map_ext. intros c.
  destruct (N.eqb_spec c a) as [->|Hca].
  - destruct (N.eqb_spec b a); congruence.
  - destruct (N.eqb_spec c a); congruence.
Qed.

Lemma dashes_differ : NB_HYPHEN <> HYPHEN.
Proof. discriminate. Qed.

(** On a text written with ASCII hyphens only, the three tests of the
    loop amount to the middle one. *)
Lemma entry_matches_ascii (name text : pystr) :
  entry_matches name (replace NB_HYPHEN HYPHEN text)
  = contains (replace NB_HYPHEN HYPHEN (lower name))
             (replace NB_HYPHEN HYPHEN text).
Proof.
  unfold entry_matches.
  set (A := replace NB_HYPHEN HYPHEN). set (T := replace HYPHEN NB_HYPHEN).
  destruct (contains (A (lower name)) (A text)) eqn:Hmid.
  - now rewrite orb_true_r.
  - rewrite orb_false_r.
    destruct (contains (lower name) (A text)) eqn:H1.
    + apply (contains_map (fun c => if N.eqb c NB_HYPHEN then HYPHEN else c)) in H1.
      change (contains (A (lower name)) (A (A text)) = true) in H1.
      unfold A in H1. rewrite replace_idem in H1 by exact dashes_differ.
      fold A in H1. congruence.
    + destruct (contains (T (lower name)) (A text)) eqn:H3; [|reflexivity].
      apply (contains_map (fun c => if N.eqb c NB_HYPHEN then HYPHEN else c)) in H3.
      change (contains (A (T (lower name))) (A (A text)) = true) in H3.
      unfold A, T in H3.
      rewrite replace_idem, replace_absorb in H3 by exact dashes_differ.
      fold A in H3. congruence.
Qed.

(** On a text written with typographic dashes only, they amount to the
    last one. *)
Lemma entry_matches_typographic (name text : pystr) :
  entry_matches name (replace HYPHEN NB_HYPHEN text)
  = contains (replace HYPHEN NB_HYPHEN (lower name))
             (replace HYPHEN NB_HYPHEN text).
Proof.
  unfold entry_matches.
  set (A := replace NB_HYPHEN HYPHEN). set (T := replace HYPHEN NB_HYPHEN).
  assert (Hne : HYPHEN <> NB_HYPHEN) by discriminate.
  destruct (contains (T (lower name)) (T text)) eqn:Hlast.
  - now rewrite orb_true_r.
  - rewrite orb_false_r.
    destruct (contains (lower name) (T text)) eqn:H1.
    + apply (contains_map (fun c => if N.eqb c HYPHEN then NB_HYPHEN else c)) in H1.
      change (contains (T (lower name)) (T (T text)) = true) in H1.
      unfold T in H1. rewrite replace_idem in H1 by exact Hne.
      fold T in H1. congruence.
    + destruct (contains (A (lower name)) (T text)) eqn:H2; [|reflexivity].
      apply (contains_map (fun c => if N.eqb c HYPHEN then NB_HYPHEN else c)) in H2.
      change (contains (T (A (lower name))) (T (T text)) = true) in H2.
      unfold A, T in H2.
      rewrite replace_idem, replace_absorb in H2 by exact Hne.
      fold T in H2. congruence.
Qed.

(** A node matches the ASCII spelling of a text exactly when it matches
    the typographic spelling. *)
Lemma entry_matches_swap (name text : pystr) :
  entry_matches name (replace NB_HYPHEN HYPHEN text)
  = entry_matches name (replace HYPHEN NB_HYPHEN text).
Proof.
  rewrite entry_matches_ascii, entry_matches_typographic.
  assert (Hne : HYPHEN <> NB_HYPHEN) by discriminate.
  set (A := replace NB_HYPHEN HYPHEN). set (T := replace HYPHEN NB_HYPHEN).
  destruct (contains (T (lower name)) (T text)) eqn:HT.
  - apply (contains_map (fun c => if N.eqb c NB_HYPHEN then HYPHEN else c)) in HT.
    change (contains (A (T (lower name))) (A (T text)) = true) in HT.
    unfold A, T in HT. rewrite !replace_absorb in HT by exact dashes_differ.
    exact HT.
  - destruct (contains (A (lower name)) (A text)) eqn:HA; [|reflexivity].
    apply (contains_map (fun c => if N.eqb c HYPHEN then NB_HYPHEN else c)) in HA.
    change (contains (T (A (lower name))) (T (A text)) = true) in HA.
    unfold A, T in HA. rewrite !replace_absorb in HA by exact Hne.
    fold T in HA. congruence.
Qed.

Lemma find_ext {A} (p q : A -> bool) (l : list A) :
  (forall x, p x = q x) -> find p l = find q l.
Proof.
  intros Hpq. induction l as [|x l IH]; simpl; [reflexivity|].
  now rewrite Hpq, IH.
Qed.

(** The pass answers the same for a question spelled throughout with
    ASCII hyphens and for the same question spelled with typographic
    dashes. *)
Lemma fallback_pass_swap (self : QueryInterpreter) (query : pystr) :
  fallback_pass self (replace NB_HYPHEN HYPHEN query)
  = fallback_pass self (replace HYPHEN NB_HYPHEN query).
Proof.
  unfold fallback_pass. apply find_ext. intros node_name.
  rewrite !lower_replace by (now left + now right).
  apply entry_matches_swap.
Qed.




End Recognition.

(* ------------------------------------------------------------------ *)
(** ** Loader: relation labels *)
(* ------------------------------------------------------------------ *)

Section Loader.
Import Dict DictFacts.

Lemma get_default_set {V} (d : dict V) (k k' : pystr) (v default : V) :
  get_default (set d k v) k' default
  = if str_eqb k k' then v else get_default d k' default.
Proof.
  unfold get_default. rewrite get_set. destruct (str_eqb k k'); reflexivity.
Qed.

Lemma edge_data_empty (u v : pystr) : edge_data nx.empty u v = [].
Proof. reflexivity. Qed.

(** Adding an empty adjacency entry for an absent node changes no edge
    list. *)
Lemma fresh_entry (adj : nx.adjacency) (n u : pystr) :
  mem adj n = false ->
  get_default (set adj n []) u [] = get_default adj u [].
Proof.
  intros Hfresh. rewrite get_default_set.
  destruct (str_eqb n u) eqn:E; [|reflexivity].
  apply str_eqb_eq in E. subst u.
  unfold get_default. unfold mem in Hfresh.
  destruct (get adj n); [discriminate | reflexivity].
Qed.

Lemma edge_data_add_node (g : nx.MultiDiGraph) (n : pystr) (attr : attr_dict)
    (u v : pystr) :
  edge_data (nx.add_node g n attr) u v = edge_data g u v.
Proof.
  unfold edge_data, nx.add_node.
  destruct (mem (nx._succ g) n) eqn:Hn; simpl; [reflexivity|].
  now rewrite fresh_entry.
Qed.

Lemma edge_data_touch (g : nx.MultiDiGraph) (n u v : pystr) :
  edge_data (nx.touch g n) u v = edge_data g u v.
Proof.
  unfold edge_data, nx.touch.
  destruct (mem (nx._succ g) n) eqn:Hn; simpl; [reflexivity|].
  now rewrite fresh_entry.
Qed.

(** [add_edge] appends to the list of the pair it names and leaves every
    other pair alone. *)
Lemma edge_data_add_edge (g : nx.MultiDiGraph) (s d : pystr) (attr : attr_dict)
    (u v : pystr) :
  edge_data (nx.add_edge g s d attr) u v
  = if str_eqb s u && str_eqb d v
    then edge_data g s d ++ [update [] attr]
    else edge_data g u v.
Proof.
  rewrite <- (edge_data_touch g s s d), <- (edge_data_touch g s u v).
  rewrite <- (edge_data_touch (nx.touch g s) d s d).
  rewrite <- (edge_data_touch (nx.touch g s) d u v).
  set (g1 := nx.touch (nx.touch g s) d).
  unfold edge_data, nx.add_edge. fold g1. cbn [nx._succ].
  rewrite get_default_set.
  destruct (str_eqb s u) eqn:Hsu; cbn [andb]; [|reflexivity].
  apply str_eqb_eq in Hsu. subst u.
  rewrite get_default_set.
  destruct (str_eqb d v) eqn:Hdv; [|reflexivity].
  unfold get_default at 2.
  destruct (get (get_default (nx._succ g1) s []) d); reflexivity.
Qed.

Lemma edge_data_nodes (nodes : list (pystr * attr_dict)) (g : nx.MultiDiGraph)
    (u v : pystr) :
  edge_data
    (fold_left (fun g (na : pystr * attr_dict) => nx.add_node g (fst na) (snd na))
       nodes g) u v
  = edge_data g u v.
Proof.
  revert g. induction nodes as [|[n a] nodes IH]; intros g; simpl.
  - reflexivity.
  - now rewrite IH, edge_data_add_node.
Qed.

Lemma edge_data_edges (edges : list nx.edge) (g : nx.MultiDiGraph) (u v : pystr) :
  edge_data
    (fold_left
       (fun g (e : nx.edge) =>
          let '(src, dst, attrs) := e in
          let relation := resolve_relation attrs in
          nx.add_edge g src dst [(py "relation", relation)])
       edges g) u v
  = edge_data g u v
    ++ map (fun attrs => [(py "relation", resolve_relation attrs)])
         (map (fun e : nx.edge => snd e)
            (filter
               (fun e : nx.edge =>
                  str_eqb (fst (fst e)) u && str_eqb (snd (fst e)) v)
               edges)).
Proof.
  revert g. induction edges as [|[[s d] attrs] edges IH]; intros g.
  - simpl. now rewrite app_nil_r.
  - cbn [fold_left filter fst snd]. rewrite IH, edge_data_add_edge.
    destruct (str_eqb s u && str_eqb d v) eqn:Hsd.
    + apply andb_true_iff in Hsd. destruct Hsd as [Hs Hd].
      apply str_eqb_eq in Hs. apply str_eqb_eq in Hd. subst s d.
      cbn [map snd]. now rewrite <- app_assoc.
    + reflexivity.
Qed.

(** The edges from [u] to [v] in the loaded graph are the source edges
    from [u] to [v], in order, each carrying its resolved relation as its
    only attribute. *)
Lemma from_graphml_edge_data (raw : nx.RawGraph) (u v : pystr) :
  edge_data (G (from_graphml raw)) u v
  = map (fun attrs => [(py "relation", resolve_relation attrs)])
      (raw_edge_attrs raw u v).
Proof.
  unfold from_graphml, raw_edge_attrs. cbn [G].
  rewrite edge_data_edges, edge_data_nodes. cbn [KnowledgeGraph_init G].
  rewrite edge_data_empty. cbn [app].
  destruct (nx.is_directed raw); reflexivity.
Qed.

Lemma resolve_relation_first_truthy (attrs : attr_dict) :
  resolve_relation attrs = or_sentinel (first_truthy attrs candidate_names).
Proof.
  unfold resolve_relation, candidate_names, py_or. cbn [first_truthy].
  destruct (get attrs (py "relation")) as [v1|];
    [destruct (truthy v1); [reflexivity|]|];
    (destruct (get attrs (py "label")) as [v2|];
       [destruct (truthy v2); [reflexivity|]|]);
    (destruct (get attrs (py "type")) as [v3|];
       [destruct (truthy v3); [reflexivity|]|]);
    (destruct (get attrs (py "name")) as [v4|];
       [destruct (truthy v4)|]); reflexivity.
Qed.

(** C5, as stated, fails: an edge whose relation is stored only under
    "type", with the integer value 0, is loaded with the relation
    "RELATED_TO", although a candidate attribute is present. *)
Lemma falsy_type_value_is_dropped :
  first_present LoaderSamples.zero_type_attrs candidate_names = Some (VInt 0) /\
  resolve_relation LoaderSamples.zero_type_attrs = VStr (py "RELATED_TO") /\
  resolve_relation LoaderSamples.zero_type_attrs
    <> or_sentinel (first_present LoaderSamples.zero_type_attrs candidate_names) /\
  edge_data (G (from_graphml LoaderSamples.zero_type_raw)) (py "A") (py "B")
    = [[(py "relation", VStr (py "RELATED_TO"))]].
Proof.
  repeat split; try reflexivity. discriminate.
Qed.

(** C5, amended: the relation label of every loaded edge is the value of
    the first candidate attribute, in the order relation, label, type,
    name, that is present with a truthy value, and "RELATED_TO" when
    there is none; so a relation stored under "type" with a truthy value,
    with neither "relation" nor "label" present, is loaded as that
    value. *)
Theorem relation_is_first_truthy_candidate
    (raw : nx.RawGraph) (u v : pystr) (attrs : attr_dict) (kind : value) :
  get attrs (py "relation") = None ->
  get attrs (py "label") = None ->
  get attrs (py "type") = Some kind ->
  truthy kind = true ->
  resolve_relation attrs = kind /\
  (forall a, resolve_relation a = or_sentinel (first_truthy a candidate_names)) /\
  edge_data (G (from_graphml raw)) u v
    = map (fun a => [(py "relation", resolve_relation a)])
        (raw_edge_attrs raw u v).
Proof.
  intros Hrel Hlabel Htype Htruthy. split; [|split].
  - unfold resolve_relation, py_or.
    now rewrite Hrel, Hlabel, Htype, Htruthy.
  - exact resolve_relation_first_truthy.
  - apply from_graphml_edge_data.
Qed.

Lemma relation_is_first_truthy_candidate_witness :
  resolve_relation LoaderSamples.member_attrs = VStr (py "MEMBER_OF") /\
  edge_data (G (from_graphml LoaderSamples.member_raw))
    (py "Wolverine") (py "X-Men")
  = [[(py "relation", VStr (py "MEMBER_OF"))]].
Proof.
  destruct (relation_is_first_truthy_candidate
              LoaderSamples.member_raw (py "Wolverine") (py "X-Men")
              LoaderSamples.member_attrs (VStr (py "MEMBER_OF"))
              eq_refl eq_refl eq_refl eq_refl) as [Hres [_ Hedges]].
  split; [exact Hres|]. rewrite Hedges. reflexivity.
Defined.

End Loader.


(* ------------------------------------------------------------------ *)
(** ** What every constructed graph satisfies *)
(* ------------------------------------------------------------------ *)

Section GraphInvariant.
Import Dict DictFacts.

Lemma keys_set_mem {V} (d : dict V) (k : pystr) (v : V) :
  mem d k = true -> keys (set d k v) = keys d.
Proof.
  unfold mem, keys. induction d as [|[k0 v0] d IH]; simpl; [discriminate|].
  destruct (str_eqb k0 k) eqn:E; simpl.
  - reflexivity.
  - intros H. now rewrite IH.
Qed.

Lemma keys_set_fresh {V} (d : dict V) (k : pystr) (v : V) :
  mem d k = false -> keys (set d k v) = keys d ++ [k].
Proof.
  unfold mem, keys. induction d as [|[k0 v0] d IH]; simpl; [reflexivity|].
  destruct (str_eqb k0 k) eqn:E; simpl; [discriminate|].
  intros H. now rewrite IH.
Qed.

Lemma uniq_set {V} (d : dict V) (k : pystr) (v : V) :
  NoDup (keys d) -> NoDup (keys (set d k v)).
Proof.
  intros Hd. destruct (mem d k) eqn:Hk.
  - now rewrite keys_set_mem.
  - rewrite keys_set_fresh by exact Hk.
    apply NoDup_app; [exact Hd | repeat constructor; easy |].
    intros x Hx [<-|[]]. apply mem_keys in Hx. congruence.
Qed.

Lemma In_get_uniq {V} (d : dict V) (k : pystr) (v : V) :
  NoDup (keys d) -> In (k, v) d -> get d k = Some v.
Proof.
  unfold keys. induction d as [|[k0 v0] d IH]; simpl; [easy|].
  intros Hnd [Heq|Hin].
  - injection Heq as -> ->. now rewrite str_eqb_refl.
  - inversion Hnd as [|? ? Hnotin Hrest]; subst.
    destruct (str_eqb k0 k) eqn:E.
    + apply str_eqb_eq in E. subst k0. exfalso. apply Hnotin.
      change k with (fst (k, v)). now apply in_map.
    + now apply IH.
Qed.

Lemma get_default_uniq (adj : nx.adjacency) (u : pystr) :
  (forall n nbrs, get adj n = Some nbrs -> NoDup (keys nbrs)) ->
  NoDup (keys (get_default adj u [])).
Proof.
  intros H. unfold get_default.
  destruct (get adj u) as [nbrs|] eqn:E; [exact (H u nbrs E) | constructor].
Qed.

Lemma mem_false_default {V} (adj : dict (list V)) (n : pystr) :
  mem adj n = false -> get_default adj n [] = [].
Proof.
  unfold mem, get_default. now destruct (get adj n).
Qed.

Lemma graph_inv_empty : graph_inv nx.empty.
Proof.
  constructor; easy.
Qed.

(** An absent node enters with empty adjacency on both sides. *)
Lemma graph_inv_enter (g : nx.MultiDiGraph) (n : pystr) (attrs : attr_dict) :
  graph_inv g ->
  mem (nx._succ g) n = false ->
  graph_inv {| nx._node := set (nx._node g) n attrs;
               nx._succ := set (nx._succ g) n [];
               nx._pred := set (nx._pred g) n [] |}.
Proof.
  intros Hg Hn.
  assert (Hp : mem (nx._pred g) n = false).
  { destruct (mem (nx._pred g) n) eqn:E; [|reflexivity].
    now rewrite (inv_pred_succ Hg n E) in Hn. }
  pose proof (proj1 (graph_ok_iff g) (inv_ok Hg)) as [Hok1 Hok2].
  constructor; cbn [nx._node nx._succ nx._pred].
  - apply graph_ok_iff. cbn [nx._node nx._succ nx._pred].
    split; intros m; rewrite !mem_set; intros Hm;
      apply orb_true_iff in Hm; destruct Hm as [->|Hm]; auto using orb_true_r.
    + rewrite (Hok1 m Hm). apply orb_true_r.
    + rewrite (Hok2 m Hm). apply orb_true_r.
  - intros m. rewrite !mem_set. intros Hm.
    apply orb_true_iff in Hm. destruct Hm as [->|Hm]; [reflexivity|].
    rewrite (inv_succ_node Hg m Hm). apply orb_true_r.
  - intros m. rewrite !mem_set. intros Hm.
    apply orb_true_iff in Hm. destruct Hm as [->|Hm]; [reflexivity|].
    rewrite (inv_pred_succ Hg m Hm). apply orb_true_r.
  - intros u nbrs. rewrite get_set.
    destruct (str_eqb n u); [intros [= <-]; constructor | apply (inv_succ_uniq Hg)].
  - intros v nbrs. rewrite get_set.
    destruct (str_eqb n v); [intros [= <-]; constructor | apply (inv_pred_uniq Hg)].
  - intros u v. unfold pred_data, edge_data. cbn [nx._succ nx._pred].
    rewrite !fresh_entry by assumption. apply (inv_sync Hg).
  - intros u v. rewrite fresh_entry by assumption. intros Hv.
    rewrite mem_set, (inv_succ_nbr Hg u v Hv). apply orb_true_r.
  - intros u v. rewrite fresh_entry by assumption. intros Hu.
    rewrite mem_set, (inv_pred_nbr Hg u v Hu). apply orb_true_r.
Qed.

Lemma graph_inv_touch (g : nx.MultiDiGraph) (n : pystr) :
  graph_inv g -> graph_inv (nx.touch g n).
Proof.
  intros Hg. unfold nx.touch.
  destruct (mem (nx._succ g) n) eqn:Hn; cbn [negb].
  - exact Hg.
  - now apply graph_inv_enter.
Qed.

Lemma graph_inv_add_node (g : nx.MultiDiGraph) (n : pystr) (attr : attr_dict) :
  graph_inv g -> graph_inv (nx.add_node g n attr).
Proof.
  intros Hg. unfold nx.add_node.
  destruct (mem (nx._succ g) n) eqn:Hn; cbn [negb].
  - pose proof (proj1 (graph_ok_iff g) (inv_ok Hg)) as [Hok1 Hok2].
    constructor; cbn [nx._node nx._succ nx._pred];
      try solve [ apply Hg ].
    + apply graph_ok_iff. cbn [nx._node nx._succ nx._pred].
      split; [|exact Hok2]. intros m. rewrite mem_set. intros Hm.
      apply orb_true_iff in Hm. destruct Hm as [Hm|Hm]; [|now apply Hok1].
      apply str_eqb_eq in Hm. now subst m.
    + intros m Hm. rewrite mem_set, (inv_succ_node Hg m Hm). apply orb_true_r.
    + intros u v Hv. rewrite mem_set, (inv_succ_nbr Hg u v Hv). apply orb_true_r.
    + intros u v Hu. rewrite mem_set, (inv_pred_nbr Hg u v Hu). apply orb_true_r.
  - now apply graph_inv_enter.
Qed.

Lemma keys_set_incl {V} (d : dict V) (k k' : pystr) (v : V) :
  In k' (keys (set d k v)) -> k' = k \/ In k' (keys d).
Proof. intros H. exact (proj1 (keys_set d k k' v) H). Qed.

(** Linking two nodes keeps the invariant. *)
Lemma graph_inv_link (g : nx.MultiDiGraph) (u v : pystr) (attr : attr_dict) :
  graph_inv g ->
  mem (nx._succ g) u = true ->
  mem (nx._succ g) v = true ->
  graph_inv (link g u v attr).
Proof.
  intros Hg Hu Hv.
  pose proof (proj1 (graph_ok_iff g) (inv_ok Hg)) as [Hok1 Hok2].
  assert (Hkd : match get (get_default (nx._succ g) u []) v with
                | Some kd0 => kd0 ++ [update [] attr]
                | None => [update [] attr]
                end = edge_data g u v ++ [update [] attr]).
  { unfold edge_data.
    generalize (get_default (nx._succ g) u []). intros nbrs.
    unfold get_default. now destruct (get nbrs v). }
  unfold link. rewrite Hkd.
  constructor; cbn [nx._node nx._succ nx._pred].
  - apply graph_ok_iff. cbn [nx._node nx._succ nx._pred].
    split; intros m; rewrite ?mem_set; intros Hm.
    + rewrite (Hok1 m Hm). apply orb_true_r.
    + apply orb_true_iff in Hm. destruct Hm as [Hm|Hm].
      * apply str_eqb_eq in Hm. subst m. rewrite (Hok2 u Hu). apply orb_true_r.
      * rewrite (Hok2 m Hm). apply orb_true_r.
  - intros m. rewrite mem_set. intros Hm.
    apply orb_true_iff in Hm. destruct Hm as [Hm|Hm].
    + apply str_eqb_eq in Hm. subst m. now apply (inv_succ_node Hg).
    + now apply (inv_succ_node Hg).
  - intros m. rewrite !mem_set. intros Hm.
    apply orb_true_iff in Hm. destruct Hm as [Hm|Hm].
    + apply str_eqb_eq in Hm. subst m. rewrite Hv. apply orb_true_r.
    + rewrite (inv_pred_succ Hg m Hm). apply orb_true_r.
  - intros u' nbrs. rewrite get_set.
    destruct (str_eqb u u'); [|apply (inv_succ_uniq Hg)].
    intros [= <-]. apply uniq_set, get_default_uniq, (inv_succ_uniq Hg).
  - intros v' nbrs. rewrite get_set.
    destruct (str_eqb v v'); [|apply (inv_pred_uniq Hg)].
    intros [= <-]. apply uniq_set, get_default_uniq, (inv_pred_uniq Hg).
  - intros u' v'. unfold pred_data, edge_data. cbn [nx._succ nx._pred].
    rewrite !get_default_set.
    destruct (str_eqb v v') eqn:Evv, (str_eqb u u') eqn:Euu;
      try (apply str_eqb_eq in Evv; subst v');
      try (apply str_eqb_eq in Euu; subst u');
      rewrite ?get_default_set, ?str_eqb_refl, ?Evv, ?Euu;
      try reflexivity; apply (inv_sync Hg).
  - intros u' v'. rewrite get_default_set.
    destruct (str_eqb u u'); [|apply (inv_succ_nbr Hg)].
    intros Hin. apply keys_set_incl in Hin. destruct Hin as [->|Hin].
    + now apply (inv_succ_node Hg).
    + exact (inv_succ_nbr Hg u v' Hin).
  - intros u' v'. rewrite get_default_set.
    destruct (str_eqb v v'); [|apply (inv_pred_nbr Hg)].
    intros Hin. apply keys_set_incl in Hin. destruct Hin as [->|Hin].
    + now apply (inv_succ_node Hg).
    + exact (inv_pred_nbr Hg u' v Hin).
Qed.

Lemma add_edge_link (g : nx.MultiDiGraph) (u v : pystr) (attr : attr_dict) :
  nx.add_edge g u v attr = link (nx.touch (nx.touch g u) v) u v attr.
Proof. reflexivity. Qed.

Lemma graph_inv_add_edge (g : nx.MultiDiGraph) (u v : pystr) (attr : attr_dict) :
  graph_inv g -> graph_inv (nx.add_edge g u v attr).
Proof.
  intros Hg. rewrite add_edge_link.
  apply graph_inv_link.
  - now apply graph_inv_touch, graph_inv_touch.
  - now rewrite !touch_succ, str_eqb_refl, orb_true_r.
  - now rewrite touch_succ, str_eqb_refl.
Qed.

Lemma constructed_inv (g : nx.MultiDiGraph) : constructed g -> graph_inv g.
Proof.
  induction 1; auto using graph_inv_empty, graph_inv_add_node, graph_inv_add_edge.
Qed.

Lemma constructed_call (kg : KnowledgeGraph) (c : helper_call) :
  constructed (G kg) -> constructed (G (call kg c)).
Proof. destruct c; simpl; intros H; now constructor. Qed.

Lemma constructed_assemble (cs : list helper_call) :
  constructed (G (assemble cs)).
Proof.
  unfold assemble.
  assert (H : forall kg, constructed (G kg) ->
                         constructed (G (fold_left call cs kg))).
  { induction cs as [|c cs IH]; intros kg Hkg; simpl.
    - exact Hkg.
    - apply IH. now apply constructed_call. }
  apply H. constructor.
Qed.

Lemma constructed_from_graphml (raw : nx.RawGraph) :
  constructed (G (from_graphml raw)).
Proof.
  unfold from_graphml. cbn [G].
  set (raw' := if negb (nx.is_directed raw) then nx.to_directed raw else raw).
  assert (Hnodes : forall nodes g, constructed g ->
            constructed
              (fold_left
                 (fun g (na : pystr * attr_dict) => nx.add_node g (fst na) (snd na))
                 nodes g)).
  { induction nodes as [|na nodes IH]; intros g Hg; simpl.
    - exact Hg.
    - apply IH. now constructor. }
  assert (Hedges : forall edges g, constructed g ->
            constructed
              (fold_left
                 (fun g (e : nx.edge) =>
                    let '(src, dst, attrs) := e in
                    let relation := resolve_relation attrs in
                    nx.add_edge g src dst [(py "relation", relation)])
                 edges g)).
  { induction edges as [|[[s d] a] edges IH]; intros g Hg; simpl.
    - exact Hg.
    - apply IH. now constructor. }
  apply Hedges, Hnodes. constructor.
Qed.

End GraphInvariant.

(* ------------------------------------------------------------------ *)
(** ** What a traversal returns, in terms of edges *)
(* ------------------------------------------------------------------ *)

Section TraversalMeaning.
Import Dict DictFacts.

Lemma fromkeys_single (n : pystr) : nx.fromkeys [n] = [n].
Proof. reflexivity. Qed.

Lemma edge_view_node (g : nx.MultiDiGraph) (adj : nx.adjacency)
    (report : pystr -> pystr -> attr_dict -> nx.edge) (n : pystr)
    (nbrs : dict nx.keydict) :
  nx.has_node g n = true ->
  get adj n = Some nbrs ->
  nx.edge_view g adj report n
  = Ok (flat_map
          (fun nk : pystr * nx.keydict => map (report n (fst nk)) (snd nk))
          nbrs).
Proof.
  intros Hn Hget. unfold nx.edge_view, nx.nbunch_iter. rewrite Hn.
  rewrite fromkeys_single. cbn [comprehension]. unfold subscript.
  rewrite Hget. cbn [bind flat_map fst snd]. now rewrite app_nil_r.
Qed.

Lemma collect_matching (pick : nx.edge -> pystr)
    (report : pystr -> attr_dict -> nx.edge) (rel : pystr)
    (nbrs : dict nx.keydict) :
  (forall k dd, pick (report k dd) = k) ->
  (forall k dd, snd (report k dd) = dd) ->
  map pick
    (filter (fun e : nx.edge => relation_is (snd e) rel)
       (flat_map (fun nk : pystr * nx.keydict => map (report (fst nk)) (snd nk))
          nbrs))
  = matching nbrs rel.
Proof.
  intros Hpick Hdata. unfold matching.
  induction nbrs as [|[k kd] nbrs IH]; [reflexivity|].
  cbn [flat_map fst snd]. rewrite filter_app, map_app, IH. f_equal.
  clear IH. induction kd as [|dd kd IHkd]; [reflexivity|].
  cbn [map filter]. rewrite Hdata.
  destruct (relation_is dd rel); cbn [map]; now rewrite ?Hpick, IHkd.
Qed.

Lemma mem_get {V} (d : dict V) (k : pystr) :
  mem d k = true -> exists v, get d k = Some v /\ get_default d k v = v.
Proof.
  unfold mem, get_default. destruct (get d k) as [v|]; [|discriminate].
  intros _. now exists v.
Qed.

(** On a node of a constructed graph, the contribution to a hop is read
    off the node's neighbour dictionary. *)
Lemma neighbours_node (g : nx.MultiDiGraph) (d : direction) (rel n : pystr) :
  graph_inv g ->
  nx.has_node g n = true ->
  neighbours g d rel n = Ok (matching (neighbour_dict g d n) rel).
Proof.
  intros Hg Hn.
  pose proof (graph_ok_succ g n (inv_ok Hg) Hn) as Hs.
  pose proof (graph_ok_pred g n (inv_ok Hg) Hs) as Hp.
  destruct d; cbn [neighbours neighbour_dict].
  - unfold nx.in_edges. unfold mem in Hp. unfold get_default.
    destruct (get (nx._pred g) n) as [nbrs|] eqn:E; [|discriminate].
    rewrite (edge_view_node g _ _ n nbrs Hn E). cbn [bind]. f_equal.
    exact (collect_matching (fun e => fst (fst e)) (fun k dd => (k, n, dd))
             rel nbrs (fun _ _ => eq_refl) (fun _ _ => eq_refl)).
  - unfold nx.out_edges. unfold mem in Hs. unfold get_default.
    destruct (get (nx._succ g) n) as [nbrs|] eqn:E; [|discriminate].
    rewrite (edge_view_node g _ _ n nbrs Hn E). cbn [bind]. f_equal.
    exact (collect_matching (fun e => snd (fst e)) (fun k dd => (n, k, dd))
             rel nbrs (fun _ _ => eq_refl) (fun _ _ => eq_refl)).
Qed.

Lemma In_matching (nbrs : dict nx.keydict) (rel m : pystr) :
  In m (matching nbrs rel) -> In m (keys nbrs).
Proof.
  unfold matching, keys. intros H. apply in_flat_map in H.
  destruct H as [[k kd] [Hin Hm]]. apply in_map_iff in Hm.
  destruct Hm as [dd [<- _]]. change k with (fst (k, kd)). now apply in_map.
Qed.

Lemma occurrences_const (k m : pystr) (l : list attr_dict) :
  occurrences (map (fun _ => k) l) m
  = if str_eqb k m then List.length l else 0.
Proof.
  unfold occurrences. induction l as [|x l IH]; simpl.
  - now destruct (str_eqb k m).
  - destruct (pystr_eq_dec k m) as [->|Hne].
    + rewrite IH, str_eqb_refl. reflexivity.
    + rewrite IH. now rewrite (str_eqb_neq _ _ Hne).
Qed.

(** Each neighbour is listed once per matching edge. *)
Lemma occurrences_matching (nbrs : dict nx.keydict) (rel m : pystr) :
  NoDup (keys nbrs) ->
  occurrences (matching nbrs rel) m
  = List.length
      (filter (fun data => relation_is data rel) (get_default nbrs m [])).
Proof.
  unfold matching. induction nbrs as [|[k kd] nbrs IH]; intros Hnd.
  - reflexivity.
  - cbn [flat_map fst snd]. unfold occurrences in *.
    rewrite count_occ_app.
    fold (occurrences (map (fun _ : attr_dict => k)
                         (filter (fun data => relation_is data rel) kd)) m).
    rewrite occurrences_const.
    inversion Hnd as [|? ? Hnotin Hrest]; subst.
    unfold get_default. cbn [get].
    destruct (str_eqb k m) eqn:E.
    + apply str_eqb_eq in E. subst m.
      rewrite (proj1 (count_occ_not_In pystr_eq_dec _ k)); [lia|].
      intros Hin. apply Hnotin. exact (In_matching nbrs rel k Hin).
    + rewrite (IH Hrest). reflexivity.
Qed.

Lemma neighbour_dict_uniq (g : nx.MultiDiGraph) (d : direction) (n : pystr) :
  graph_inv g -> NoDup (keys (neighbour_dict g d n)).
Proof.
  intros Hg. destruct d; cbn [neighbour_dict]; apply get_default_uniq.
  - apply (inv_pred_uniq Hg).
  - apply (inv_succ_uniq Hg).
Qed.

Lemma occurrences_neighbours (g : nx.MultiDiGraph) (d : direction)
    (rel n m : pystr) :
  graph_inv g ->
  occurrences (matching (neighbour_dict g d n) rel) m = hop_count g d rel n m.
Proof.
  intros Hg. rewrite occurrences_matching by now apply neighbour_dict_uniq.
  destruct d; cbn [neighbour_dict hop_count]; unfold edge_count.
  - now rewrite <- (inv_sync Hg m n).
  - reflexivity.
Qed.

Lemma In_occurrences (l : list pystr) (m : pystr) :
  In m l <-> 0 < occurrences l m.
Proof. unfold occurrences. apply count_occ_In. Qed.

Lemma matching_are_nodes (g : nx.MultiDiGraph) (d : direction) (rel n m : pystr) :
  graph_inv g ->
  In m (matching (neighbour_dict g d n) rel) -> nx.has_node g m = true.
Proof.
  intros Hg Hin. apply In_matching in Hin. unfold nx.has_node.
  destruct d; cbn [neighbour_dict] in Hin.
  - exact (inv_pred_nbr Hg m n Hin).
  - exact (inv_succ_nbr Hg n m Hin).
Qed.

(** One hop from a working set of nodes. *)
Lemma expand_nodes (g : nx.MultiDiGraph) (d : direction)
    (nodes : list pystr) (rel : pystr) :
  graph_inv g ->
  Forall (fun n => nx.has_node g n = true) nodes ->
  expand g d nodes rel
  = Ok (flat_map (fun n => matching (neighbour_dict g d n) rel) nodes).
Proof.
  intros Hg Hnodes. unfold expand.
  assert (H : comprehension (neighbours g d rel) nodes
              = Ok (map (fun n => matching (neighbour_dict g d n) rel) nodes)).
  { induction Hnodes as [|n nodes Hn _ IH]; [reflexivity|].
    cbn [comprehension map]. rewrite (neighbours_node g d rel n Hg Hn).
    cbn [bind]. now rewrite IH. }
  rewrite H. cbn [bind]. now rewrite flat_map_concat_map.
Qed.

(** The whole loop from a working set of nodes: the result lists exactly
    the names reached from a member of the set, and they are nodes. *)
Lemma execute_from_reaches (self : GraphExecutor) (entity_type : value)
    (chain nodes : list pystr) :
  graph_inv (self_G self) ->
  Forall (fun n => nx.has_node (self_G self) n = true) nodes ->
  exists res,
    execute_from self entity_type nodes chain = Ok res /\
    Forall (fun n => nx.has_node (self_G self) n = true) res /\
    (forall m,
        In m res <->
        exists n, In n nodes /\
                  reaches (self_G self) (direction_of entity_type) n chain m).
Proof.
  intros Hg. revert nodes. unfold execute_from.
  induction chain as [|rel chain IH]; intros nodes Hnodes.
  - exists nodes. split; [reflexivity|]. split; [exact Hnodes|].
    intros m. cbn [reaches]. split.
    + intros Hm. now exists m.
    + now intros [n [Hn ->]].
  - cbn [for_each]. rewrite hop_expand.
    rewrite (expand_nodes _ _ nodes rel Hg Hnodes). cbn [bind].
    set (d := direction_of entity_type).
    set (next := flat_map (fun n => matching (neighbour_dict (self_G self) d n) rel)
                   nodes).
    assert (Hnext : Forall (fun n => nx.has_node (self_G self) n = true) next).
    { apply Forall_forall. intros m Hm. apply in_flat_map in Hm.
      destruct Hm as [n [_ Hm]].
      exact (matching_are_nodes (self_G self) d rel n m Hg Hm). }
    destruct (IH next Hnext) as [res [Hres [Hnodes' Hiff]]].
    exists res. split; [exact Hres|]. split; [exact Hnodes'|].
    intros m. rewrite Hiff. cbn [reaches]. split.
    + intros [mid [Hmid Hreach]]. apply in_flat_map in Hmid.
      destruct Hmid as [n [Hn Hmid]]. exists n. split; [exact Hn|].
      exists mid. split; [|exact Hreach].
      rewrite <- (occurrences_neighbours _ d rel n mid Hg).
      now apply In_occurrences.
    + intros [n [Hn [mid [Hcount Hreach]]]]. exists mid. split; [|exact Hreach].
      apply in_flat_map. exists n. split; [exact Hn|].
      apply In_occurrences.
      now rewrite (occurrences_neighbours _ d rel n mid Hg).
Qed.

End TraversalMeaning.

Section TraversalTheorems.
Import Dict DictFacts.

(** X1: On a constructed graph, a plan that starts at a node returns exactly
    the names that its relation chain reaches from the start entity -
    along outgoing edges, or along incoming ones when the start type is
    "Power" or "Team" - and every returned name is a node. *)
Theorem execute_returns_what_the_chain_reaches
    (self : GraphExecutor) (plan : Plan) :
  constructed (self_G self) ->
  nx.has_node (self_G self) (start_entity plan) = true ->
  exists res,
    execute self plan = Ok res /\
    Forall (fun n => nx.has_node (self_G self) n = true) res /\
    (forall m,
        In m res <->
        reaches (self_G self) (direction_of (start_type plan))
          (start_entity plan) (relation_chain plan) m).
Proof.
  intros Hc Hstart.
  destruct (execute_from_reaches self (start_type plan) (relation_chain plan)
              [start_entity plan] (constructed_inv _ Hc))
    as [res [Hres [Hnodes Hiff]]].
  - now repeat constructor.
  - exists res. split; [exact Hres|]. split; [exact Hnodes|].
    intros m. rewrite Hiff. split.
    + now intros [n [[<-|[]] Hreach]].
    + intros Hreach. exists (start_entity plan). split; [now left | exact Hreach].
Qed.

Lemma execute_returns_what_the_chain_reaches_witness :
  exists res,
    execute (GraphExecutor_init (assemble Samples.helper_calls))
      TraversalSamples.mutation_plan = Ok res /\
    In (py "Accelerated Healing") res.
Proof.
  destruct (execute_returns_what_the_chain_reaches
              (GraphExecutor_init (assemble Samples.helper_calls))
              TraversalSamples.mutation_plan
              (constructed_assemble Samples.helper_calls) eq_refl)
    as [res [Hres [_ Hiff]]].
  exists res. split; [exact Hres|]. apply Hiff.
  exists (py "Regenerative Mutation"). split; [vm_compute; lia|].
  exists (py "Accelerated Healing"). split; [vm_compute; lia | reflexivity].
Defined.

Lemma one_hop (self : GraphExecutor) (plan : Plan) (rel : pystr) :
  graph_inv (self_G self) ->
  nx.has_node (self_G self) (start_entity plan) = true ->
  relation_chain plan = [rel] ->
  execute self plan
  = Ok (matching
          (neighbour_dict (self_G self) (direction_of (start_type plan))
             (start_entity plan)) rel).
Proof.
  intros Hg Hstart Hchain. unfold execute. rewrite Hchain.
  cbn [for_each]. rewrite hop_expand, expand_nodes; [|exact Hg|now repeat constructor].
  cbn [bind flat_map]. now rewrite app_nil_r.
Qed.

(** X2: A one-hop plan lists every neighbour once per edge that carries the
    relation: parallel edges give repeated names, nothing is
    deduplicated and nothing is dropped. *)
Theorem one_hop_lists_a_name_once_per_edge
    (self : GraphExecutor) (plan : Plan) (rel : pystr) :
  constructed (self_G self) ->
  nx.has_node (self_G self) (start_entity plan) = true ->
  relation_chain plan = [rel] ->
  exists res,
    execute self plan = Ok res /\
    forall m,
      occurrences res m
      = hop_count (self_G self) (direction_of (start_type plan)) rel
          (start_entity plan) m.
Proof.
  intros Hc Hstart Hchain. pose proof (constructed_inv _ Hc) as Hg.
  eexists. split; [exact (one_hop self plan rel Hg Hstart Hchain)|].
  intros m. now apply occurrences_neighbours.
Qed.

Lemma one_hop_lists_a_name_once_per_edge_witness :
  exists res,
    execute (GraphExecutor_init TraversalSamples.doubled)
      TraversalSamples.member_plan = Ok res /\
    occurrences res (py "X-Men") = 2.
Proof.
  destruct (one_hop_lists_a_name_once_per_edge
              (GraphExecutor_init TraversalSamples.doubled)
              TraversalSamples.member_plan (py "MEMBER_OF")
              (constructed_assemble _) eq_refl eq_refl)
    as [res [Hres Hcount]].
  exists res. split; [exact Hres|]. rewrite Hcount. reflexivity.
Defined.

(** X3: Reverse lookup mirrors forward lookup: between two nodes of a
    constructed graph, a one-hop plan from [y] with a reversing start type
    lists [x] as often as a one-hop plan from [x] with any other start
    type lists [y]. *)
Theorem reverse_lookup_mirrors_forward_lookup
    (self : GraphExecutor) (x y rel ta tb : pystr) (forward_type reverse_type : value) :
  constructed (self_G self) ->
  nx.has_node (self_G self) x = true ->
  nx.has_node (self_G self) y = true ->
  direction_of forward_type = Outgoing ->
  direction_of reverse_type = Incoming ->
  exists fwd rev,
    execute self {| start_entity := x; start_type := forward_type;
                    relation_chain := [rel]; target_type := ta |} = Ok fwd /\
    execute self {| start_entity := y; start_type := reverse_type;
                    relation_chain := [rel]; target_type := tb |} = Ok rev /\
    occurrences fwd y = occurrences rev x /\
    (In y fwd <-> In x rev).
Proof.
  intros Hc Hx Hy Hf Hr. pose proof (constructed_inv _ Hc) as Hg.
  eexists. eexists.
  split; [exact (one_hop self
                   {| start_entity := x; start_type := forward_type;
                      relation_chain := [rel]; target_type := ta |}
                   rel Hg Hx eq_refl)|].
  split; [exact (one_hop self
                   {| start_entity := y; start_type := reverse_type;
                      relation_chain := [rel]; target_type := tb |}
                   rel Hg Hy eq_refl)|].
  cbn [start_type start_entity]. rewrite Hf, Hr.
  assert (Heq : occurrences (matching (neighbour_dict (self_G self) Outgoing x) rel) y
                = occurrences (matching (neighbour_dict (self_G self) Incoming y) rel) x).
  { now rewrite !occurrences_neighbours. }
  split; [exact Heq|]. now rewrite !In_occurrences, Heq.
Qed.

Lemma reverse_lookup_mirrors_forward_lookup_witness :
  exists fwd rev,
    execute (GraphExecutor_init TraversalSamples.doubled)
      {| start_entity := py "Wolverine"; start_type := VStr (py "Character");
         relation_chain := [py "MEMBER_OF"]; target_type := py "Team" |} = Ok fwd /\
    execute (GraphExecutor_init TraversalSamples.doubled)
      {| start_entity := py "X-Men"; start_type := VStr (py "Team");
         relation_chain := [py "MEMBER_OF"]; target_type := py "Character" |} = Ok rev /\
    occurrences fwd (py "X-Men") = occurrences rev (py "Wolverine").
Proof.
  destruct (reverse_lookup_mirrors_forward_lookup
              (GraphExecutor_init TraversalSamples.doubled)
              (py "Wolverine") (py "X-Men") (py "MEMBER_OF")
              (py "Team") (py "Character")
              (VStr (py "Character")) (VStr (py "Team"))
              (constructed_assemble _) eq_refl eq_refl eq_refl eq_refl)
    as [fwd [rev [Hf [Hr [Heq _]]]]].
  exists fwd, rev. now repeat split.
Defined.

End TraversalTheorems.

(* ------------------------------------------------------------------ *)
(** ** Helpers and loader: what they add and what they keep *)
(* ------------------------------------------------------------------ *)

Section Building.
Import Dict DictFacts.

Lemma relation_is_single (rel r : pystr) :
  relation_is [(py "relation", VStr rel)] r = str_eqb rel r.
Proof. reflexivity. Qed.

Lemma edge_count_add_relationship (kg : KnowledgeGraph) (src dst rel u v r : pystr) :
  edge_count (G (add_relationship kg src dst rel)) u v r
  = if str_eqb src u && str_eqb dst v && str_eqb rel r
    then S (edge_count (G kg) u v r)
    else edge_count (G kg) u v r.
Proof.
  unfold edge_count, add_relationship. cbn [G].
  rewrite edge_data_add_edge.
  destruct (str_eqb src u && str_eqb dst v) eqn:E; cbn [andb]; [|reflexivity].
  apply andb_true_iff in E. destruct E as [Hs Hd].
  apply str_eqb_eq in Hs. apply str_eqb_eq in Hd. subst u v.
  rewrite filter_app, length_app. cbn [update fold_left fst snd set filter].
  rewrite relation_is_single.
  destruct (str_eqb rel r); cbn [List.length]; lia.
Qed.

(** X4: Adding a relationship makes both endpoints nodes and adds one edge,
    which a one-hop plan then finds from either end; every other count of
    edges stays as it was. *)
Theorem add_relationship_is_found_from_both_ends
    (kg : KnowledgeGraph) (src dst rel ta tb : pystr)
    (forward_type reverse_type : value) :
  constructed (G kg) ->
  direction_of forward_type = Outgoing ->
  direction_of reverse_type = Incoming ->
  nx.has_node (G (add_relationship kg src dst rel)) src = true /\
  nx.has_node (G (add_relationship kg src dst rel)) dst = true /\
  (exists fwd,
      execute (GraphExecutor_init (add_relationship kg src dst rel))
        {| start_entity := src; start_type := forward_type;
           relation_chain := [rel]; target_type := ta |} = Ok fwd /\
      occurrences fwd dst = S (edge_count (G kg) src dst rel)) /\
  (exists rev,
      execute (GraphExecutor_init (add_relationship kg src dst rel))
        {| start_entity := dst; start_type := reverse_type;
           relation_chain := [rel]; target_type := tb |} = Ok rev /\
      occurrences rev src = S (edge_count (G kg) src dst rel)) /\
  (forall u v r,
      u <> src \/ v <> dst \/ r <> rel ->
      edge_count (G (add_relationship kg src dst rel)) u v r
      = edge_count (G kg) u v r).
Proof.
  intros Hc Hf Hr.
  set (kg' := add_relationship kg src dst rel).
  assert (Hc' : constructed (G kg')) by (now constructor).
  pose proof (constructed_inv _ Hc') as Hg'.
  assert (Hsrc : nx.has_node (G kg') src = true).
  { apply (inv_succ_node Hg'). unfold kg', add_relationship. cbn [G].
    rewrite add_edge_link. unfold link. cbn [nx._succ].
    now rewrite mem_set, str_eqb_refl. }
  assert (Hdst : nx.has_node (G kg') dst = true).
  { apply (inv_succ_node Hg'), (inv_pred_succ Hg').
    unfold kg', add_relationship. cbn [G].
    rewrite add_edge_link. unfold link. cbn [nx._pred].
    now rewrite mem_set, str_eqb_refl. }
  assert (Hnew : edge_count (G kg') src dst rel = S (edge_count (G kg) src dst rel)).
  { unfold kg'. now rewrite edge_count_add_relationship, !str_eqb_refl. }
  split; [exact Hsrc|]. split; [exact Hdst|]. split; [|split].
  - eexists. split.
    + exact (one_hop (GraphExecutor_init kg')
               {| start_entity := src; start_type := forward_type;
                  relation_chain := [rel]; target_type := ta |}
               rel Hg' Hsrc eq_refl).
    + cbn [start_type start_entity GraphExecutor_init self_G].
      rewrite Hf, (occurrences_neighbours _ Outgoing rel src dst Hg').
      exact Hnew.
  - eexists. split.
    + exact (one_hop (GraphExecutor_init kg')
               {| start_entity := dst; start_type := reverse_type;
                  relation_chain := [rel]; target_type := tb |}
               rel Hg' Hdst eq_refl).
    + cbn [start_type start_entity GraphExecutor_init self_G].
      rewrite Hr, (occurrences_neighbours _ Incoming rel dst src Hg').
      exact Hnew.
  - intros u v r Hdiff. unfold kg'. rewrite edge_count_add_relationship.
    destruct (str_eqb src u) eqn:Eu, (str_eqb dst v) eqn:Ev,
             (str_eqb rel r) eqn:Er; cbn [andb]; try reflexivity.
    apply str_eqb_eq in Eu. apply str_eqb_eq in Ev. apply str_eqb_eq in Er.
    subst. destruct Hdiff as [H|[H|H]]; congruence.
Qed.

Lemma add_relationship_is_found_from_both_ends_witness :
  exists rev,
    execute
      (GraphExecutor_init
         (add_relationship (assemble Samples.helper_calls)
            (py "Cyclops") (py "X-Men") (py "MEMBER_OF")))
      {| start_entity := py "X-Men"; start_type := VStr (py "Team");
         relation_chain := [py "MEMBER_OF"]; target_type := py "Character" |}
    = Ok rev /\
    occurrences rev (py "Cyclops") = 1.
Proof.
  destruct (add_relationship_is_found_from_both_ends
              (assemble Samples.helper_calls)
              (py "Cyclops") (py "X-Men") (py "MEMBER_OF")
              (py "Team") (py "Character")
              (VStr (py "Character")) (VStr (py "Team"))
              (constructed_assemble _) eq_refl eq_refl)
    as [_ [_ [_ [[rev [Hrev Hcount]] _]]]].
  exists rev. split; [exact Hrev|]. rewrite Hcount. reflexivity.
Defined.

Lemma node_type_by_label (kg kg' : KnowledgeGraph) (n : pystr) (a a' : attr_dict) :
  get (nx._node (G kg)) n = Some a ->
  get (nx._node (G kg')) n = Some a' ->
  get a' (py "label") = get a (py "label") ->
  node_type kg' n = node_type kg n.
Proof.
  intros Ha Ha' Hlabel.
  unfold node_type, nx.nodes_getitem, subscript.
  rewrite Ha, Ha'. cbn [bind]. unfold get_default. now rewrite Hlabel.
Qed.

Lemma node_attrs_touch (g : nx.MultiDiGraph) (m n : pystr) :
  graph_inv g ->
  nx.has_node g n = true ->
  get (nx._node (nx.touch g m)) n = get (nx._node g) n.
Proof.
  intros Hg Hn. unfold nx.touch.
  destruct (mem (nx._succ g) m) eqn:Hm; cbn [negb nx._node]; [reflexivity|].
  apply get_set_other. intros ->.
  now rewrite (graph_ok_succ g n (inv_ok Hg) Hn) in Hm.
Qed.

Lemma has_node_touch (g : nx.MultiDiGraph) (m n : pystr) :
  nx.has_node g n = true -> nx.has_node (nx.touch g m) n = true.
Proof.
  unfold nx.has_node, nx.touch. intros Hn.
  destruct (mem (nx._succ g) m); cbn [negb nx._node]; [exact Hn|].
  rewrite mem_set, Hn. apply orb_true_r.
Qed.

Lemma node_attrs_add_edge (g : nx.MultiDiGraph) (u v : pystr) (attr : attr_dict)
    (n : pystr) :
  graph_inv g ->
  nx.has_node g n = true ->
  get (nx._node (nx.add_edge g u v attr)) n = get (nx._node g) n.
Proof.
  intros Hg Hn. rewrite add_edge_link. unfold link. cbn [nx._node].
  rewrite node_attrs_touch.
  - now apply node_attrs_touch.
  - now apply graph_inv_touch.
  - now apply has_node_touch.
Qed.

(** The attributes of an existing node after [add_node g m [(k, v)]]:
    untouched, or, for [m] itself, updated under [k] only. *)
Lemma node_attrs_add_node (g : nx.MultiDiGraph) (m k : pystr) (v : value)
    (n : pystr) (a : attr_dict) :
  graph_inv g ->
  get (nx._node g) n = Some a ->
  get (nx._node (nx.add_node g m [(k, v)])) n
  = Some (if str_eqb m n then set a k v else a).
Proof.
  intros Hg Ha.
  assert (Hn : nx.has_node g n = true) by (unfold nx.has_node, mem; now rewrite Ha).
  unfold nx.add_node.
  destruct (mem (nx._succ g) m) eqn:Hm; cbn [negb nx._node]; rewrite get_set.
  - destruct (str_eqb m n) eqn:E; [|exact Ha].
    apply str_eqb_eq in E. subst m. unfold get_default. rewrite Ha. reflexivity.
  - destruct (str_eqb m n) eqn:E; [|exact Ha].
    apply str_eqb_eq in E. subst m.
    now rewrite (graph_ok_succ g n (inv_ok Hg) Hn) in Hm.
Qed.

(** X5: No helper changes what [node_type] answers for a node that is
    already in the graph: the node helpers write the key "type", which
    [node_type] does not read, and [add_relationship] writes no node
    attribute. *)
Theorem helpers_keep_the_kind_of_existing_nodes
    (kg : KnowledgeGraph) (c : helper_call) (n : pystr) :
  constructed (G kg) ->
  nx.has_node (G kg) n = true ->
  nx.has_node (G (call kg c)) n = true /\
  node_type (call kg c) n = node_type kg n.
Proof.
  intros Hc Hn. pose proof (constructed_inv _ Hc) as Hg.
  destruct (has_node_get _ _ Hn) as [a Ha].
  assert (Hnode : forall m kind,
             exists a',
               get (nx._node (nx.add_node (G kg) m [(py "type", kind)])) n = Some a' /\
               get a' (py "label") = get a (py "label")).
  { intros m kind. eexists. split; [exact (node_attrs_add_node _ m _ kind n a Hg Ha)|].
    destruct (str_eqb m n); [|reflexivity].
    now apply get_set_other. }
  assert (Hfinish : forall kg' a',
             get (nx._node (G kg')) n = Some a' ->
             get a' (py "label") = get a (py "label") ->
             nx.has_node (G kg') n = true /\ node_type kg' n = node_type kg n).
  { intros kg' a' Ha' Hl. split.
    - unfold nx.has_node, mem. now rewrite Ha'.
    - exact (node_type_by_label kg kg' n a a' Ha Ha' Hl). }
  destruct c as [m|m|m|m|s d r]; cbn [call].
  - destruct (Hnode m (VStr (py "Character"))) as [a' [Ha' Hl]].
    exact (Hfinish (add_character kg m) a' Ha' Hl).
  - destruct (Hnode m (VStr (py "Team"))) as [a' [Ha' Hl]].
    exact (Hfinish (add_team kg m) a' Ha' Hl).
  - destruct (Hnode m (VStr (py "Gene"))) as [a' [Ha' Hl]].
    exact (Hfinish (add_gene kg m) a' Ha' Hl).
  - destruct (Hnode m (VStr (py "Power"))) as [a' [Ha' Hl]].
    exact (Hfinish (add_power kg m) a' Ha' Hl).
  - apply (Hfinish (add_relationship kg s d r) a); [|reflexivity].
    unfold add_relationship. cbn [G].
    now rewrite node_attrs_add_edge.
Qed.

Lemma helpers_keep_the_kind_of_existing_nodes_witness :
  node_type (add_team (from_graphml LoaderSamples.member_raw) (py "Wolverine"))
    (py "Wolverine")
  = Ok (VStr (py "Character")).
Proof.
  exact (eq_trans
           (proj2 (helpers_keep_the_kind_of_existing_nodes
                     (from_graphml LoaderSamples.member_raw)
                     (AddTeam (py "Wolverine")) (py "Wolverine")
                     (constructed_from_graphml _) eq_refl))
           eq_refl).
Defined.

End Building.

Section LoaderNodes.
Import Dict DictFacts.

Lemma uniqb_NoDup (ks : list pystr) : uniqb ks = true -> NoDup ks.
Proof.
  induction ks as [|k ks IH]; simpl; intros H; constructor.
  - apply andb_true_iff in H. destruct H as [Hk _].
    intros Hin. apply negb_true_iff in Hk.
    assert (Hex : existsb (str_eqb k) ks = true).
    { apply existsb_exists. exists k. split; [exact Hin | apply str_eqb_refl]. }
    congruence.
  - apply IH. apply andb_true_iff in H. tauto.
Qed.

Lemma set_fresh {V} (d : dict V) (k : pystr) (v : V) :
  mem d k = false -> set d k v = d ++ [(k, v)].
Proof.
  unfold mem. induction d as [|[k0 v0] d IH]; simpl; [reflexivity|].
  destruct (str_eqb k0 k); [discriminate|].
  intros H. now rewrite IH.
Qed.

Lemma not_In_mem {V} (d : dict V) (k : pystr) :
  ~ In k (keys d) -> mem d k = false.
Proof.
  intros H. destruct (mem d k) eqn:E; [|reflexivity].
  apply mem_keys in E. contradiction.
Qed.

(** Updating with a dictionary whose keys are all new appends it. *)
Lemma update_fresh {V} (other d : dict V) :
  NoDup (keys d ++ keys other) -> update d other = d ++ other.
Proof.
  unfold update. revert d.
  induction other as [|[k v] other IH]; intros d Hnd; cbn [fold_left fst snd].
  - now rewrite app_nil_r.
  - assert (Hk : mem d k = false).
    { apply not_In_mem. intros Hin. cbn [keys map fst] in Hnd.
      apply NoDup_remove_2 in Hnd. apply Hnd, in_or_app. now left. }
    rewrite (set_fresh d k v Hk), IH.
    + now rewrite <- app_assoc.
    + unfold keys in *. rewrite map_app, <- app_assoc. exact Hnd.
Qed.

Lemma add_node_fresh (g : nx.MultiDiGraph) (n : pystr) (attr : attr_dict) :
  graph_inv g ->
  ~ In n (keys (nx._node g)) ->
  NoDup (keys attr) ->
  nx._node (nx.add_node g n attr) = nx._node g ++ [(n, attr)].
Proof.
  intros Hg Hn Hattr.
  assert (Hs : mem (nx._succ g) n = false).
  { destruct (mem (nx._succ g) n) eqn:E; [|reflexivity].
    apply (inv_succ_node Hg), mem_keys in E. contradiction. }
  unfold nx.add_node. rewrite Hs. cbn [negb nx._node].
  rewrite (update_fresh attr []) by exact Hattr.
  apply set_fresh. now apply not_In_mem.
Qed.

Lemma load_nodes (nodes : list (pystr * attr_dict)) (g : nx.MultiDiGraph) :
  graph_inv g ->
  NoDup (keys (nx._node g) ++ keys nodes) ->
  Forall (fun na : pystr * attr_dict => NoDup (keys (snd na))) nodes ->
  let g' := fold_left
              (fun g (na : pystr * attr_dict) => nx.add_node g (fst na) (snd na))
              nodes g in
  graph_inv g' /\ nx._node g' = nx._node g ++ nodes.
Proof.
  revert g. induction nodes as [|[n a] nodes IH]; intros g Hg Hnd Hattrs; cbn zeta.
  - cbn [fold_left]. now rewrite app_nil_r.
  - cbn [fold_left fst snd]. inversion Hattrs as [|? ? Ha Hrest]; subst.
    assert (Hn : ~ In n (keys (nx._node g))).
    { intros Hin. cbn [keys map fst] in Hnd.
      apply NoDup_remove_2 in Hnd. apply Hnd, in_or_app. now left. }
    pose proof (add_node_fresh g n a Hg Hn Ha) as Hnode.
    destruct (IH (nx.add_node g n a)) as [Hg' Hnode'].
    + now apply graph_inv_add_node.
    + rewrite Hnode. unfold keys in *. rewrite map_app, <- app_assoc. exact Hnd.
    + exact Hrest.
    + split; [exact Hg'|]. rewrite Hnode', Hnode. now rewrite <- app_assoc.
Qed.

Lemma touch_known (g : nx.MultiDiGraph) (n : pystr) :
  graph_inv g -> mem (nx._node g) n = true -> nx.touch g n = g.
Proof.
  intros Hg Hn. unfold nx.touch.
  now rewrite (graph_ok_succ g n (inv_ok Hg) Hn).
Qed.

Lemma load_edges (edges : list nx.edge) (g : nx.MultiDiGraph) :
  graph_inv g ->
  Forall (fun e : nx.edge =>
            mem (nx._node g) (fst (fst e)) = true /\
            mem (nx._node g) (snd (fst e)) = true) edges ->
  nx._node
    (fold_left
       (fun g (e : nx.edge) =>
          let '(src, dst, attrs) := e in
          let relation := resolve_relation attrs in
          nx.add_edge g src dst [(py "relation", relation)])
       edges g)
  = nx._node g.
Proof.
  revert g. induction edges as [|[[s d] a] edges IH]; intros g Hg Hends.
  - reflexivity.
  - cbn [fold_left]. inversion Hends as [|? ? [Hs Hd] Hrest]; subst.
    cbn [fst snd] in Hs, Hd.
    assert (Hsame : nx._node (nx.add_edge g s d [(py "relation", resolve_relation a)])
                    = nx._node g).
    { rewrite add_edge_link. unfold link. cbn [nx._node].
      now rewrite (touch_known g s Hg Hs), (touch_known g d Hg Hd). }
    rewrite IH.
    + exact Hsame.
    + now apply graph_inv_add_edge.
    + now rewrite Hsame.
Qed.



End LoaderNodes.

(* ------------------------------------------------------------------ *)
(** ** Query interpreter: the plans it builds *)
(* ------------------------------------------------------------------ *)

Section Plans.
Import Dict DictFacts.

(** The embedding-based detection answers with an entry of the
    catalogue. *)
Lemma embedding_intent_catalogue (self : QueryInterpreter) (query : pystr)
    (ic : pystr * list pystr) :
  embedding_intent self query = Ok ic ->
  In ic (map (fun kt : pystr * (pystr * list pystr) => (fst kt, snd (snd kt)))
           intent_templates).
Proof.
  unfold embedding_intent.
  destruct (py_max_ok
              (fun k =>
                 t_emb <- subscript (template_embeddings self) k ;;
                 Ok (cos_sim self (encode self query) t_emb))
              (keys intent_templates)) as [intent [-> Hin]].
  - discriminate.
  - intros k Hk. destruct (template_embedding_found self k Hk) as [t ->].
    simpl. now eexists.
  - cbn [bind].
    repeat (destruct Hin as [<-|Hin];
            [intros [= <-]; cbn; tauto|]).
    destruct Hin.
Qed.

Lemma classify_shapes (self : QueryInterpreter) (query : pystr)
    (entity_type : value) (ic : pystr * list pystr) :
  classify self query entity_type = Ok ic ->
  In (snd ic, target_type_of (fst ic)) plan_shapes.
Proof.
  unfold classify.
  repeat match goal with
         | |- context [if ?b then _ else _] => destruct b
         end;
    try (intros [= <-]; cbn; tauto);
    intros H; apply embedding_intent_catalogue in H;
    cbn in H; repeat (destruct H as [<-|H]; [cbn; tauto|]); destruct H.
Qed.

(** X7: Every plan [interpret] returns is well-formed: its start entity is
    the recognized entity, a node of the graph, typed with what
    [node_type] says; its chain and target type are one of seven fixed
    shapes, so the chain is not empty, uses the four relation kinds only
    (never the sentinel "RELATED_TO") and the target type is never
    "Unknown". *)
Theorem interpret_returns_a_well_formed_plan
    (self : QueryInterpreter) (query : pystr) (plan : Plan) :
  interpret self query = Ok plan ->
  _extract_entity self query = Some (start_entity plan) /\
  well_formed (G (kg self)) plan /\
  node_type (kg self) (start_entity plan) = Ok (start_type plan) /\
  In (relation_chain plan, target_type plan) plan_shapes /\
  Forall (fun rel => In rel relation_vocabulary) (relation_chain plan) /\
  In (target_type plan) [py "Power"; py "Team"; py "Gene"; py "Character"].
Proof.
  intros Hplan.
  destruct (_extract_entity self query) as [ent|] eqn:Hent.
  2: { unfold interpret in Hplan. rewrite Hent in Hplan. discriminate. }
  destruct (interpret_found self query ent Hent) as [ty [ic [Hty [Hic Hok]]]].
  rewrite Hok in Hplan. injection Hplan as <-. cbn [start_entity start_type
    relation_chain target_type].
  pose proof (classify_shapes self query ty ic Hic) as Hshape.
  split; [reflexivity|].
  assert (Hconsequences :
            snd ic <> [] /\
            Forall (fun rel => In rel relation_vocabulary) (snd ic) /\
            In (target_type_of (fst ic))
               [py "Power"; py "Team"; py "Gene"; py "Character"]).
  { revert Hshape. generalize (snd ic) (target_type_of (fst ic)).
    intros chain target Hshape. unfold plan_shapes in Hshape.
    repeat (destruct Hshape as [[= <- <-]|Hshape];
            [split; [discriminate|]; split;
             [repeat constructor; cbn; tauto | cbn; tauto]|]).
    destruct Hshape. }
  destruct Hconsequences as [Hne [Hvocab Htarget]].
  split; [|split; [exact Hty|split; [exact Hshape|split; assumption]]].
  split; [|exact Hne]. cbn [start_entity].
  exact (extract_entity_is_node self query ent Hent).
Qed.

Lemma interpret_returns_a_well_formed_plan_witness :
  well_formed (G InterpreterSamples.typed_kg)
    {| start_entity := py "Wolverine";
       start_type := VStr (py "Character");
       relation_chain := [py "HAS_MUTATION"]; target_type := py "Gene" |}.
Proof.
  exact (proj1 (proj2 (interpret_returns_a_well_formed_plan
                         InterpreterSamples.typed_interpreter
                         (py "Is Wolverine a MUTANT?")
                         {| start_entity := py "Wolverine";
                            start_type := VStr (py "Character");
                            relation_chain := [py "HAS_MUTATION"];
                            target_type := py "Gene" |}
                         eq_refl))).
Defined.

(** [max] stays on its first element when no later key exceeds the
    first. *)
Lemma py_max_first (key : pystr -> result spec_float) (x : pystr)
    (xs : list pystr) (v : spec_float) :
  key x = Ok v ->
  (forall y, In y xs -> exists w, key y = Ok w /\ SFltb v w = false) ->
  py_max (x :: xs) key = Ok x.
Proof.
  intros Hx Hxs. unfold py_max. rewrite Hx. cbn [bind].
  assert (H : for_each xs
                (fun (b : pystr * spec_float) y =>
                   w <- key y ;; Ok (if SFltb (snd b) w then (y, w) else b))
                (x, v) = Ok (x, v)).
  { induction xs as [|y xs IH]; [reflexivity|].
    cbn [for_each]. destruct (Hxs y (or_introl eq_refl)) as [w [-> Hw]].
    cbn [bind snd]. rewrite Hw. apply IH.
    intros z Hz. apply Hxs. now right. }
  now rewrite H.
Qed.

(** X8: Ties go to the first template: when no description scores strictly
    above the first one - all scores equal, or the model answering NaN -
    the embedding-based detection picks direct_power, and so does
    [classify] for an entity whose label is none of the four kinds. *)
Theorem semantic_fallback_ties_go_to_direct_power
    (self : QueryInterpreter) (query : pystr) :
  (forall k description chain,
      In (k, (description, chain)) intent_templates ->
      SFltb (template_score self query
               (py "Retrieve powers a character directly possesses"))
            (template_score self query description) = false) ->
  embedding_intent self query = Ok (py "direct_power", [py "POSSESSES_POWER"]) /\
  classify self query (VStr (py "Unknown"))
    = Ok (py "direct_power", [py "POSSESSES_POWER"]).
Proof.
  intros Hflat.
  assert (H : embedding_intent self query
              = Ok (py "direct_power", [py "POSSESSES_POWER"])).
  { unfold embedding_intent.
    rewrite (py_max_first _ (py "direct_power")
               (tl (keys intent_templates))
               (template_score self query
                  (py "Retrieve powers a character directly possesses"))).
    - reflexivity.
    - reflexivity.
    - intros y Hy. cbn in Hy.
      repeat (destruct Hy as [<-|Hy];
              [eexists; split; [reflexivity|];
               eapply Hflat; cbn; eauto 10|]).
      destruct Hy. }
  split; [exact H|]. exact H.
Qed.

Lemma semantic_fallback_ties_go_to_direct_power_witness :
  interpret FallbackSamples.helper_interpreter (py "Tell me about Wolverine")
  = Ok {| start_entity := py "Wolverine";
          start_type := VStr (py "Unknown");
          relation_chain := [py "POSSESSES_POWER"];
          target_type := py "Power" |}.
Proof.
  exact (interpret_forced FallbackSamples.helper_interpreter
           (py "Tell me about Wolverine") (py "Wolverine")
           (VStr (py "Unknown")) (py "direct_power") [py "POSSESSES_POWER"]
           eq_refl eq_refl
           (proj2 (semantic_fallback_ties_go_to_direct_power
                     FallbackSamples.helper_interpreter
                     (py "Tell me about Wolverine")
                     (fun _ _ _ _ => eq_refl)))).
Defined.

End Plans.

(* ------------------------------------------------------------------ *)
(** ** Recognition of empty texts *)
(* ------------------------------------------------------------------ *)

Section EmptyTexts.
Import Dict DictFacts.

Lemma contains_in_empty (p : pystr) : contains p [] = true <-> p = [].
Proof.
  destruct p as [|c p]; simpl; split; try easy.
Qed.

Lemma contains_empty (s : pystr) : contains [] s = true.
Proof. destruct s; reflexivity. Qed.

Lemma entry_matches_empty_question (name : pystr) :
  entry_matches name [] = true -> name = [].
Proof.
  unfold entry_matches. intros H.
  apply orb_true_iff in H. destruct H as [H|H];
    [apply orb_true_iff in H; destruct H as [H|H]|];
    apply contains_in_empty in H; unfold replace in H;
    repeat (apply map_eq_nil in H); now apply lower_eq_nil.
Qed.

(** X9: The empty question names no entity, unless the graph has a node whose
    name is the empty string (or the spaCy pass finds one): [interpret]
    raises the no-entity error on it. *)
Theorem empty_question_has_no_entity (self : QueryInterpreter) :
  spacy_pass self [] = None ->
  nx.has_node (G (kg self)) [] = false ->
  _extract_entity self [] = None /\
  interpret self [] = Raise no_entity_error.
Proof.
  intros Hspacy Hnode.
  assert (Hnone : _extract_entity self [] = None).
  { unfold _extract_entity. rewrite Hspacy. unfold fallback_pass.
    destruct (find _ _) as [e|] eqn:Hfind; [|reflexivity].
    apply find_some in Hfind. destruct Hfind as [Hin Hmatch].
    apply entry_matches_empty_question in Hmatch. subst e.
    apply mem_keys in Hin. unfold nx.has_node in Hnode. congruence. }
  split; [exact Hnone|]. unfold interpret. now rewrite Hnone.
Qed.

Lemma empty_question_has_no_entity_witness :
  interpret InterpreterSamples.typed_interpreter [] = Raise no_entity_error.
Proof.
  exact (proj2 (empty_question_has_no_entity
                  InterpreterSamples.typed_interpreter eq_refl eq_refl)).
Defined.

(** X10: A node whose name is the empty string is a substring of every
    question: with such a node in the graph the recognizer never comes
    back empty-handed, and [interpret] raises on no question at all. *)
Theorem empty_node_name_matches_every_question
    (self : QueryInterpreter) (query : pystr) :
  nx.has_node (G (kg self)) [] = true ->
  (exists found, fallback_pass self query = Some found) /\
  (exists plan, interpret self query = Ok plan).
Proof.
  intros Hnode.
  assert (Hfallback : exists found, fallback_pass self query = Some found).
  { unfold fallback_pass.
    destruct (find_exists
                (fun node_name => entry_matches node_name (lower query))
                (nx.nodes (G (kg self))) []) as [found [Hfound _]].
    - now apply mem_keys.
    - unfold entry_matches. rewrite lower_nil. now rewrite contains_empty.
    - now exists found. }
  split; [exact Hfallback|].
  destruct Hfallback as [found Hfound].
  assert (Hent : exists ent, _extract_entity self query = Some ent).
  { unfold _extract_entity. destruct (spacy_pass self query) as [hit|].
    - now exists hit.
    - now exists found. }
  destruct Hent as [ent Hent].
  destruct (interpret_found self query ent Hent) as [ty [ic [_ [_ Hok]]]].
  eexists. exact Hok.
Qed.

Lemma empty_node_name_matches_every_question_witness :
  exists plan,
    interpret FallbackSamples.nameless_interpreter (py "asdkfjasldkf") = Ok plan.
Proof.
  exact (proj2 (empty_node_name_matches_every_question
                  FallbackSamples.nameless_interpreter (py "asdkfjasldkf")
                  eq_refl)).
Defined.

End EmptyTexts.

(* ------------------------------------------------------------------ *)
(** ** The whole pipeline: [main] and [query_knowledge_graph] *)
(* ------------------------------------------------------------------ *)

Section Pipeline.
Import Dict DictFacts.

(** Interpreting and then executing, over a loaded graph. *)
Lemma pipeline_outcome (raw : nx.RawGraph) (self : QueryInterpreter)
    (query : pystr) :
  kg self = from_graphml raw ->
  match _extract_entity self query with
  | None =>
      (plan <- interpret self query ;;
       result <- execute (GraphExecutor_init (from_graphml raw)) plan ;;
       Ok (plan, result)) = Raise no_entity_error
  | Some ent =>
      exists plan result,
        interpret self query = Ok plan /\
        start_entity plan = ent /\
        execute (GraphExecutor_init (from_graphml raw)) plan = Ok result /\
        (forall m,
            In m result <->
            reaches (G (from_graphml raw)) (direction_of (start_type plan))
              ent (relation_chain plan) m) /\
        (plan <- interpret self query ;;
         result <- execute (GraphExecutor_init (from_graphml raw)) plan ;;
         Ok (plan, result)) = Ok (plan, result)
  end.
Proof.
  intros Hkg.
  destruct (_extract_entity self query) as [ent|] eqn:Hent.
  - destruct (interpret_found self query ent Hent) as [ty [ic [_ [_ Hok]]]].
    pose proof (extract_entity_is_node self query ent Hent) as Hnode.
    rewrite Hkg in Hnode.
    destruct (execute_from_reaches (GraphExecutor_init (from_graphml raw))
                ty (snd ic) [ent]
                (constructed_inv _ (constructed_from_graphml raw)))
      as [result [Hres [_ Hiff]]].
    { now repeat constructor. }
    eexists. exists result. split; [exact Hok|].
    cbn [start_entity start_type relation_chain].
    split; [reflexivity|]. split; [exact Hres|]. split.
    + intros m. rewrite Hiff. split.
      * now intros [n [[<-|[]] Hreach]].
      * intros Hreach. exists ent. split; [now left | exact Hreach].
    + rewrite Hok. cbn [bind].
      change (execute (GraphExecutor_init (from_graphml raw))
                {| start_entity := ent; start_type := ty;
                   relation_chain := snd ic;
                   target_type := target_type_of (fst ic) |})
        with (execute_from (GraphExecutor_init (from_graphml raw)) ty [ent] (snd ic)).
      now rewrite Hres.
  - unfold interpret. now rewrite Hent.
Qed.

(** X11: An exception escapes from [main] exactly when the set-up before
    the [try] raises - loading the graph (reading the file, or a node
    attribute named like a parameter of [add_node]), constructing the
    interpreter, or reading the question - and it is that exception; no
    lookup of [interpret] or [execute] ever escapes.  Once the set-up has
    succeeded, [main] exits with status 1, after printing the error,
    exactly when no entity is recognized in the question; otherwise it
    returns after printing the question, the plan and the names the
    plan's chain reaches from the recognized entity.  (The calls into the
    embedding model and the spaCy pipeline made by [interpret], and the
    writes to the standard output, are taken to return.) *)
Theorem main_escapes_from_set_up_only (w : Cli.World) :
  (forall e,
      snd (Cli.main w) = Cli.Escapes e <->
      Cli.graphml w = Throws e \/
      (exists raw,
          Cli.graphml w = Gives raw /\ Cli.keyword_clash raw = true /\
          e = TypeError) \/
      (exists kg,
          Cli.load w = Gives kg /\
          QueryInterpreter_init kg (Cli.model w) (Cli.spacy_ruler w)
          = Throws e) \/
      (exists kg self,
          Cli.load w = Gives kg /\
          QueryInterpreter_init kg (Cli.model w) (Cli.spacy_ruler w)
          = Gives self /\
          snd (Cli.ask w) = Throws e)) /\
  (forall raw self query,
      Cli.graphml w = Gives raw ->
      Cli.keyword_clash raw = false ->
      QueryInterpreter_init (from_graphml raw) (Cli.model w) (Cli.spacy_ruler w)
      = Gives self ->
      snd (Cli.ask w) = Gives query ->
      (snd (Cli.main w) = Cli.SysExit 1 <-> _extract_entity self query = None) /\
      (_extract_entity self query = None ->
       Cli.main w
       = (fst (Cli.ask w) ++ [Cli.PrintError no_entity_error], Cli.SysExit 1)) /\
      (forall ent,
          _extract_entity self query = Some ent ->
          exists plan result,
            Cli.main w
            = (fst (Cli.ask w)
               ++ [Cli.PrintQuery query; Cli.PrintPlan plan;
                   Cli.PrintResult result], Cli.Returns) /\
            interpret self query = Ok plan /\
            start_entity plan = ent /\
            forall m,
              In m result <->
              reaches (G (from_graphml raw)) (direction_of (start_type plan))
                ent (relation_chain plan) m)).
Proof.
  assert (Hkg : forall kg0 self,
             QueryInterpreter_init kg0 (Cli.model w) (Cli.spacy_ruler w)
             = Gives self -> kg self = kg0).
  { intros kg0 self. unfold QueryInterpreter_init.
    destruct (Cli.model w) as [m|]; [|discriminate].
    destruct (Cli.spacy_ruler w) as [build|].
    - destruct (build kg0); [|discriminate]. now intros [= <-].
    - now intros [= <-]. }
  split.
  - intros e. unfold Cli.main, Cli.load.
    destruct (Cli.graphml w) as [raw|e0].
    2: { cbn [snd]. split.
         - intros [= ->]. now left.
         - intros [[= ->]|[[raw [H _]]|[[kg [H _]]|[kg [self [H _]]]]]];
             [reflexivity | discriminate..]. }
    destruct (Cli.keyword_clash raw) eqn:Hclash.
    { cbn [snd]. split.
      - intros [= <-]. right. left. now exists raw.
      - intros [H|[[raw' [_ [_ ->]]]|[[kg [H _]]|[kg [self [H _]]]]]];
          [discriminate | reflexivity | discriminate..]. }
    destruct (QueryInterpreter_init (from_graphml raw) (Cli.model w)
                (Cli.spacy_ruler w)) as [self|e1] eqn:Hinit.
    2: { cbn [snd]. split.
         - intros [= ->]. right. right. left. now exists (from_graphml raw).
         - intros [H|[[raw' [[= <-] [H _]]]|[[kg [[= <-] H]]|[kg [self [[= <-] [H _]]]]]]];
             congruence. }
    destruct (Cli.ask w) as [asked [query|e2]] eqn:Hask.
    2: { cbn [snd]. split.
         - intros [= ->]. right. right. right.
           now exists (from_graphml raw), self.
         - intros [H|[[raw' [[= <-] [H _]]]|[[kg [[= <-] H]]|[kg [self' [_ [_ H]]]]]]];
             congruence. }
    pose proof (pipeline_outcome raw self query (Hkg _ _ Hinit)) as Hpipe.
    split.
    + intros Hescape. exfalso.
      destruct (_extract_entity self query) as [ent|].
      * destruct Hpipe as [plan [result [_ [_ [_ [_ Hrun]]]]]].
        rewrite Hrun in Hescape. discriminate.
      * rewrite Hpipe in Hescape. discriminate.
    + intros [H|[[raw' [[= <-] [H _]]]|[[kg [[= <-] H]]|[kg [self' [_ [_ H]]]]]]];
        cbn [snd] in *; congruence.
  - intros raw self query Hraw Hclash Hinit Hask.
    pose proof (pipeline_outcome raw self query (Hkg _ _ Hinit)) as Hpipe.
    unfold Cli.main, Cli.load. rewrite Hraw, Hclash, Hinit.
    destruct (Cli.ask w) as [asked answer]. cbn [snd fst] in *. subst answer.
    destruct (_extract_entity self query) as [ent|].
    + destruct Hpipe as [plan [result [Hplan [Hstart [_ [Hiff ->]]]]]].
      cbn [snd]. split; [split; discriminate|]. split; [discriminate|].
      intros ent' [= <-]. exists plan, result.
      split; [reflexivity|]. split; [exact Hplan|].
      split; [exact Hstart | exact Hiff].
    + rewrite Hpipe. cbn [snd no_entity_error].
      split; [split; reflexivity|]. split; [reflexivity | discriminate].
Qed.

Lemma main_escapes_from_set_up_only_witness :
  exists plan result,
    Cli.main CliSamples.team_question
    = ([Cli.PrintQuery (py "Who is in X-Men?"); Cli.PrintPlan plan;
        Cli.PrintResult result], Cli.Returns) /\
    In (py "Wolverine") result.
Proof.
  destruct (proj2 (main_escapes_from_set_up_only CliSamples.team_question)
              LoaderSamples.member_raw
              {| kg := from_graphml LoaderSamples.member_raw;
                 encode := model_encode CliSamples.flat_model;
                 cos_sim := model_cos_sim CliSamples.flat_model;
                 _nlp := None |}
              (py "Who is in X-Men?") eq_refl eq_refl eq_refl eq_refl)
    as [_ [_ Hfound]].
  destruct (Hfound (py "X-Men")) as [plan [result [Hmain [Hplan [_ Hiff]]]]].
  - vm_compute. reflexivity.
  - exists plan, result. split; [exact Hmain|].
    apply Hiff.
    assert (Hsame : Ok plan
                    = Ok (plan_for (py "X-Men") (py "Team") [py "MEMBER_OF"]
                            (py "Character"))).
    { rewrite <- Hplan. vm_compute. reflexivity. }
    injection Hsame as ->.
    exists (py "Wolverine"). split; [vm_compute; lia | reflexivity].
Defined.

(** X12: [query_knowledge_graph], with the interpreter and the executor set up
    over one loaded graph as the module does: it reports a failure
    exactly when no entity is recognized, and then with the no-entity
    message, an empty plan and no results; otherwise it reports the plan
    of [interpret] and the names the plan's chain reaches. *)
Theorem query_knowledge_graph_fails_only_without_entity
    (b : Api.Builtins) (raw : nx.RawGraph) (self : QueryInterpreter)
    (question : pystr) :
  kg self = from_graphml raw ->
  let facts := Api.query_knowledge_graph b self
                 (GraphExecutor_init (from_graphml raw)) question in
  (Api.success facts = false <-> _extract_entity self question = None) /\
  (_extract_entity self question = None ->
   facts = {| Api.success := false;
              Api.error :=
                Some (py "No known entity found in query. Please clarify.");
              Api.plan := None;
              Api.results := [];
              Api.query_type := py "Unknown" |}) /\
  (forall ent,
      _extract_entity self question = Some ent ->
      exists plan,
        interpret self question = Ok plan /\
        start_entity plan = ent /\
        Api.success facts = true /\
        Api.error facts = None /\
        Api.plan facts = Some plan /\
        forall m,
          In m (Api.results facts) <->
          reaches (G (from_graphml raw)) (direction_of (start_type plan))
            ent (relation_chain plan) m).
Proof.
  intros Hkg. cbn zeta.
  pose proof (pipeline_outcome raw self question Hkg) as Hpipe.
  unfold Api.query_knowledge_graph.
  destruct (_extract_entity self question) as [ent|].
  - destruct Hpipe as [plan [result [Hplan [Hstart [_ [Hiff ->]]]]]].
    cbn [Api.success Api.error Api.plan Api.results].
    split; [split; discriminate|]. split; [discriminate|].
    intros ent' [= <-]. exists plan. now repeat split; try apply Hiff.
  - rewrite Hpipe. cbn [Api.success no_entity_error Api.str_exn].
    split; [split; reflexivity|]. split; [reflexivity | discriminate].
Qed.

Lemma query_knowledge_graph_fails_only_without_entity_witness :
  Api.success
    (Api.query_knowledge_graph
       {| Api.repr_str := fun s => s; Api.str_number := fun _ => [] |}
       (InterpreterSamples.flat_model_on (from_graphml LoaderSamples.member_raw))
       (GraphExecutor_init (from_graphml LoaderSamples.member_raw))
       (py "asdkfjasldkf"))
  = false.
Proof.
  apply (proj1 (query_knowledge_graph_fails_only_without_entity
                  {| Api.repr_str := fun s => s; Api.str_number := fun _ => [] |}
                  LoaderSamples.member_raw
                  (InterpreterSamples.flat_model_on
                     (from_graphml LoaderSamples.member_raw))
                  (py "asdkfjasldkf") eq_refl)).
  reflexivity.
Defined.

End Pipeline.

(* ------------------------------------------------------------------ *)
(** ** Graph statistics *)
(* ------------------------------------------------------------------ *)

Section Statistics.
Import Stats.

Lemma tally_total_set (d : tally) (k : value) (c : Z) :
  tally_total (tally_set d k c) = (tally_total d - tally_count d k + c)%Z.
Proof.
  unfold tally_total, tally_count.
  induction d as [|[k' c'] d IH]; simpl.
  - lia.
  - destruct (py_eq k' k); simpl; lia.
Qed.

Lemma tally_total_count_one (d : tally) (k : value) :
  tally_total (count_one d k) = (tally_total d + 1)%Z.
Proof. unfold count_one. rewrite tally_total_set. lia. Qed.

Lemma tally_total_fold {A} (key : A -> value) (l : list A) (d : tally) :
  tally_total (fold_left (fun d x => count_one d (key x)) l d)
  = (tally_total d + Z.of_nat (List.length l))%Z.
Proof.
  revert d. induction l as [|x l IH]; intros d; cbn [fold_left List.length].
  - lia.
  - rewrite IH, tally_total_count_one. lia.
Qed.

Lemma py_eq_str_r (v : value) (s : pystr) :
  py_eq v (VStr s) = true <-> v = VStr s.
Proof.
  destruct v as [t|z|f|b]; cbn.
  - rewrite str_eqb_eq. split; [now intros -> | now intros [= ->]].
  - split; discriminate.
  - destruct f; split; discriminate.
  - split; discriminate.
Qed.

Lemma py_eq_str_l (v : value) (s : pystr) :
  py_eq (VStr s) v = true <-> v = VStr s.
Proof.
  destruct v as [t|z|f|b]; cbn.
  - rewrite str_eqb_eq. split; [now intros -> | now intros [= ->]].
  - split; discriminate.
  - split; discriminate.
  - split; discriminate.
Qed.

Lemma tally_get_set_str (d : tally) (k : value) (c : Z) (s : pystr) :
  tally_get (tally_set d k c) (VStr s)
  = if py_eq k (VStr s) then Some c else tally_get d (VStr s).
Proof.
  induction d as [|[k' c'] d IH]; cbn [tally_set tally_get].
  - reflexivity.
  - destruct (py_eq k' k) eqn:Ekk; cbn [tally_get].
    + destruct (py_eq k' (VStr s)) eqn:Eks.
      * apply py_eq_str_r in Eks. subst k'.
        apply py_eq_str_l in Ekk. subst k.
        now rewrite (proj2 (py_eq_str_r (VStr s) s) eq_refl).
      * destruct (py_eq k (VStr s)) eqn:Ek; [|reflexivity].
        apply py_eq_str_r in Ek. subst k.
        apply py_eq_str_r in Ekk. subst k'.
        now rewrite (proj2 (py_eq_str_r (VStr s) s) eq_refl) in Eks.
    + rewrite IH. destruct (py_eq k' (VStr s)) eqn:Eks; [|reflexivity].
      destruct (py_eq k (VStr s)) eqn:Ek; [|reflexivity].
      apply py_eq_str_r in Eks. apply py_eq_str_r in Ek. subst k k'.
      now rewrite (proj2 (py_eq_str_r (VStr s) s) eq_refl) in Ekk.
Qed.

Lemma tally_count_fold_str {A} (key : A -> value) (s : pystr)
    (l : list A) (d : tally) :
  tally_count (fold_left (fun d x => count_one d (key x)) l d) (VStr s)
  = (tally_count d (VStr s)
     + Z.of_nat (List.length (filter (fun x => eq_str (key x) s) l)))%Z.
Proof.
  revert d. induction l as [|x l IH]; intros d; cbn [fold_left filter].
  - cbn. lia.
  - rewrite IH. unfold count_one, tally_count at 1.
    rewrite tally_get_set_str.
    destruct (py_eq (key x) (VStr s)) eqn:E.
    + apply py_eq_str_r in E. rewrite E. cbn [eq_str].
      rewrite str_eqb_refl. cbn [List.length]. unfold tally_count. lia.
    + assert (Hne : eq_str (key x) s = false).
      { destruct (eq_str (key x) s) eqn:E'; [|reflexivity].
        apply eq_str_true in E'. apply py_eq_str_r in E'. congruence. }
      rewrite Hne. unfold tally_count. lia.
Qed.

Lemma sum_app (a b : list Z) :
  fold_right Z.add 0%Z (a ++ b)
  = (fold_right Z.add 0%Z a + fold_right Z.add 0%Z b)%Z.
Proof. induction a as [|z a IH]; cbn [app fold_right]; lia. Qed.

Lemma number_of_edges_length (g : nx.MultiDiGraph) :
  number_of_edges g = Z.of_nat (List.length (all_edges g)).
Proof.
  unfold number_of_edges, all_edges.
  induction (nx._succ g) as [|[u nbrs] adj IH]; [reflexivity|].
  cbn [flat_map fst snd]. rewrite sum_app, length_app, Nat2Z.inj_add, IH.
  f_equal. clear IH.
  induction nbrs as [|[v kd] nbrs IHn]; [reflexivity|].
  cbn [map flat_map fold_right fst snd].
  rewrite length_app, length_map, Nat2Z.inj_add, IHn. reflexivity.
Qed.

(** X13: The statistics add up: the counts per label sum to the number of
    nodes and the counts per relation to the number of edges; and under
    every string the count is the number of nodes carrying it as their
    "label" (nodes without one are counted under "Unknown"),
    respectively the number of edges carrying it as their "relation". *)
Theorem graph_stats_add_up (kg : KnowledgeGraph) :
  tally_total (node_types (graph_stats kg)) = total_nodes (graph_stats kg) /\
  tally_total (edge_types (graph_stats kg)) = total_edges (graph_stats kg) /\
  (forall kind,
      tally_count (node_types (graph_stats kg)) (VStr kind)
      = Z.of_nat
          (List.length
             (filter
                (fun na : pystr * attr_dict =>
                   eq_str (Dict.get_default (snd na) (py "label")
                             (VStr (py "Unknown"))) kind)
                (nx._node (G kg))))) /\
  (forall rel,
      tally_count (edge_types (graph_stats kg)) (VStr rel)
      = Z.of_nat
          (List.length
             (filter
                (fun e : nx.edge =>
                   eq_str (Dict.get_default (snd e) (py "relation")
                             (VStr (py "Unknown"))) rel)
                (all_edges (G kg))))).
Proof.
  unfold graph_stats.
  cbn [node_types edge_types total_nodes total_edges].
  split; [|split; [|split]].
  - rewrite (tally_total_fold
               (fun na : pystr * attr_dict =>
                  Dict.get_default (snd na) (py "label") (VStr (py "Unknown")))).
    reflexivity.
  - rewrite (tally_total_fold
               (fun e : nx.edge =>
                  Dict.get_default (snd e) (py "relation") (VStr (py "Unknown")))).
    now rewrite number_of_edges_length.
  - intros kind.
    rewrite (tally_count_fold_str
               (fun na : pystr * attr_dict =>
                  Dict.get_default (snd na) (py "label") (VStr (py "Unknown")))).
    reflexivity.
  - intros rel.
    rewrite (tally_count_fold_str
               (fun e : nx.edge =>
                  Dict.get_default (snd e) (py "relation") (VStr (py "Unknown")))).
    reflexivity.
Qed.

End Statistics.

(* ------------------------------------------------------------------ *)
(** ** Dataset generator: id assignment *)
(* ------------------------------------------------------------------ *)

Section GeneratorIds.
Import Dict DictFacts Generator.

Lemma enumerate_app {A} (a b : list A) (s : Z) :
  enumerate s (a ++ b)
  = enumerate s a ++ enumerate (s + Z.of_nat (List.length a)) b.
Proof.
  revert s. induction a as [|x a IH]; intros s; cbn [enumerate app List.length].
  - now rewrite Z.add_0_r.
  - rewrite IH. do 3 f_equal. lia.
Qed.

Lemma length_enumerate {A} (l : list A) (s : Z) :
  List.length (enumerate s l) = List.length l.
Proof. revert s. induction l; intros s; simpl; [reflexivity | now rewrite IHl]. Qed.

Lemma enumerate_snd {A} (l : list A) (s : Z) : map snd (enumerate s l) = l.
Proof. revert s. induction l; intros s; simpl; [reflexivity | now rewrite IHl]. Qed.

Lemma enumerate_lower {A} (l : list A) (s i : Z) (x : A) :
  In (i, x) (enumerate s l) -> (s <= i)%Z.
Proof.
  revert s. induction l as [|y l IH]; intros s; simpl; [easy|].
  intros [[= <- <-]|Hin]; [lia|]. apply IH in Hin. lia.
Qed.

Lemma loop_app {A S} (body : S -> A -> outcome S) (xs ys : list A) (s : S) :
  loop (xs ++ ys) body s = (mid <~ loop xs body s ;; loop ys body mid).
Proof.
  revert s. induction xs as [|x xs IH]; intros s; simpl; [reflexivity|].
  destruct (body s x); simpl; [apply IH | reflexivity].
Qed.

Lemma as_counter_keys (table : list (Z * pystr)) :
  keys (as_counter table) = map snd table.
Proof. unfold as_counter, keys. rewrite map_map. reflexivity. Qed.

Lemma as_counter_length (table : list (Z * pystr)) :
  List.length (as_counter table) = List.length table.
Proof. apply length_map. Qed.

Lemma as_counter_app (a b : list (Z * pystr)) :
  as_counter (a ++ b) = as_counter a ++ as_counter b.
Proof. apply map_app. Qed.

Lemma mem_existsb {V} (d : dict V) (k : pystr) :
  mem d k = existsb (str_eqb k) (keys d).
Proof.
  unfold mem, keys. induction d as [|[k0 v0] d IH]; simpl; [reflexivity|].
  rewrite (str_eqb_sym k k0). destruct (str_eqb k0 k); simpl; [reflexivity|].
  exact IH.
Qed.

Lemma fromkeys_snoc (xs : list pystr) (k : pystr) :
  nx.fromkeys (xs ++ [k])
  = if existsb (str_eqb k) (nx.fromkeys xs) then nx.fromkeys xs
    else nx.fromkeys xs ++ [k].
Proof. unfold nx.fromkeys. now rewrite fold_left_app. Qed.

Lemma fromkeys_extends (ys acc : list pystr) :
  exists more,
    fold_left
      (fun acc k => if existsb (str_eqb k) acc then acc else acc ++ [k])
      ys acc = acc ++ more.
Proof.
  revert acc. induction ys as [|y ys IH]; intros acc; simpl.
  - exists []. now rewrite app_nil_r.
  - destruct (existsb (str_eqb y) acc).
    + apply IH.
    + destruct (IH (acc ++ [y])) as [more ->]. exists ([y] ++ more).
      now rewrite <- app_assoc.
Qed.

Lemma fromkeys_app (xs ys : list pystr) :
  exists more, nx.fromkeys (xs ++ ys) = nx.fromkeys xs ++ more.
Proof. unfold nx.fromkeys. rewrite fold_left_app. apply fromkeys_extends. Qed.

Lemma fromkeys_complete (xs : list pystr) (k : pystr) :
  In k xs -> In k (nx.fromkeys xs).
Proof.
  induction xs as [|x xs IH] using rev_ind; [easy|].
  intros Hin. rewrite fromkeys_snoc. apply in_app_or in Hin.
  destruct (existsb (str_eqb x) (nx.fromkeys xs)) eqn:E.
  - destruct Hin as [Hin|[<-|[]]]; [now apply IH|].
    apply existsb_exists in E. destruct E as [y [Hy Heq]].
    apply str_eqb_eq in Heq. now subst y.
  - apply in_or_app. destruct Hin as [Hin|[<-|[]]]; [left; now apply IH|].
    right. now left.
Qed.

Lemma numbered_app (xs ys : list pystr) :
  exists more, numbered (xs ++ ys) = numbered xs ++ more.
Proof.
  unfold numbered. destruct (fromkeys_app xs ys) as [more ->].
  rewrite enumerate_app. now eexists.
Qed.

Lemma get_app_known {V} (a b : dict V) (k : pystr) :
  mem a k = true -> get (a ++ b) k = get a k.
Proof.
  unfold mem. induction a as [|[k0 v0] a IH]; simpl; [discriminate|].
  destruct (str_eqb k0 k); [reflexivity | exact IH].
Qed.

Lemma get_app_fresh {V} (a b : dict V) (k : pystr) :
  mem a k = false -> get (a ++ b) k = get b k.
Proof.
  unfold mem. induction a as [|[k0 v0] a IH]; simpl; [reflexivity|].
  destruct (str_eqb k0 k); [discriminate | exact IH].
Qed.

Lemma numbered_mem (xs : list pystr) (k : pystr) :
  In k xs -> mem (as_counter (numbered xs)) k = true.
Proof.
  intros Hin. apply mem_keys. rewrite as_counter_keys.
  unfold numbered. rewrite enumerate_snd. now apply fromkeys_complete.
Qed.

(** Ids never change: a name keeps its id while the counter grows. *)
Lemma id_in_stable (xs ys : list pystr) (k : pystr) :
  In k xs ->
  id_in (as_counter (numbered (xs ++ ys))) k = id_in (as_counter (numbered xs)) k.
Proof.
  intros Hin. destruct (numbered_app xs ys) as [more ->].
  unfold id_in, get_default. rewrite as_counter_app.
  now rewrite get_app_known by now apply numbered_mem.
Qed.

Lemma id_in_bounds (l : list pystr) (s : Z) (k : pystr) :
  In k l ->
  (s <= id_in (as_counter (enumerate s l)) k < s + Z.of_nat (List.length l))%Z.
Proof.
  unfold id_in, get_default, as_counter.
  revert s. induction l as [|x l IH]; intros s; [easy|].
  cbn [enumerate map get fst snd List.length].
  destruct (str_eqb x k) eqn:E.
  - intros _. lia.
  - intros [->|Hin]; [now rewrite str_eqb_refl in E|].
    specialize (IH (s + 1)%Z Hin). lia.
Qed.

Lemma numbered_snoc_known (xs : list pystr) (k : pystr) :
  existsb (str_eqb k) (nx.fromkeys xs) = true ->
  numbered (xs ++ [k]) = numbered xs.
Proof. intros H. unfold numbered. now rewrite fromkeys_snoc, H. Qed.

Lemma numbered_snoc_fresh (xs : list pystr) (k : pystr) :
  existsb (str_eqb k) (nx.fromkeys xs) = false ->
  numbered (xs ++ [k])
  = numbered xs ++ [(Z.of_nat (List.length (numbered xs)) + 1, k)%Z].
Proof.
  intros H. unfold numbered. rewrite fromkeys_snoc, H, enumerate_app.
  cbn [enumerate]. rewrite length_enumerate. do 3 f_equal. lia.
Qed.

Lemma numbered_existsb (xs : list pystr) (k : pystr) :
  mem (as_counter (numbered xs)) k = existsb (str_eqb k) (nx.fromkeys xs).
Proof.
  rewrite mem_existsb, as_counter_keys. unfold numbered.
  now rewrite enumerate_snd.
Qed.

(** [next_id] on the counter of the names seen so far: the counter of the
    names with the new one, and the id of the new one in it. *)
Lemma next_id_numbered (xs : list pystr) (k : pystr) :
  next_id (as_counter (numbered xs)) k
  = Done (as_counter (numbered (xs ++ [k])),
          id_in (as_counter (numbered (xs ++ [k]))) k).
Proof.
  unfold next_id.
  assert (Hc : setdefault (as_counter (numbered xs)) k
                 (Z.of_nat (List.length (as_counter (numbered xs))) + 1)
               = as_counter (numbered (xs ++ [k]))).
  { unfold setdefault. rewrite numbered_existsb.
    destruct (existsb (str_eqb k) (nx.fromkeys xs)) eqn:E.
    - now rewrite numbered_snoc_known.
    - rewrite numbered_snoc_fresh by exact E.
      rewrite as_counter_app, as_counter_length.
      cbn [as_counter map fst snd].
      apply set_fresh. now rewrite numbered_existsb. }
  rewrite Hc.
  assert (Hk : mem (as_counter (numbered (xs ++ [k]))) k = true).
  { apply numbered_mem, in_or_app. right. now left. }
  unfold id_in, get_default. unfold mem in Hk.
  now destruct (get (as_counter (numbered (xs ++ [k]))) k).
Qed.

Lemma append_if_new_numbered (xs : list pystr) (k : pystr) :
  append_if_new (numbered xs)
    (id_in (as_counter (numbered (xs ++ [k]))) k) k
  = numbered (xs ++ [k]).
Proof.
  unfold append_if_new.
  destruct (existsb (str_eqb k) (nx.fromkeys xs)) eqn:E.
  - rewrite numbered_snoc_known by exact E.
    assert (Hin : In k (nx.fromkeys xs)).
    { apply existsb_exists in E. destruct E as [y [Hy Heq]].
      apply str_eqb_eq in Heq. now subst y. }
    pose proof (id_in_bounds (nx.fromkeys xs) 1 k Hin) as Hb.
    fold (numbered xs) in Hb.
    unfold numbered at 2. rewrite length_enumerate.
    destruct (Z.eqb_spec (id_in (as_counter (numbered xs)) k)
                (Z.of_nat (List.length (nx.fromkeys xs)) + 1)); [lia | reflexivity].
  - rewrite numbered_snoc_fresh by exact E.
    assert (Hid : id_in (as_counter
                           (numbered xs
                            ++ [(Z.of_nat (List.length (numbered xs)) + 1, k)%Z])) k
                  = (Z.of_nat (List.length (numbered xs)) + 1)%Z).
    { unfold id_in, get_default. rewrite as_counter_app.
      rewrite get_app_fresh by now rewrite numbered_existsb.
      cbn. now rewrite str_eqb_refl. }
    rewrite Hid, Z.eqb_refl. reflexivity.
Qed.

End GeneratorIds.

Section GeneratorTables.
Import Dict DictFacts Generator.

Lemma id_in_found (l : list pystr) (s : Z) (k : pystr) :
  In k l ->
  name_of_id (enumerate s l) (id_in (as_counter (enumerate s l)) k) = Done k.
Proof.
  unfold name_of_id.
  revert s. induction l as [|x l IH]; intros s; [easy|].
  intros Hin. unfold id_in, get_default, as_counter.
  cbn [enumerate map get fst snd find].
  destruct (str_eqb x k) eqn:E.
  - apply str_eqb_eq in E. subst x. now rewrite Z.eqb_refl.
  - destruct Hin as [->|Hin]; [now rewrite str_eqb_refl in E|].
    pose proof (id_in_bounds l (s + 1) k Hin) as Hb.
    unfold id_in, get_default, as_counter in Hb.
    destruct (Z.eqb_spec s
                match get (map (fun row : Z * pystr => (snd row, fst row))
                             (enumerate (s + 1) l)) k with
                | Some v => v
                | None => 0%Z
                end) as [Heq|_]; [lia|].
    exact (IH (s + 1)%Z Hin).
Qed.

(** An id is turned back into the name it was given to. *)
Lemma numbered_decodes (xs : list pystr) (k : pystr) :
  In k xs ->
  name_of_id (numbered xs) (id_in (as_counter (numbered xs)) k) = Done k.
Proof.
  intros Hin. unfold numbered. now apply id_in_found, fromkeys_complete.
Qed.

Lemma character_decodes (heroes : list Hero) (s i : Z) (h : Hero) :
  In (i, h) (enumerate s heroes) ->
  name_of_id
    (map (fun ch : Z * Hero => (fst ch, name (snd ch))) (enumerate s heroes)) i
  = Done (name h).
Proof.
  unfold name_of_id.
  revert s. induction heroes as [|x heroes IH]; intros s; [easy|].
  cbn [enumerate map find fst snd].
  intros [[= <- <-]|Hin].
  - now rewrite Z.eqb_refl.
  - pose proof (enumerate_lower heroes (s + 1) i h Hin) as Hb.
    destruct (Z.eqb_spec s i) as [Heq|_]; [lia|]. now apply IH.
Qed.

(** The inner loop over the powers of one hero. *)
Lemma powers_loop (cid gid : Z) (pws seen : list pystr) (st : Tables) :
  power_ids st = as_counter (numbered seen) ->
  powers_rows st = numbered seen ->
  loop pws (add_power cid gid) st
  = Done {| team_ids := team_ids st;
            gene_ids := gene_ids st;
            power_ids := as_counter (numbered (seen ++ pws));
            characters := characters st;
            teams := teams st;
            genes := genes st;
            powers_rows := numbered (seen ++ pws);
            char_team := char_team st;
            char_gene := char_gene st;
            gene_power :=
              gene_power st
              ++ map (fun pw =>
                        (gid, id_in (as_counter (numbered (seen ++ pws))) pw))
                   pws;
            char_power :=
              char_power st
              ++ map (fun pw =>
                        (cid, id_in (as_counter (numbered (seen ++ pws))) pw))
                   pws;
            snippets := snippets st |}.
Proof.
  revert seen st. induction pws as [|pw pws IH] using rev_ind; intros seen st Hc Hrows.
  - cbn [loop map]. rewrite !app_nil_r, <- Hc, <- Hrows. now destruct st.
  - rewrite loop_app, (IH seen st Hc Hrows). cbn [and_then loop].
    unfold add_power at 1.
    cbn [power_ids powers_rows team_ids gene_ids characters teams genes
         char_team char_gene gene_power char_power snippets].
    rewrite next_id_numbered. cbn [and_then fst snd].
    rewrite append_if_new_numbered.
    rewrite (app_assoc seen pws [pw]).
    assert (Hold : forall p, In p pws ->
              id_in (as_counter (numbered (seen ++ pws))) p
              = id_in (as_counter (numbered ((seen ++ pws) ++ [pw]))) p).
    { intros p Hp. symmetry. apply id_in_stable, in_or_app. now right. }
    f_equal. f_equal.
    + rewrite map_app. cbn [map]. rewrite <- app_assoc. f_equal. f_equal.
      apply map_ext_in. intros p Hp. now rewrite (Hold p Hp).
    + rewrite map_app. cbn [map]. rewrite <- app_assoc. f_equal. f_equal.
      apply map_ext_in. intros p Hp. now rewrite (Hold p Hp).
Qed.

Lemma flat_map_ext_in' {A B} (f g : A -> list B) (l : list A) :
  (forall x, In x l -> f x = g x) -> flat_map f l = flat_map g l.
Proof.
  intros H. induction l as [|x l IH]; [reflexivity|].
  cbn [flat_map]. rewrite (H x (or_introl eq_refl)), IH; [reflexivity|].
  intros y Hy. apply H. now right.
Qed.

Lemma enumerate_In_snd {A} (l : list A) (s i : Z) (x : A) :
  In (i, x) (enumerate s l) -> In x l.
Proof.
  intros H. rewrite <- (enumerate_snd l s).
  change x with (snd (i, x)). now apply in_map.
Qed.

Lemma all_powers_snoc (hs : list Hero) (h : Hero) :
  all_powers (hs ++ [h]) = all_powers hs ++ powers h.
Proof.
  unfold all_powers. rewrite flat_map_app. cbn [flat_map]. now rewrite app_nil_r.
Qed.

(** One more hero. *)
Lemma add_hero_tables (hs : list Hero) (h : Hero) :
  add_hero (tables_of hs) (1 + Z.of_nat (List.length hs), h)%Z
  = Done (tables_of (hs ++ [h])).
Proof.
  unfold add_hero. cbn [fst snd].
  change (team_ids (tables_of hs)) with (as_counter (numbered (map team hs))).
  change (gene_ids (tables_of hs)) with (as_counter (numbered (map gene hs))).
  change (teams (tables_of hs)) with (numbered (map team hs)).
  change (genes (tables_of hs)) with (numbered (map gene hs)).
  rewrite next_id_numbered. cbn [and_then fst snd].
  rewrite next_id_numbered. cbn [and_then fst snd].
  rewrite !append_if_new_numbered.
  rewrite (powers_loop _ _ (powers h) (all_powers hs)) by reflexivity.
  cbn [and_then team_ids gene_ids power_ids characters teams genes powers_rows
       char_team char_gene gene_power char_power snippets].
  unfold tables_of.
  cbn [team_ids gene_ids power_ids characters teams genes powers_rows
       char_team char_gene gene_power char_power snippets].
  rewrite !map_app, all_powers_snoc, enumerate_app, !map_app, !flat_map_app.
  cbn [enumerate map flat_map fst snd]. rewrite !app_nil_r.
  assert (Hteam : forall ch, In ch (enumerate 1 hs) ->
            id_in (as_counter (numbered (map team hs))) (team (snd ch))
            = id_in (as_counter (numbered (map team hs ++ [team h])))
                (team (snd ch))).
  { intros [i x] Hin. symmetry. apply id_in_stable, in_map.
    exact (enumerate_In_snd hs 1 i x Hin). }
  assert (Hgene : forall ch, In ch (enumerate 1 hs) ->
            id_in (as_counter (numbered (map gene hs))) (gene (snd ch))
            = id_in (as_counter (numbered (map gene hs ++ [gene h])))
                (gene (snd ch))).
  { intros [i x] Hin. symmetry. apply id_in_stable, in_map.
    exact (enumerate_In_snd hs 1 i x Hin). }
  assert (Hpower : forall ch pw, In ch (enumerate 1 hs) -> In pw (powers (snd ch)) ->
            id_in (as_counter (numbered (all_powers hs))) pw
            = id_in (as_counter (numbered (all_powers hs ++ powers h))) pw).
  { intros [i x] pw Hin Hpw. symmetry. apply id_in_stable.
    unfold all_powers. apply in_flat_map. exists x.
    split; [exact (enumerate_In_snd hs 1 i x Hin) | exact Hpw]. }
  f_equal. f_equal.
  - f_equal. apply map_ext_in. intros ch Hin. now rewrite Hteam.
  - f_equal. apply map_ext_in. intros ch Hin. now rewrite Hgene.
  - f_equal. apply flat_map_ext_in'. intros ch Hin.
    apply map_ext_in. intros pw Hpw.
    now rewrite (Hgene ch Hin), (Hpower ch pw Hin Hpw).
  - f_equal. apply flat_map_ext_in'. intros ch Hin.
    apply map_ext_in. intros pw Hpw.
    now rewrite (Hpower ch pw Hin Hpw).
Qed.

Lemma assign_ids_tables (heroes : list Hero) :
  assign_ids heroes = Done (tables_of heroes).
Proof.
  unfold assign_ids.
  induction heroes as [|h hs IH] using rev_ind; [reflexivity|].
  rewrite enumerate_app, loop_app, IH. cbn [and_then enumerate loop].
  rewrite add_hero_tables. reflexivity.
Qed.

End GeneratorTables.

Section GeneratorGraph.
Import Dict DictFacts Generator.

Lemma entity_nodes (kind : pystr) (rows : list (Z * pystr)) (g : nx.MultiDiGraph) :
  fold_left (entity_node kind) rows g
  = fold_left (named_node kind) (map snd rows) g.
Proof.
  revert g. induction rows as [|r rows IH]; intros g; [reflexivity|].
  cbn [fold_left map]. apply IH.
Qed.

(** An edge loop whose rows all decode builds the edges between the
    decoded names. *)
Lemma link_rows_decode (left right : list (Z * pystr)) (relation : pystr)
    (rows : list (Z * Z)) (ends : list (pystr * pystr)) (g : nx.MultiDiGraph) :
  Forall2
    (fun (r : Z * Z) (e : pystr * pystr) =>
       name_of_id left (fst r) = Done (fst e) /\
       name_of_id right (snd r) = Done (snd e))
    rows ends ->
  link_rows left right relation rows g
  = Done (fold_left (typed_edge relation) ends g).
Proof.
  intros H. revert g. unfold link_rows.
  induction H as [|r e rows ends [Hl Hr] _ IH]; intros g; [reflexivity|].
  cbn [loop fold_left]. rewrite Hl. cbn [and_then]. rewrite Hr. cbn [and_then].
  apply IH.
Qed.

Lemma Forall2_map_same {A B C} (P : B -> C -> Prop) (f : A -> B) (g : A -> C)
    (l : list A) :
  (forall x, In x l -> P (f x) (g x)) -> Forall2 P (map f l) (map g l).
Proof.
  induction l as [|x l IH]; intros H; cbn [map]; constructor.
  - apply H. now left.
  - apply IH. intros y Hy. apply H. now right.
Qed.

Lemma Forall2_flat_map_same {A B C} (P : B -> C -> Prop)
    (f : A -> list B) (g : A -> list C) (l : list A) :
  (forall x, In x l -> Forall2 P (f x) (g x)) ->
  Forall2 P (flat_map f l) (flat_map g l).
Proof.
  induction l as [|x l IH]; intros H; cbn [flat_map]; [constructor|].
  apply Forall2_app.
  - apply H. now left.
  - apply IH. intros y Hy. apply H. now right.
Qed.

Lemma map_enumerate {A B} (f : A -> B) (l : list A) (s : Z) :
  map (fun ch : Z * A => f (snd ch)) (enumerate s l) = map f l.
Proof. rewrite <- (map_map snd f). now rewrite enumerate_snd. Qed.

Lemma flat_map_enumerate {A B} (f : A -> list B) (l : list A) (s : Z) :
  flat_map (fun ch : Z * A => f (snd ch)) (enumerate s l) = flat_map f l.
Proof.
  rewrite !flat_map_concat_map. now rewrite map_enumerate.
Qed.

Lemma numbered_names (xs : list pystr) : map snd (numbered xs) = nx.fromkeys xs.
Proof. unfold numbered. apply enumerate_snd. Qed.

Lemma build_graph_tables (heroes : list Hero) :
  build_graph (tables_of heroes) = Done (graph_of heroes).
Proof.
  unfold build_graph, graph_of.
  cbn [characters teams genes powers_rows char_team char_gene gene_power
       char_power tables_of].
  rewrite !entity_nodes, !numbered_names.
  rewrite (map_map (fun ch : Z * Hero => (fst ch, name (snd ch))) snd).
  cbn [snd]. rewrite (map_enumerate name heroes 1).
  set (g4 := fold_left (named_node (py "Power")) _ _).
  set (chars := map (fun ch : Z * Hero => (fst ch, name (snd ch)))
                  (enumerate 1 heroes)).
  assert (Hchar : forall ch, In ch (enumerate 1 heroes) ->
                    name_of_id chars (fst ch) = Done (name (snd ch))).
  { intros [i h] Hin. exact (character_decodes heroes 1 i h Hin). }
  assert (Hteam : forall ch, In ch (enumerate 1 heroes) ->
            name_of_id (numbered (map team heroes))
              (id_in (as_counter (numbered (map team heroes))) (team (snd ch)))
            = Done (team (snd ch))).
  { intros [i h] Hin. apply numbered_decodes, in_map.
    exact (enumerate_In_snd heroes 1 i h Hin). }
  assert (Hgene : forall ch, In ch (enumerate 1 heroes) ->
            name_of_id (numbered (map gene heroes))
              (id_in (as_counter (numbered (map gene heroes))) (gene (snd ch)))
            = Done (gene (snd ch))).
  { intros [i h] Hin. apply numbered_decodes, in_map.
    exact (enumerate_In_snd heroes 1 i h Hin). }
  assert (Hpower : forall ch pw, In ch (enumerate 1 heroes) ->
            In pw (powers (snd ch)) ->
            name_of_id (numbered (all_powers heroes))
              (id_in (as_counter (numbered (all_powers heroes))) pw)
            = Done pw).
  { intros [i h] pw Hin Hpw. apply numbered_decodes.
    unfold all_powers. apply in_flat_map. exists h.
    split; [exact (enumerate_In_snd heroes 1 i h Hin) | exact Hpw]. }
  rewrite (link_rows_decode _ _ _ _
             (map (fun ch : Z * Hero => (name (snd ch), team (snd ch)))
                (enumerate 1 heroes))).
  2: { apply Forall2_map_same. intros ch Hin. cbn [fst snd].
       split; [now apply Hchar | now apply Hteam]. }
  cbn [and_then].
  rewrite (link_rows_decode _ _ _ _
             (map (fun ch : Z * Hero => (name (snd ch), gene (snd ch)))
                (enumerate 1 heroes))).
  2: { apply Forall2_map_same. intros ch Hin. cbn [fst snd].
       split; [now apply Hchar | now apply Hgene]. }
  cbn [and_then].
  rewrite (link_rows_decode _ _ _ _
             (flat_map
                (fun ch : Z * Hero =>
                   map (fun pw => (gene (snd ch), pw)) (powers (snd ch)))
                (enumerate 1 heroes))).
  2: { apply Forall2_flat_map_same. intros ch Hin.
       apply Forall2_map_same. intros pw Hpw. cbn [fst snd].
       split; [now apply Hgene | now apply (Hpower ch)]. }
  cbn [and_then].
  rewrite (link_rows_decode _ _ _ _
             (flat_map
                (fun ch : Z * Hero =>
                   map (fun pw => (name (snd ch), pw)) (powers (snd ch)))
                (enumerate 1 heroes))).
  2: { apply Forall2_flat_map_same. intros ch Hin.
       apply Forall2_map_same. intros pw Hpw. cbn [fst snd].
       split; [now apply Hchar | now apply (Hpower ch)]. }
  rewrite (map_enumerate (fun h => (name h, team h)) heroes 1).
  rewrite (map_enumerate (fun h => (name h, gene h)) heroes 1).
  rewrite (flat_map_enumerate
             (fun h => map (fun pw => (gene h, pw)) (powers h)) heroes 1).
  rewrite (flat_map_enumerate
             (fun h => map (fun pw => (name h, pw)) (powers h)) heroes 1).
  reflexivity.
Qed.

Lemma fromkeys_NoDup (xs : list pystr) : NoDup (nx.fromkeys xs).
Proof.
  induction xs as [|x xs IH] using rev_ind; [constructor|].
  rewrite fromkeys_snoc.
  destruct (existsb (str_eqb x) (nx.fromkeys xs)) eqn:E; [exact IH|].
  apply NoDup_app; [exact IH | repeat constructor; easy |].
  intros y Hy [Hxy|[]]. subst y.
  assert (Hex : existsb (str_eqb x) (nx.fromkeys xs) = true).
  { apply existsb_exists. exists x. split; [exact Hy | apply str_eqb_refl]. }
  congruence.
Qed.

Lemma enumerate_fst {A} (l : list A) (s : Z) :
  map fst (enumerate s l)
  = map (fun i => (s + Z.of_nat i)%Z) (seq 0 (List.length l)).
Proof.
  revert s. induction l as [|x l IH]; intros s; [reflexivity|].
  cbn [enumerate map List.length seq fst]. rewrite IH, <- seq_shift, map_map.
  f_equal; [lia|]. apply map_ext. intros i. lia.
Qed.

(** X14: [next_id] numbers names in the order of their first appearance: on
    the counter built by asking for the names [seen], it answers for
    [key] with an id between 1 and the number of names known afterwards,
    the old id if [key] was seen and the next free number if not; it
    changes no id given before; asking again gives the same answer and
    changes nothing; and two names seen never share an id. *)
Theorem next_id_numbers_names_in_order_of_appearance
    (seen : list pystr) (key : pystr) :
  let c := as_counter (numbered seen) in
  let c' := as_counter (numbered (seen ++ [key])) in
  loop seen (fun c k => r <~ next_id c k ;; Done (fst r)) [] = Done c /\
  next_id c key = Done (c', id_in c' key) /\
  next_id c' key = Done (c', id_in c' key) /\
  (1 <= id_in c' key <= Z.of_nat (List.length c'))%Z /\
  (In key seen -> c' = c) /\
  (~ In key seen ->
   c' = c ++ [(key, Z.of_nat (List.length c) + 1)%Z] /\
   id_in c' key = (Z.of_nat (List.length c) + 1)%Z) /\
  (forall k, In k seen -> id_in c' k = id_in c k) /\
  (forall k1 k2, In k1 seen -> In k2 seen -> id_in c k1 = id_in c k2 -> k1 = k2).
Proof.
  cbn zeta.
  assert (Hkey : In key (seen ++ [key])) by (apply in_or_app; right; now left).
  split; [|split; [|split; [|split; [|split; [|split; [|split]]]]]].
  - induction seen as [|k seen IH] using rev_ind; [reflexivity|].
    rewrite loop_app, IH; [|apply in_or_app; right; now left].
    cbn [and_then loop]. now rewrite next_id_numbered.
  - apply next_id_numbered.
  - rewrite next_id_numbered.
    assert (Hsame : numbered ((seen ++ [key]) ++ [key]) = numbered (seen ++ [key])).
    { apply numbered_snoc_known. apply existsb_exists. exists key.
      split; [now apply fromkeys_complete | apply str_eqb_refl]. }
    now rewrite Hsame.
  - pose proof (id_in_bounds (nx.fromkeys (seen ++ [key])) 1 key
                  (fromkeys_complete _ _ Hkey)) as Hb.
    fold (numbered (seen ++ [key])) in Hb.
    rewrite as_counter_length. unfold numbered at 3. rewrite length_enumerate.
    lia.
  - intros Hin. rewrite numbered_snoc_known; [reflexivity|].
    apply existsb_exists. exists key.
    split; [now apply fromkeys_complete | apply str_eqb_refl].
  - intros Hnew.
    assert (E : existsb (str_eqb key) (nx.fromkeys seen) = false).
    { destruct (existsb (str_eqb key) (nx.fromkeys seen)) eqn:E; [|reflexivity].
      apply existsb_exists in E. destruct E as [y [Hy Heq]].
      apply str_eqb_eq in Heq. subst y. exfalso. apply Hnew.
      now apply fromkeys_incl. }
    rewrite numbered_snoc_fresh by exact E.
    rewrite as_counter_app, as_counter_length. cbn [as_counter map fst snd].
    split; [reflexivity|].
    unfold id_in, get_default.
    rewrite get_app_fresh by now rewrite numbered_existsb.
    cbn. now rewrite str_eqb_refl.
  - intros k Hk. now apply id_in_stable.
  - intros k1 k2 H1 H2 Heq.
    pose proof (numbered_decodes seen k1 H1) as D1.
    pose proof (numbered_decodes seen k2 H2) as D2.
    rewrite Heq in D1. congruence.
Qed.

Lemma next_id_numbers_names_in_order_of_appearance_witness :
  next_id (as_counter (numbered [py "Avengers"; py "X-Men"])) (py "X-Men")
  = Done (as_counter (numbered ([py "Avengers"; py "X-Men"] ++ [py "X-Men"])),
          id_in
            (as_counter (numbered ([py "Avengers"; py "X-Men"] ++ [py "X-Men"])))
            (py "X-Men")) /\
  id_in (as_counter (numbered ([py "Avengers"; py "X-Men"] ++ [py "X-Men"])))
    (py "X-Men") = 2%Z.
Proof.
  split; [|reflexivity].
  exact (proj1 (proj2 (next_id_numbers_names_in_order_of_appearance
                         [py "Avengers"; py "X-Men"] (py "X-Men")))).
Defined.

(** X15: Section 2 of the script never raises, and leaves consistent tables:
    the heroes are numbered from 1 in order; each of the team, gene and
    power tables lists its distinct names in the order of first
    appearance, numbered from 1; every link row carries the ids of the
    names it links; there is one snippet per hero. *)
Theorem assign_ids_builds_consistent_tables (heroes : list Hero) :
  assign_ids heroes = Done (tables_of heroes) /\
  map snd (teams (tables_of heroes)) = nx.fromkeys (map team heroes) /\
  map snd (genes (tables_of heroes)) = nx.fromkeys (map gene heroes) /\
  map snd (powers_rows (tables_of heroes)) = nx.fromkeys (all_powers heroes) /\
  NoDup (map snd (teams (tables_of heroes))) /\
  NoDup (map snd (genes (tables_of heroes))) /\
  NoDup (map snd (powers_rows (tables_of heroes))) /\
  (forall table,
      In table [teams (tables_of heroes); genes (tables_of heroes);
                powers_rows (tables_of heroes); characters (tables_of heroes)] ->
      map fst table
      = map (fun i => (1 + Z.of_nat i)%Z) (seq 0 (List.length table))) /\
  List.length (characters (tables_of heroes)) = List.length heroes.
Proof.
  split; [apply assign_ids_tables|].
  cbn [teams genes powers_rows characters tables_of].
  rewrite !numbered_names.
  repeat split; try apply fromkeys_NoDup.
  - intros table [<-|[<-|[<-|[<-|[]]]]]; unfold numbered.
    + rewrite length_enumerate. apply enumerate_fst.
    + rewrite length_enumerate. apply enumerate_fst.
    + rewrite length_enumerate. apply enumerate_fst.
    + rewrite map_map, length_map, length_enumerate. cbn [fst].
      rewrite <- (enumerate_fst heroes 1). apply map_ext. reflexivity.
  - now rewrite length_map, length_enumerate.
Qed.

Lemma assign_ids_builds_consistent_tables_witness :
  assign_ids [wolverine; cyclops; wolverine]
  = Done (tables_of [wolverine; cyclops; wolverine]) /\
  map snd (teams (tables_of [wolverine; cyclops; wolverine]))
  = [py "X" ++ [NB_HYPHEN] ++ py "Men"].
Proof.
  split; [|reflexivity].
  exact (proj1 (assign_ids_builds_consistent_tables
                  [wolverine; cyclops; wolverine])).
Defined.

(** X16: The script as a whole never raises - no id is looked up in vain -
    and the graph it writes is the graph of the names themselves: the
    detour through numeric ids loses nothing and confuses no two
    names. *)
Theorem generated_graph_is_the_graph_of_the_names (heroes : list Hero) :
  (rows <~ assign_ids heroes ;; build_graph rows) = Done (graph_of heroes).
Proof.
  rewrite assign_ids_tables. cbn [and_then]. apply build_graph_tables.
Qed.

End GeneratorGraph.

Section GeneratedGraph.
Import Dict DictFacts Generator.

Lemma edge_data_named_nodes (kind : pystr) (names : list pystr)
    (g : nx.MultiDiGraph) (u v : pystr) :
  edge_data (fold_left (named_node kind) names g) u v = edge_data g u v.
Proof.
  revert g. induction names as [|n names IH]; intros g; [reflexivity|].
  cbn [fold_left]. rewrite IH. apply edge_data_add_node.
Qed.

(** The edges a typed edge loop leaves between two names: those that
    were there, and one per row that links the two. *)
Lemma edge_data_typed_edges (rel : pystr) (ends : list (pystr * pystr))
    (g : nx.MultiDiGraph) (u v : pystr) (dd : attr_dict) :
  In dd (edge_data (fold_left (typed_edge rel) ends g) u v) <->
  In dd (edge_data g u v) \/ (dd = [(py "type", VStr rel)] /\ In (u, v) ends).
Proof.
  revert g. induction ends as [|[s d] ends IH]; intros g; cbn [fold_left].
  - cbn [In]. tauto.
  - rewrite IH. unfold typed_edge. cbn [fst snd].
    rewrite edge_data_add_edge.
    destruct (str_eqb s u) eqn:Hs; cbn [andb].
    + apply str_eqb_eq in Hs. subst s.
      destruct (str_eqb d v) eqn:Hd.
      * apply str_eqb_eq in Hd. subst d.
        rewrite in_app_iff. cbn [In].
        change (update [] [(py "type", VStr rel)]) with [(py "type", VStr rel)].
        split.
        -- intros [[H|[H|[]]]|[H1 H2]]; auto.
        -- intros [H|[H1 [H2|H2]]]; auto.
      * assert (Hne : d <> v)
          by (intros ->; rewrite str_eqb_refl in Hd; discriminate).
        cbn [In]. split.
        -- intros [H|[H1 H2]]; auto.
        -- intros [H|[H1 [H2|H2]]]; auto. congruence.
    + assert (Hne : s <> u)
        by (intros ->; rewrite str_eqb_refl in Hs; discriminate).
      cbn [In]. split.
      * intros [H|[H1 H2]]; auto.
      * intros [H|[H1 [H2|H2]]]; auto. congruence.
Qed.

Lemma edge_data_graph_of (heroes : list Hero) (u v : pystr) (dd : attr_dict) :
  In dd (edge_data (graph_of heroes) u v) <->
  (dd = [(py "type", VStr (py "MEMBER_OF"))] /\
   In (u, v) (map (fun h => (name h, team h)) heroes)) \/
  (dd = [(py "type", VStr (py "HAS_MUTATION"))] /\
   In (u, v) (map (fun h => (name h, gene h)) heroes)) \/
  (dd = [(py "type", VStr (py "CONFERS"))] /\
   In (u, v)
     (flat_map (fun h => map (fun pw => (gene h, pw)) (powers h)) heroes)) \/
  (dd = [(py "type", VStr (py "POSSESSES_POWER"))] /\
   In (u, v)
     (flat_map (fun h => map (fun pw => (name h, pw)) (powers h)) heroes)).
Proof.
  unfold graph_of. cbn zeta.
  rewrite !edge_data_typed_edges, !edge_data_named_nodes.
  unfold edge_data, nx.empty, get_default. cbn [nx._succ get In]. tauto.
Qed.

Lemma constructed_named_nodes (kind : pystr) (names : list pystr)
    (g : nx.MultiDiGraph) :
  constructed g -> constructed (fold_left (named_node kind) names g).
Proof.
  revert g. induction names as [|n names IH]; intros g Hg; [exact Hg|].
  cbn [fold_left]. apply IH. now constructor.
Qed.

Lemma constructed_typed_edges (rel : pystr) (ends : list (pystr * pystr))
    (g : nx.MultiDiGraph) :
  constructed g -> constructed (fold_left (typed_edge rel) ends g).
Proof.
  revert g. induction ends as [|e ends IH]; intros g Hg; [exact Hg|].
  cbn [fold_left]. apply IH. now constructor.
Qed.

Lemma constructed_graph_of (heroes : list Hero) : constructed (graph_of heroes).
Proof.
  unfold graph_of. cbn zeta.
  repeat apply constructed_typed_edges.
  repeat apply constructed_named_nodes.
  constructor.
Qed.

Lemma touch_succ_uniq (g : nx.MultiDiGraph) (n : pystr) :
  NoDup (keys (nx._succ g)) -> NoDup (keys (nx._succ (nx.touch g n))).
Proof.
  intros H. unfold nx.touch.
  destruct (negb (mem (nx._succ g) n)); cbn [nx._succ]; [|exact H].
  now apply uniq_set.
Qed.

(** No node has two successor entries. *)
Lemma constructed_succ_uniq (g : nx.MultiDiGraph) :
  constructed g -> NoDup (keys (nx._succ g)).
Proof.
  induction 1 as [|g n attr _ IH|g u v attr _ IH].
  - constructor.
  - unfold nx.add_node.
    destruct (negb (mem (nx._succ g) n)); cbn [nx._succ]; [|exact IH].
    now apply uniq_set.
  - unfold nx.add_edge. cbn [nx._succ]. apply uniq_set.
    now apply touch_succ_uniq, touch_succ_uniq.
Qed.

(** Reading back a written graph gives, between any two names, the
    attribute dictionaries of the edges of the graph. *)
Lemma read_back_edge_attrs (g : nx.MultiDiGraph) (u v : pystr) (dd : attr_dict) :
  constructed g ->
  In dd (raw_edge_attrs (read_back g) u v) <-> In dd (edge_data g u v).
Proof.
  intros Hc.
  pose proof (constructed_succ_uniq g Hc) as Huniq.
  pose proof (constructed_inv g Hc) as Hg.
  unfold raw_edge_attrs, nx.edges_data, read_back, edge_data.
  cbn [nx.raw_adj]. rewrite in_map_iff. split.
  - intros [[[s d] dd'] [Hdd Hin]]. cbn [snd] in Hdd. subst dd'.
    apply filter_In in Hin. destruct Hin as [Hin Htest].
    cbn [fst snd] in Htest. apply andb_true_iff in Htest.
    destruct Htest as [Hs Hd]. apply str_eqb_eq in Hs, Hd. subst s d.
    apply in_flat_map in Hin. destruct Hin as [[u' nbrs] [Hun Hin]].
    apply in_flat_map in Hin. destruct Hin as [[v' kd] [Hvk Hin]].
    apply in_map_iff in Hin. destruct Hin as [dd' [Heq Hdd]].
    cbn [fst snd] in Heq, Hvk. injection Heq as -> -> ->.
    pose proof (In_get_uniq _ _ _ Huniq Hun) as Hget.
    assert (Hn : NoDup (keys nbrs)) by (eapply inv_succ_uniq; eassumption).
    pose proof (In_get_uniq _ _ _ Hn Hvk) as Hget'.
    unfold get_default. now rewrite Hget, Hget'.
  - unfold get_default.
    destruct (get (nx._succ g) u) as [nbrs|] eqn:Hget; [|easy].
    destruct (get nbrs v) as [kd|] eqn:Hget'; [|easy].
    intros Hdd. exists (u, v, dd). split; [reflexivity|].
    apply filter_In. cbn [fst snd]. rewrite !str_eqb_refl.
    split; [|reflexivity].
    apply in_flat_map. exists (u, nbrs). split; [now apply get_In|].
    apply in_flat_map. exists (v, kd). split; [now apply get_In|].
    cbn [fst snd]. apply in_map_iff. now exists dd.
Qed.

Lemma edge_count_pos (g : nx.MultiDiGraph) (u v rel : pystr) :
  0 < edge_count g u v rel <->
  exists data, In data (edge_data g u v) /\ relation_is data rel = true.
Proof.
  unfold edge_count. split.
  - intros H.
    destruct (filter (fun data => relation_is data rel) (edge_data g u v))
      as [|data rest] eqn:E; [cbn in H; lia|].
    assert (Hin : In data (filter (fun data => relation_is data rel)
                             (edge_data g u v))) by (rewrite E; now left).
    apply filter_In in Hin. now exists data.
  - intros [data [Hin Hrel]].
    assert (Hin' : In data (filter (fun data => relation_is data rel)
                              (edge_data g u v))) by now apply filter_In.
    destruct (filter _ _); [easy | cbn; lia].
Qed.

(** The ends of an edge of a constructed graph are nodes of it. *)
Lemma edge_nodes (g : nx.MultiDiGraph) (u v rel : pystr) :
  graph_inv g -> 0 < edge_count g u v rel ->
  nx.has_node g u = true /\ nx.has_node g v = true.
Proof.
  intros Hg H. apply edge_count_pos in H. destruct H as [data [Hin _]].
  unfold edge_data in Hin. unfold nx.has_node.
  assert (Hv : In v (keys (get_default (nx._succ g) u []))).
  { apply mem_keys. unfold mem.
    unfold get_default at 1 in Hin.
    destruct (get (get_default (nx._succ g) u []) v); easy. }
  split; [|eapply inv_succ_nbr; eassumption].
  eapply inv_succ_node; [eassumption|]. unfold mem. unfold get_default in Hv.
  destruct (get (nx._succ g) u); easy.
Qed.

(** The edges of the loaded graph, relation by relation, are the links
    of the table. *)
Lemma loaded_edge (heroes : list Hero) (u v rel : pystr) :
  0 < edge_count (G (from_graphml (read_back (graph_of heroes)))) u v rel <->
  (rel = py "MEMBER_OF" /\
   exists h, In h heroes /\ name h = u /\ team h = v) \/
  (rel = py "HAS_MUTATION" /\
   exists h, In h heroes /\ name h = u /\ gene h = v) \/
  (rel = py "CONFERS" /\
   exists h, In h heroes /\ gene h = u /\ In v (powers h)) \/
  (rel = py "POSSESSES_POWER" /\
   exists h, In h heroes /\ name h = u /\ In v (powers h)).
Proof.
  rewrite edge_count_pos.
  assert (Hpair : forall (f : Hero -> pystr * pystr),
            In (u, v) (map f heroes) <->
            exists h, In h heroes /\ fst (f h) = u /\ snd (f h) = v).
  { intros f. rewrite in_map_iff. split.
    - intros [h [Heq Hin]]. exists h. rewrite Heq. auto.
    - intros [h [Hin [H1 H2]]]. exists h. split; [|exact Hin].
      destruct (f h). cbn in H1, H2. congruence. }
  assert (Hflat : forall (f : Hero -> pystr),
            In (u, v) (flat_map (fun h => map (fun pw => (f h, pw)) (powers h))
                         heroes) <->
            exists h, In h heroes /\ f h = u /\ In v (powers h)).
  { intros f. rewrite in_flat_map. split.
    - intros [h [Hin Hm]]. apply in_map_iff in Hm.
      destruct Hm as [pw [[= <- <-] Hpw]]. now exists h.
    - intros [h [Hin [Hu Hv]]]. exists h. split; [exact Hin|].
      apply in_map_iff. exists v. split; [now rewrite Hu | exact Hv]. }
  assert (Hrel : forall r : pystr,
            r <> [] ->
            relation_is [(py "relation", resolve_relation [(py "type", VStr r)])]
              rel = true <-> rel = r).
  { intros r Hr. unfold resolve_relation, relation_is.
    replace (get [(py "type", VStr r)] (py "relation")) with (@None value)
      by reflexivity.
    replace (get [(py "type", VStr r)] (py "label")) with (@None value)
      by reflexivity.
    replace (get [(py "type", VStr r)] (py "type")) with (Some (VStr r))
      by reflexivity.
    unfold py_or at 1 2 3. cbn [truthy].
    destruct r as [|c r]; [congruence|]. cbn [negb].
    replace (get [(py "relation", VStr (c :: r))] (py "relation"))
      with (Some (VStr (c :: r))) by reflexivity.
    cbn [eq_str]. split.
    - intros H. apply str_eqb_eq in H. congruence.
    - intros ->. apply str_eqb_refl. }
  split.
  - intros [data [Hin Hdata]].
    rewrite from_graphml_edge_data in Hin. apply in_map_iff in Hin.
    destruct Hin as [attrs [<- Hin]].
    apply (read_back_edge_attrs _ u v attrs (constructed_graph_of heroes)) in Hin.
    apply edge_data_graph_of in Hin.
    destruct Hin as [[-> Hin]|[[-> Hin]|[[-> Hin]|[-> Hin]]]];
      apply Hrel in Hdata; try easy.
    + left. split; [exact Hdata|]. now apply (Hpair (fun h => (name h, team h))).
    + right. left. split; [exact Hdata|].
      now apply (Hpair (fun h => (name h, gene h))).
    + right. right. left. split; [exact Hdata|]. now apply (Hflat gene).
    + right. right. right. split; [exact Hdata|]. now apply (Hflat name).
  - intros H.
    assert (Hfound : exists r : pystr,
               r <> [] /\ rel = r /\
               In [(py "type", VStr r)] (edge_data (graph_of heroes) u v)).
    { destruct H as [[-> H]|[[-> H]|[[-> H]|[-> H]]]].
      - exists (py "MEMBER_OF"). split; [easy|]. split; [reflexivity|].
        apply edge_data_graph_of. left. split; [reflexivity|].
        now apply (Hpair (fun h => (name h, team h))).
      - exists (py "HAS_MUTATION"). split; [easy|]. split; [reflexivity|].
        apply edge_data_graph_of. right. left. split; [reflexivity|].
        now apply (Hpair (fun h => (name h, gene h))).
      - exists (py "CONFERS"). split; [easy|]. split; [reflexivity|].
        apply edge_data_graph_of. right. right. left. split; [reflexivity|].
        now apply (Hflat gene).
      - exists (py "POSSESSES_POWER"). split; [easy|]. split; [reflexivity|].
        apply edge_data_graph_of. right. right. right. split; [reflexivity|].
        now apply (Hflat name). }
    destruct Hfound as [r [Hr [-> Hin]]].
    exists [(py "relation", resolve_relation [(py "type", VStr r)])].
    split; [|now apply Hrel].
    rewrite from_graphml_edge_data. apply in_map_iff.
    exists [(py "type", VStr r)]. split; [reflexivity|].
    now apply (read_back_edge_attrs _ u v _ (constructed_graph_of heroes)).
Qed.

Lemma execute_reaches (self : GraphExecutor) (plan : Plan) :
  graph_inv (self_G self) ->
  nx.has_node (self_G self) (start_entity plan) = true ->
  exists res,
    execute self plan = Ok res /\
    (forall m,
        In m res <->
        reaches (self_G self) (direction_of (start_type plan))
          (start_entity plan) (relation_chain plan) m).
Proof.
  intros Hg Hstart.
  destruct (execute_from_reaches self (start_type plan) (relation_chain plan)
              [start_entity plan] Hg)
    as [res [Hres [_ Hiff]]].
  - now repeat constructor.
  - exists res. split; [exact Hres|].
    intros m. rewrite Hiff. split.
    + now intros [n [[<-|[]] Hreach]].
    + intros Hreach. exists (start_entity plan). split; [now left | exact Hreach].
Qed.

End GeneratedGraph.

Section GeneratedAnswers.
Import Dict DictFacts Generator.

Lemma loaded_inv (heroes : list Hero) :
  graph_inv (G (from_graphml (read_back (graph_of heroes)))).
Proof. apply constructed_inv, constructed_from_graphml. Qed.

Ltac other_relation H := exfalso; vm_compute in H; discriminate H.

Ltac pick_relation H :=
  apply loaded_edge in H;
  destruct H as [[Hr H]|[[Hr H]|[[Hr H]|[Hr H]]]];
  try other_relation Hr; clear Hr.

(** X17: From the table to the answers.  The graph the generator script
    writes, read back and loaded by [from_graphml], answers the plans of
    the executor from the [CHARACTERS] table and never raises on them:
    for a hero [h] of the table, the team plan returns the teams of the
    heroes called like [h]; the direct power plan their powers; the
    mutation plan the powers of every hero that shares a gene with one
    of them; the member plan of [h]'s team the names of the heroes of
    that team; and the owner plan of one of [h]'s powers the names of
    the heroes that have it. *)
Theorem generated_graph_answers_from_the_table
    (heroes : list Hero) (h : Hero) :
  In h heroes ->
  let ex := GraphExecutor_init (from_graphml (read_back (graph_of heroes))) in
  (exists res,
      execute ex (plan_for (name h) (py "Character") [py "MEMBER_OF"] (py "Team")) = Ok res /\
      forall m, In m res <->
                exists h', In h' heroes /\ name h' = name h /\ team h' = m) /\
  (exists res,
      execute ex (plan_for (name h) (py "Character") [py "POSSESSES_POWER"] (py "Power"))
      = Ok res /\
      forall m, In m res <->
                exists h', In h' heroes /\ name h' = name h /\ In m (powers h')) /\
  (exists res,
      execute ex
        (plan_for (name h) (py "Character") [py "HAS_MUTATION"; py "CONFERS"] (py "Power"))
      = Ok res /\
      forall m, In m res <->
                exists h' h'',
                  In h' heroes /\ name h' = name h /\
                  In h'' heroes /\ gene h'' = gene h' /\ In m (powers h'')) /\
  (exists res,
      execute ex (plan_for (team h) (py "Team") [py "MEMBER_OF"] (py "Character")) = Ok res /\
      forall m, In m res <->
                exists h', In h' heroes /\ team h' = team h /\ name h' = m) /\
  (forall pw,
      In pw (powers h) ->
      exists res,
        execute ex (plan_for pw (py "Power") [py "POSSESSES_POWER"] (py "Character"))
        = Ok res /\
        forall m, In m res <->
                  exists h', In h' heroes /\ In pw (powers h') /\ name h' = m).
Proof.
  intros Hh ex.
  pose proof (loaded_inv heroes) as Hinv.
  assert (Hmember : 0 < edge_count (self_G ex) (name h) (team h) (py "MEMBER_OF")).
  { apply loaded_edge. left. split; [reflexivity|]. now exists h. }
  destruct (edge_nodes _ _ _ _ Hinv Hmember) as [Hname Hteam].
  split; [|split; [|split; [|split]]].
  - destruct (execute_reaches ex
                (plan_for (name h) (py "Character") [py "MEMBER_OF"] (py "Team")) Hinv Hname)
      as [res [Hres Hiff]].
    exists res. split; [exact Hres|]. intros m. rewrite Hiff.
    cbn [plan_for start_entity start_type relation_chain reaches].
    change (direction_of (VStr (py "Character"))) with Outgoing.
    cbn [hop_count]. split.
    + intros [mid [Hedge <-]]. pick_relation Hedge. exact Hedge.
    + intros H. exists m. split; [|reflexivity].
      apply loaded_edge. left. now split.
  - destruct (execute_reaches ex
                (plan_for (name h) (py "Character") [py "POSSESSES_POWER"] (py "Power"))
                Hinv Hname)
      as [res [Hres Hiff]].
    exists res. split; [exact Hres|]. intros m. rewrite Hiff.
    cbn [plan_for start_entity start_type relation_chain reaches].
    change (direction_of (VStr (py "Character"))) with Outgoing.
    cbn [hop_count]. split.
    + intros [mid [Hedge <-]]. pick_relation Hedge. exact Hedge.
    + intros H. exists m. split; [|reflexivity].
      apply loaded_edge. right. right. right. now split.
  - destruct (execute_reaches ex
                (plan_for (name h) (py "Character") [py "HAS_MUTATION"; py "CONFERS"]
                   (py "Power")) Hinv Hname)
      as [res [Hres Hiff]].
    exists res. split; [exact Hres|]. intros m. rewrite Hiff.
    cbn [plan_for start_entity start_type relation_chain reaches].
    change (direction_of (VStr (py "Character"))) with Outgoing.
    cbn [hop_count]. split.
    + intros [mid [Hedge [mid' [Hedge' <-]]]].
      pick_relation Hedge. pick_relation Hedge'.
      destruct Hedge as [h' [Hin [Hn Hg]]].
      destruct Hedge' as [h'' [Hin' [Hg' Hp]]].
      exists h', h''. repeat split; try assumption. congruence.
    + intros [h' [h'' [Hin [Hn [Hin' [Hg Hp]]]]]].
      exists (gene h'). split.
      * apply loaded_edge. right. left. split; [reflexivity|]. now exists h'.
      * exists m. split; [|reflexivity].
        apply loaded_edge. right. right. left. split; [reflexivity|].
        now exists h''.
  - destruct (execute_reaches ex
                (plan_for (team h) (py "Team") [py "MEMBER_OF"] (py "Character")) Hinv Hteam)
      as [res [Hres Hiff]].
    exists res. split; [exact Hres|]. intros m. rewrite Hiff.
    cbn [plan_for start_entity start_type relation_chain reaches].
    change (direction_of (VStr (py "Team"))) with Incoming.
    cbn [hop_count]. split.
    + intros [mid [Hedge <-]]. pick_relation Hedge.
      destruct Hedge as [h' [Hin [Hn Ht]]]. now exists h'.
    + intros [h' [Hin [Ht Hn]]]. exists m. split; [|reflexivity].
      apply loaded_edge. left. split; [reflexivity|]. now exists h'.
  - intros pw Hpw.
    assert (Hpower : 0 < edge_count (self_G ex) (name h) pw
                           (py "POSSESSES_POWER")).
    { apply loaded_edge. right. right. right. split; [reflexivity|].
      now exists h. }
    destruct (edge_nodes _ _ _ _ Hinv Hpower) as [_ Hnode].
    destruct (execute_reaches ex
                (plan_for pw (py "Power") [py "POSSESSES_POWER"] (py "Character")) Hinv Hnode)
      as [res [Hres Hiff]].
    exists res. split; [exact Hres|]. intros m. rewrite Hiff.
    cbn [plan_for start_entity start_type relation_chain reaches].
    change (direction_of (VStr (py "Power"))) with Incoming.
    cbn [hop_count]. split.
    + intros [mid [Hedge <-]]. pick_relation Hedge.
      destruct Hedge as [h' [Hin [Hn Hp]]]. now exists h'.
    + intros [h' [Hin [Hp Hn]]]. exists m. split; [|reflexivity].
      apply loaded_edge. right. right. right. split; [reflexivity|].
      now exists h'.
Qed.

Lemma generated_graph_answers_from_the_table_witness :
  exists res,
    execute
      (GraphExecutor_init
         (from_graphml (read_back (graph_of [wolverine; cyclops]))))
      (plan_for (py "Wolverine") (py "Character")
         [py "HAS_MUTATION"; py "CONFERS"] (py "Power"))
    = Ok res /\
    In (py "Enhanced Senses") res.
Proof.
  destruct (generated_graph_answers_from_the_table [wolverine; cyclops] wolverine
              (or_introl eq_refl))
    as [_ [_ [[res [Hres Hiff]] _]]].
  exists res. split; [exact Hres|]. apply (proj2 (Hiff (py "Enhanced Senses"))).
  exists wolverine, wolverine.
  split; [left; reflexivity|]. split; [reflexivity|].
  split; [left; reflexivity|]. split; [reflexivity|].
  right. left. reflexivity.
Defined.
End GeneratedAnswers.
